(** * CanvasErgonomicPdfViewer: a shallow embedding of the render-session
    controller (index.ts) and the properties of its specification.

    Modelling conventions.
    - A JavaScript [number] is an exact rational or one of the three
      non-finite values (+Infinity, -Infinity, NaN).  Arithmetic on finite
      values is exact (no binary64 rounding, no signed zero); the
      non-finite cases follow IEEE 754 as JavaScript exposes them, so that
      [Number.isFinite], [Number.POSITIVE_INFINITY] and the comparison
      rules for NaN keep their meaning.  Where a property depends on the
      value a rounded result is floored to (the scroll anchor of
      [applyScale]), the rounding is made explicit ([Rounding],
      [Binary64.round64]) and the property is stated for every rounding.
    - Geometry reported by the browser (client sizes, scroll extents,
      offsets, device pixel ratio) is always finite and is typed [Q].
    - A JavaScript string is restricted to 8-bit code units: [string] for
      labels and messages, [list ascii] on the decoding path.
    - An [async] method is cut at its [await]s into synchronous blocks;
      a suspended call is a [Frame] (program point and captured locals)
      and the event loop resumes frames in any order. *)

From Stdlib Require Import QArith Qpower Qround Qabs Qminmax ZArith Lia Lqa.
From Stdlib Require Import ZifyNat.
From Stdlib Require Import String Ascii List Bool Arith DecimalString.
Import ListNotations.

Set Implicit Arguments.

Close Scope Q_scope.
Open Scope nat_scope.
Open Scope list_scope.

(** ** JavaScript numbers *)

Module JsNumber.

Local Open Scope Q_scope.

Inductive number : Type :=
| Fin (q : Q)
| PosInf
| NegInf
| NaN.

Definition num_eq (a b : number) : Prop :=
  match a, b with
  | Fin x, Fin y => x == y
  | PosInf, PosInf => True
  | NegInf, NegInf => True
  | NaN, NaN => True
  | _, _ => False
  end.

Definition Qltb (x y : Q) : bool :=
  match x ?= y with Lt => true | _ => false end.

Definition Qeqb (x y : Q) : bool :=
  match x ?= y with Eq => true | _ => false end.

(** [Number.isFinite(v)] *)
Definition isFinite (v : number) : bool :=
  match v with Fin _ => true | _ => false end.

(** [a + b] *)
Definition add (a b : number) : number :=
  match a, b with
  | NaN, _ | _, NaN => NaN
  | Fin x, Fin y => Fin (x + y)
  | PosInf, NegInf | NegInf, PosInf => NaN
  | PosInf, _ | _, PosInf => PosInf
  | NegInf, _ | _, NegInf => NegInf
  end.

(** unary minus *)
Definition neg (a : number) : number :=
  match a with
  | Fin x => Fin (- x)
  | PosInf => NegInf
  | NegInf => PosInf
  | NaN => NaN
  end.

(** [a - b] *)
Definition sub (a b : number) : number := add a (neg b).

(** The sign of a finite value, as a comparison with zero. *)
Definition Qsign (x : Q) : comparison := x ?= 0.

Definition signed_inf (positive : bool) : number :=
  if positive then PosInf else NegInf.

(** [a * b]; zero times an infinity is NaN. *)
Definition mul (a b : number) : number :=
  match a, b with
  | NaN, _ | _, NaN => NaN
  | Fin x, Fin y => Fin (x * y)
  | Fin x, PosInf | PosInf, Fin x =>
      match Qsign x with Eq => NaN | Gt => PosInf | Lt => NegInf end
  | Fin x, NegInf | NegInf, Fin x =>
      match Qsign x with Eq => NaN | Gt => NegInf | Lt => PosInf end
  | PosInf, PosInf | NegInf, NegInf => PosInf
  | PosInf, NegInf | NegInf, PosInf => NegInf
  end.

(** [a / b]; a finite value over zero is an infinity of the dividend's
    sign, zero over zero is NaN (the divisor zero is read as +0). *)
Definition div (a b : number) : number :=
  match a, b with
  | NaN, _ | _, NaN => NaN
  | Fin x, Fin y =>
      match Qsign y with
      | Eq => match Qsign x with Eq => NaN | Gt => PosInf | Lt => NegInf end
      | _ => Fin (x / y)
      end
  | Fin _, PosInf | Fin _, NegInf => Fin 0
  | PosInf, Fin y => match Qsign y with Lt => NegInf | _ => PosInf end
  | NegInf, Fin y => match Qsign y with Lt => PosInf | _ => NegInf end
  | _, _ => NaN
  end.

(** [a < b] and [a <= b]; every comparison with NaN is false. *)
Definition ltb (a b : number) : bool :=
  match a, b with
  | NaN, _ | _, NaN => false
  | Fin x, Fin y => Qltb x y
  | NegInf, NegInf | PosInf, PosInf => false
  | NegInf, _ => true
  | _, PosInf => true
  | _, _ => false
  end.

Definition leb (a b : number) : bool :=
  match a, b with
  | NaN, _ | _, NaN => false
  | Fin x, Fin y => Qle_bool x y
  | NegInf, _ => true
  | _, PosInf => true
  | _, _ => false
  end.

(** [a > b], [a >= b] *)
Definition gtb (a b : number) : bool := ltb b a.
Definition geb (a b : number) : bool := leb b a.

(** [Math.max(a, b)], [Math.min(a, b)]: NaN as soon as one argument is. *)
Definition Math_max (a b : number) : number :=
  match a, b with
  | NaN, _ | _, NaN => NaN
  | PosInf, _ | _, PosInf => PosInf
  | NegInf, x | x, NegInf => x
  | Fin x, Fin y => Fin (Qmax x y)
  end.

Definition Math_min (a b : number) : number :=
  match a, b with
  | NaN, _ | _, NaN => NaN
  | NegInf, _ | _, NegInf => NegInf
  | PosInf, x | x, PosInf => x
  | Fin x, Fin y => Fin (Qmin x y)
  end.

(** [Math.abs], [Math.floor], [Math.round] (round half up) *)
Definition Math_abs (a : number) : number :=
  match a with
  | Fin x => Fin (Qabs x)
  | NaN => NaN
  | _ => PosInf
  end.

Definition Math_floor (a : number) : number :=
  match a with
  | Fin x => Fin (inject_Z (Qfloor x))
  | other => other
  end.

Definition Math_round (a : number) : number :=
  match a with
  | Fin x => Fin (inject_Z (Qfloor (x + (1 # 2))))
  | other => other
  end.

(** Truthiness of a number: [0] and [NaN] are falsy. *)
Definition truthy (a : number) : bool :=
  match a with
  | Fin x => negb (Qeqb x 0)
  | NaN => false
  | _ => true
  end.

(** [`${n}`] for a number that came out of [Math.floor] or [Math.round]:
    the decimal digits of its integer value. *)
Definition toString (a : number) : string :=
  match a with
  | Fin x => NilZero.string_of_int (Z.to_int (Qfloor x))
  | PosInf => "Infinity"
  | NegInf => "-Infinity"
  | NaN => "NaN"
  end.

(** A finite number lying in the closed interval [[lo, hi]]. *)
Definition within (lo hi v : number) : Prop :=
  match lo, hi, v with
  | Fin l, Fin h, Fin x => l <= x <= h
  | _, _, _ => False
  end.

End JsNumber.

Import JsNumber.

Declare Scope num_scope.
Delimit Scope num_scope with num.
Infix "+" := add : num_scope.
Infix "-" := sub : num_scope.
Infix "*" := mul : num_scope.
Infix "/" := div : num_scope.
Infix "<?" := ltb : num_scope.
Infix "<=?" := leb : num_scope.
Infix ">?" := gtb : num_scope.
Infix ">=?" := geb : num_scope.
Infix "==" := num_eq : num_scope.
Coercion Fin : Q >-> number.

(** [clampNumber(v, min, max)] *)
Definition clampNumber (v min max : number) : number :=
  if negb (isFinite v) then min
  else Math_max min (Math_min max v).

(** ** Strings on the decoding path *)

(** The result of a call that may throw: the value, or the message the
    [catch] clause derives from the exception
    ([e instanceof Error ? (e.message || String(e)) : String(e)]). *)
Inductive Completion (A : Type) : Type :=
| Normal (a : A)
| Throw (msg : string).
Arguments Normal {A} a.
Arguments Throw {A} msg.

Module JsString.

(** WhiteSpace and LineTerminator code units below 256: the characters
    removed by [String.prototype.trim] and matched by the class [\s]
    (TAB, LF, VT, FF, CR, SPACE, NBSP). *)
Definition isWhiteSpace (c : ascii) : bool :=
  let n := nat_of_ascii c in
  ((9 <=? n) && (n <=? 13)) || (n =? 32) || (n =? 160).

Fixpoint trimStart (s : list ascii) : list ascii :=
  match s with
  | [] => []
  | c :: t => if isWhiteSpace c then trimStart t else s
  end.

Fixpoint trimEnd (s : list ascii) : list ascii :=
  match s with
  | [] => []
  | c :: t =>
      match trimEnd t with
      | [] => if isWhiteSpace c then [] else [c]
      | t' => c :: t'
      end
  end.

(** [s.trim()] *)
Definition trim (s : list ascii) : list ascii := trimEnd (trimStart s).

(** [s.indexOf(c)] for a one-character pattern; [None] stands for -1. *)
Fixpoint indexOf (c : ascii) (s : list ascii) : option nat :=
  match s with
  | [] => None
  | x :: t => if Ascii.eqb x c then Some 0 else option_map S (indexOf c t)
  end.

(** [s.startsWith(p)] *)
Fixpoint startsWith (p s : list ascii) : bool :=
  match p, s with
  | [], _ => true
  | _ :: _, [] => false
  | a :: p', b :: s' => Ascii.eqb a b && startsWith p' s'
  end.

(** [s.substring(n)] *)
Definition substring (n : nat) (s : list ascii) : list ascii := skipn n s.

(** [s.replace(/[\r\n\s]/g, "")] *)
Definition removeWhiteSpace (s : list ascii) : list ascii :=
  filter (fun c => negb (isWhiteSpace c)) s.

End JsString.

(** ** [window.atob]: the forgiving-base64 decode of the HTML standard *)

Module Base64.

(** ASCII whitespace of the standard: TAB, LF, FF, CR, SPACE. *)
Definition isAsciiWhitespace (c : ascii) : bool :=
  let n := nat_of_ascii c in
  (n =? 9) || (n =? 10) || (n =? 12) || (n =? 13) || (n =? 32).

(** Position of a character in the base64 alphabet [A-Za-z0-9+/]. *)
Definition sextet_of_char (c : ascii) : option nat :=
  let n := nat_of_ascii c in
  if (65 <=? n) && (n <=? 90) then Some (n - 65)
  else if (97 <=? n) && (n <=? 122) then Some (n - 71)
  else if (48 <=? n) && (n <=? 57) then Some (n + 4)
  else if n =? 43 then Some 62
  else if n =? 47 then Some 63
  else None.

(** The character at a position of the alphabet. *)
Definition char_of_sextet (s : nat) : ascii :=
  if s <? 26 then ascii_of_nat (s + 65)
  else if s <? 52 then ascii_of_nat (s + 71)
  else if s <? 62 then ascii_of_nat (s - 4)
  else if s =? 62 then "+"%char
  else "/"%char.

Fixpoint sextets_of_chars (s : list ascii) : option (list nat) :=
  match s with
  | [] => Some []
  | c :: t =>
      match sextet_of_char c, sextets_of_chars t with
      | Some x, Some r => Some (x :: r)
      | _, _ => None
      end
  end.

(** When the length is a multiple of four, one or two trailing [=] are
    removed. *)
Definition strip_padding (s : list ascii) : list ascii :=
  if length s mod 4 =? 0 then
    match rev s with
    | [] => s
    | c1 :: r =>
        if Ascii.eqb c1 "=" then
          match r with
          | [] => rev r
          | c2 :: r' => if Ascii.eqb c2 "=" then rev r' else rev r
          end
        else s
    end
  else s.

(** Twenty-four buffered bits leave as three bytes; twelve remaining bits
    lose their last four and leave as one byte, eighteen lose their last
    two and leave as two bytes. *)
Fixpoint bytes_of_sextets (l : list nat) : list ascii :=
  match l with
  | s1 :: s2 :: s3 :: s4 :: rest =>
      ascii_of_nat (s1 * 4 + s2 / 16)
        :: ascii_of_nat ((s2 mod 16) * 16 + s3 / 4)
        :: ascii_of_nat ((s3 mod 4) * 64 + s4)
        :: bytes_of_sextets rest
  | [s1; s2; s3] =>
      [ascii_of_nat (s1 * 4 + s2 / 16);
       ascii_of_nat ((s2 mod 16) * 16 + s3 / 4)]
  | [s1; s2] => [ascii_of_nat (s1 * 4 + s2 / 16)]
  | _ => []
  end.

(** [window.atob(data)]: the binary string, or [None] when the call throws
    an InvalidCharacterError. *)
Definition atob (data : list ascii) : option (list ascii) :=
  let d := filter (fun c => negb (isAsciiWhitespace c)) data in
  let d := strip_padding d in
  if length d mod 4 =? 1 then None
  else option_map bytes_of_sextets (sextets_of_chars d).

(** The message of the DOMException thrown by [atob]; its wording is left
    to the engine. *)
Definition atob_message : string :=
  "Failed to execute 'atob' on 'Window': The string to be decoded is not correctly encoded.".

(** The standard base64 encoding with [=] padding (RFC 4648, section 4),
    the encoder of the round-trip property: the bytes are cut into 6-bit
    groups, three bytes giving four groups, and a last group of one or two
    bytes is completed with zero bits. *)
Fixpoint sextets_of_bytes (b : list Byte.byte) : list nat :=
  match b with
  | [] => []
  | [x] =>
      let x := Byte.to_nat x in
      [x / 4; (x mod 4) * 16]
  | [x; y] =>
      let x := Byte.to_nat x in
      let y := Byte.to_nat y in
      [x / 4; (x mod 4) * 16 + y / 16; (y mod 16) * 4]
  | x :: y :: z :: rest =>
      let x := Byte.to_nat x in
      let y := Byte.to_nat y in
      let z := Byte.to_nat z in
      x / 4
        :: (x mod 4) * 16 + y / 16
        :: (y mod 16) * 4 + z / 64
        :: z mod 64
        :: sextets_of_bytes rest
  end.

Definition padding (n : nat) : list ascii :=
  match n mod 3 with
  | 1 => ["="%char; "="%char]
  | 2 => ["="%char]
  | _ => []
  end.

Definition encode (b : list Byte.byte) : list ascii :=
  map char_of_sextet (sextets_of_bytes b) ++ padding (length b).

End Base64.

Import JsString.

(** [dataUriToBytes(input)] *)
Definition dataUriToBytes (input : list ascii) : Completion (list Byte.byte) :=
  let s := trim input in
  let comma := indexOf ","%char s in
  let s :=
    match comma with
    | Some i =>
        if startsWith (list_ascii_of_string "data:") s
        then substring (i + 1) s else s
    | None => s
    end in
  let base64 := removeWhiteSpace s in
  match Base64.atob base64 with
  | None => Throw Base64.atob_message
  | Some binary => Normal (map byte_of_ascii binary)
  end.

(** [bytes[i] ?? 0] *)
Definition byteOrZero (bytes : list Byte.byte) (i : nat) : Byte.byte :=
  match nth_error bytes i with
  | Some b => b
  | None => Byte.x00
  end.

(** [String.fromCharCode(bytes[0] ?? 0, bytes[1] ?? 0, bytes[2] ?? 0,
    bytes[3] ?? 0)] *)
Definition signature (bytes : list Byte.byte) : string :=
  string_of_list_ascii
    (map (fun i => ascii_of_byte (byteOrZero bytes i)) [0; 1; 2; 3]%nat).

(** ** The rendering capability and the document view *)

(** A page handle of the rendering capability: the document it belongs
    to, its number and its intrinsic size. *)
Record PDFPageProxy : Type := {
  pg_doc : nat;
  pg_index : nat;
  pg_width : Q;
  pg_height : Q
}.

(** [page.getViewport({ scale })] *)
Definition getViewport (page : PDFPageProxy) (scale : number) : number * number :=
  (mul (Fin (pg_width page)) scale, mul (Fin (pg_height page)) scale).

Record PDFDocumentProxy : Type := {
  doc_id : nat;
  numPages : nat
}.

(** A canvas element: raster size, display size and what [page.render]
    was asked to paint on it. *)
Record Canvas : Type := {
  cv_width : number;
  cv_height : number;
  cv_styleWidth : string;
  cv_styleHeight : string;
  cv_render : option (PDFPageProxy * number)
}.

(** [document.createElement("canvas")] *)
Definition createCanvas : Canvas :=
  {| cv_width := Fin (300 # 1); cv_height := Fin (150 # 1);
     cv_styleWidth := ""; cv_styleHeight := "";
     cv_render := None |}.

(** A page wrapper [div] with its canvas child. *)
Record Wrapper : Type := {
  wr_id : nat;
  wr_canvas : Canvas
}.

(** What the browser's layout reports: the viewport's client and scroll
    sizes, the [offsetTop] of each wrapper element and
    [window.devicePixelRatio]. *)
Record Geometry : Type := {
  clientWidth : Q;
  clientHeight : Q;
  scrollWidth : Q;
  scrollHeight : Q;
  offsetTop : nat -> Q;
  devicePixelRatio : Q
}.

Inductive Call : Type :=
| CallGetDocument (data : list Byte.byte)
| CallGetPage (d : PDFDocumentProxy) (n : nat)
| CallRender (page : PDFPageProxy) (scale : number).

Definition ArrayRef : Type := nat.

(** ** The controller's fields and the DOM state it owns *)

Record Controller : Type := {
  renderToken : nat;  (* [this.renderToken] *)
  doc : option PDFDocumentProxy;  (* [this.doc] *)
  pages : ArrayRef;  (* [this.pages]: a reference to an array object of the heap *)
  heap : list (list PDFPageProxy);  (* the array objects that [this.pages] has referred to *)
  pageCanvases : list Canvas;  (* [this.pageCanvases] *)
  pageWrappers : list Wrapper;  (* [this.pageWrappers] *)
  lastDataUri : option (list ascii);  (* [this.lastDataUri] *)
  minZoom : number;
  maxZoom : number;
  zoomStep : number;
  currentScale : number;
  fitWidthScale : number;
  scrollTop : Q;  (* [this.viewport.scrollTop] *)
  scrollLeft : Q;  (* [this.viewport.scrollLeft] *)
  geometry : Geometry;  (* live layout of the viewport and its content *)
  pagesHost : list Wrapper;  (* the children of [this.pagesHost] *)
  pageLabel : string;  (* [this.pageLabel.innerText] *)
  zoomLabel : string;  (* [this.zoomLabel.innerText] *)
  btnPrevDisabled : bool;  (* [this.btnPrev.disabled] *)
  btnNextDisabled : bool;  (* [this.btnNext.disabled] *)
  errorText : string;  (* [this.errorBox.innerText] *)
  errorShown : bool;  (* [this.errorBox.style.display] is [block] *)
  overlayShown : bool;  (* [this.overlay.style.display] is [flex] *)
  nextId : nat;  (* the identity given to the next created element *)
  calls : list Call  (* the calls made to the rendering capability, latest first *)
}.

(** Field updates. *)

Definition set_renderToken (v : nat) (st : Controller) : Controller :=
  Build_Controller v (doc st) (pages st) (heap st) (pageCanvases st)
    (pageWrappers st) (lastDataUri st) (minZoom st) (maxZoom st)
    (zoomStep st) (currentScale st) (fitWidthScale st) (scrollTop st)
    (scrollLeft st) (geometry st) (pagesHost st) (pageLabel st)
    (zoomLabel st) (btnPrevDisabled st) (btnNextDisabled st) (errorText st)
    (errorShown st) (overlayShown st) (nextId st) (calls st).

Definition set_doc (v : option PDFDocumentProxy) (st : Controller) : Controller :=
  Build_Controller (renderToken st) v (pages st) (heap st) (pageCanvases st)
    (pageWrappers st) (lastDataUri st) (minZoom st) (maxZoom st)
    (zoomStep st) (currentScale st) (fitWidthScale st) (scrollTop st)
    (scrollLeft st) (geometry st) (pagesHost st) (pageLabel st)
    (zoomLabel st) (btnPrevDisabled st) (btnNextDisabled st) (errorText st)
    (errorShown st) (overlayShown st) (nextId st) (calls st).

Definition set_pages (v : ArrayRef) (st : Controller) : Controller :=
  Build_Controller (renderToken st) (doc st) v (heap st) (pageCanvases st)
    (pageWrappers st) (lastDataUri st) (minZoom st) (maxZoom st)
    (zoomStep st) (currentScale st) (fitWidthScale st) (scrollTop st)
    (scrollLeft st) (geometry st) (pagesHost st) (pageLabel st)
    (zoomLabel st) (btnPrevDisabled st) (btnNextDisabled st) (errorText st)
    (errorShown st) (overlayShown st) (nextId st) (calls st).

Definition set_heap (v : list (list PDFPageProxy)) (st : Controller) : Controller :=
  Build_Controller (renderToken st) (doc st) (pages st) v (pageCanvases st)
    (pageWrappers st) (lastDataUri st) (minZoom st) (maxZoom st)
    (zoomStep st) (currentScale st) (fitWidthScale st) (scrollTop st)
    (scrollLeft st) (geometry st) (pagesHost st) (pageLabel st)
    (zoomLabel st) (btnPrevDisabled st) (btnNextDisabled st) (errorText st)
    (errorShown st) (overlayShown st) (nextId st) (calls st).

Definition set_pageCanvases (v : list Canvas) (st : Controller) : Controller :=
  Build_Controller (renderToken st) (doc st) (pages st) (heap st) v
    (pageWrappers st) (lastDataUri st) (minZoom st) (maxZoom st)
    (zoomStep st) (currentScale st) (fitWidthScale st) (scrollTop st)
    (scrollLeft st) (geometry st) (pagesHost st) (pageLabel st)
    (zoomLabel st) (btnPrevDisabled st) (btnNextDisabled st) (errorText st)
    (errorShown st) (overlayShown st) (nextId st) (calls st).

Definition set_pageWrappers (v : list Wrapper) (st : Controller) : Controller :=
  Build_Controller (renderToken st) (doc st) (pages st) (heap st)
    (pageCanvases st) v (lastDataUri st) (minZoom st) (maxZoom st)
    (zoomStep st) (currentScale st) (fitWidthScale st) (scrollTop st)
    (scrollLeft st) (geometry st) (pagesHost st) (pageLabel st)
    (zoomLabel st) (btnPrevDisabled st) (btnNextDisabled st) (errorText st)
    (errorShown st) (overlayShown st) (nextId st) (calls st).

Definition set_lastDataUri (v : option (list ascii)) (st : Controller) : Controller :=
  Build_Controller (renderToken st) (doc st) (pages st) (heap st)
    (pageCanvases st) (pageWrappers st) v (minZoom st) (maxZoom st)
    (zoomStep st) (currentScale st) (fitWidthScale st) (scrollTop st)
    (scrollLeft st) (geometry st) (pagesHost st) (pageLabel st)
    (zoomLabel st) (btnPrevDisabled st) (btnNextDisabled st) (errorText st)
    (errorShown st) (overlayShown st) (nextId st) (calls st).

Definition set_minZoom (v : number) (st : Controller) : Controller :=
  Build_Controller (renderToken st) (doc st) (pages st) (heap st)
    (pageCanvases st) (pageWrappers st) (lastDataUri st) v (maxZoom st)
    (zoomStep st) (currentScale st) (fitWidthScale st) (scrollTop st)
    (scrollLeft st) (geometry st) (pagesHost st) (pageLabel st)
    (zoomLabel st) (btnPrevDisabled st) (btnNextDisabled st) (errorText st)
    (errorShown st) (overlayShown st) (nextId st) (calls st).

Definition set_maxZoom (v : number) (st : Controller) : Controller :=
  Build_Controller (renderToken st) (doc st) (pages st) (heap st)
    (pageCanvases st) (pageWrappers st) (lastDataUri st) (minZoom st) v
    (zoomStep st) (currentScale st) (fitWidthScale st) (scrollTop st)
    (scrollLeft st) (geometry st) (pagesHost st) (pageLabel st)
    (zoomLabel st) (btnPrevDisabled st) (btnNextDisabled st) (errorText st)
    (errorShown st) (overlayShown st) (nextId st) (calls st).

Definition set_zoomStep (v : number) (st : Controller) : Controller :=
  Build_Controller (renderToken st) (doc st) (pages st) (heap st)
    (pageCanvases st) (pageWrappers st) (lastDataUri st) (minZoom st)
    (maxZoom st) v (currentScale st) (fitWidthScale st) (scrollTop st)
    (scrollLeft st) (geometry st) (pagesHost st) (pageLabel st)
    (zoomLabel st) (btnPrevDisabled st) (btnNextDisabled st) (errorText st)
    (errorShown st) (overlayShown st) (nextId st) (calls st).

Definition set_currentScale (v : number) (st : Controller) : Controller :=
  Build_Controller (renderToken st) (doc st) (pages st) (heap st)
    (pageCanvases st) (pageWrappers st) (lastDataUri st) (minZoom st)
    (maxZoom st) (zoomStep st) v (fitWidthScale st) (scrollTop st)
    (scrollLeft st) (geometry st) (pagesHost st) (pageLabel st)
    (zoomLabel st) (btnPrevDisabled st) (btnNextDisabled st) (errorText st)
    (errorShown st) (overlayShown st) (nextId st) (calls st).

Definition set_fitWidthScale (v : number) (st : Controller) : Controller :=
  Build_Controller (renderToken st) (doc st) (pages st) (heap st)
    (pageCanvases st) (pageWrappers st) (lastDataUri st) (minZoom st)
    (maxZoom st) (zoomStep st) (currentScale st) v (scrollTop st)
    (scrollLeft st) (geometry st) (pagesHost st) (pageLabel st)
    (zoomLabel st) (btnPrevDisabled st) (btnNextDisabled st) (errorText st)
    (errorShown st) (overlayShown st) (nextId st) (calls st).

Definition set_scrollTop (v : Q) (st : Controller) : Controller :=
  Build_Controller (renderToken st) (doc st) (pages st) (heap st)
    (pageCanvases st) (pageWrappers st) (lastDataUri st) (minZoom st)
    (maxZoom st) (zoomStep st) (currentScale st) (fitWidthScale st) v
    (scrollLeft st) (geometry st) (pagesHost st) (pageLabel st)
    (zoomLabel st) (btnPrevDisabled st) (btnNextDisabled st) (errorText st)
    (errorShown st) (overlayShown st) (nextId st) (calls st).

Definition set_scrollLeft (v : Q) (st : Controller) : Controller :=
  Build_Controller (renderToken st) (doc st) (pages st) (heap st)
    (pageCanvases st) (pageWrappers st) (lastDataUri st) (minZoom st)
    (maxZoom st) (zoomStep st) (currentScale st) (fitWidthScale st)
    (scrollTop st) v (geometry st) (pagesHost st) (pageLabel st)
    (zoomLabel st) (btnPrevDisabled st) (btnNextDisabled st) (errorText st)
    (errorShown st) (overlayShown st) (nextId st) (calls st).

Definition set_geometry (v : Geometry) (st : Controller) : Controller :=
  Build_Controller (renderToken st) (doc st) (pages st) (heap st)
    (pageCanvases st) (pageWrappers st) (lastDataUri st) (minZoom st)
    (maxZoom st) (zoomStep st) (currentScale st) (fitWidthScale st)
    (scrollTop st) (scrollLeft st) v (pagesHost st) (pageLabel st)
    (zoomLabel st) (btnPrevDisabled st) (btnNextDisabled st) (errorText st)
    (errorShown st) (overlayShown st) (nextId st) (calls st).

Definition set_pagesHost (v : list Wrapper) (st : Controller) : Controller :=
  Build_Controller (renderToken st) (doc st) (pages st) (heap st)
    (pageCanvases st) (pageWrappers st) (lastDataUri st) (minZoom st)
    (maxZoom st) (zoomStep st) (currentScale st) (fitWidthScale st)
    (scrollTop st) (scrollLeft st) (geometry st) v (pageLabel st)
    (zoomLabel st) (btnPrevDisabled st) (btnNextDisabled st) (errorText st)
    (errorShown st) (overlayShown st) (nextId st) (calls st).

Definition set_pageLabel (v : string) (st : Controller) : Controller :=
  Build_Controller (renderToken st) (doc st) (pages st) (heap st)
    (pageCanvases st) (pageWrappers st) (lastDataUri st) (minZoom st)
    (maxZoom st) (zoomStep st) (currentScale st) (fitWidthScale st)
    (scrollTop st) (scrollLeft st) (geometry st) (pagesHost st) v
    (zoomLabel st) (btnPrevDisabled st) (btnNextDisabled st) (errorText st)
    (errorShown st) (overlayShown st) (nextId st) (calls st).

Definition set_zoomLabel (v : string) (st : Controller) : Controller :=
  Build_Controller (renderToken st) (doc st) (pages st) (heap st)
    (pageCanvases st) (pageWrappers st) (lastDataUri st) (minZoom st)
    (maxZoom st) (zoomStep st) (currentScale st) (fitWidthScale st)
    (scrollTop st) (scrollLeft st) (geometry st) (pagesHost st)
    (pageLabel st) v (btnPrevDisabled st) (btnNextDisabled st)
    (errorText st) (errorShown st) (overlayShown st) (nextId st) (calls st).

Definition set_btnPrevDisabled (v : bool) (st : Controller) : Controller :=
  Build_Controller (renderToken st) (doc st) (pages st) (heap st)
    (pageCanvases st) (pageWrappers st) (lastDataUri st) (minZoom st)
    (maxZoom st) (zoomStep st) (currentScale st) (fitWidthScale st)
    (scrollTop st) (scrollLeft st) (geometry st) (pagesHost st)
    (pageLabel st) (zoomLabel st) v (btnNextDisabled st) (errorText st)
    (errorShown st) (overlayShown st) (nextId st) (calls st).

Definition set_btnNextDisabled (v : bool) (st : Controller) : Controller :=
  Build_Controller (renderToken st) (doc st) (pages st) (heap st)
    (pageCanvases st) (pageWrappers st) (lastDataUri st) (minZoom st)
    (maxZoom st) (zoomStep st) (currentScale st) (fitWidthScale st)
    (scrollTop st) (scrollLeft st) (geometry st) (pagesHost st)
    (pageLabel st) (zoomLabel st) (btnPrevDisabled st) v (errorText st)
    (errorShown st) (overlayShown st) (nextId st) (calls st).

Definition set_errorText (v : string) (st : Controller) : Controller :=
  Build_Controller (renderToken st) (doc st) (pages st) (heap st)
    (pageCanvases st) (pageWrappers st) (lastDataUri st) (minZoom st)
    (maxZoom st) (zoomStep st) (currentScale st) (fitWidthScale st)
    (scrollTop st) (scrollLeft st) (geometry st) (pagesHost st)
    (pageLabel st) (zoomLabel st) (btnPrevDisabled st) (btnNextDisabled st)
    v (errorShown st) (overlayShown st) (nextId st) (calls st).

Definition set_errorShown (v : bool) (st : Controller) : Controller :=
  Build_Controller (renderToken st) (doc st) (pages st) (heap st)
    (pageCanvases st) (pageWrappers st) (lastDataUri st) (minZoom st)
    (maxZoom st) (zoomStep st) (currentScale st) (fitWidthScale st)
    (scrollTop st) (scrollLeft st) (geometry st) (pagesHost st)
    (pageLabel st) (zoomLabel st) (btnPrevDisabled st) (btnNextDisabled st)
    (errorText st) v (overlayShown st) (nextId st) (calls st).

Definition set_overlayShown (v : bool) (st : Controller) : Controller :=
  Build_Controller (renderToken st) (doc st) (pages st) (heap st)
    (pageCanvases st) (pageWrappers st) (lastDataUri st) (minZoom st)
    (maxZoom st) (zoomStep st) (currentScale st) (fitWidthScale st)
    (scrollTop st) (scrollLeft st) (geometry st) (pagesHost st)
    (pageLabel st) (zoomLabel st) (btnPrevDisabled st) (btnNextDisabled st)
    (errorText st) (errorShown st) v (nextId st) (calls st).

Definition set_nextId (v : nat) (st : Controller) : Controller :=
  Build_Controller (renderToken st) (doc st) (pages st) (heap st)
    (pageCanvases st) (pageWrappers st) (lastDataUri st) (minZoom st)
    (maxZoom st) (zoomStep st) (currentScale st) (fitWidthScale st)
    (scrollTop st) (scrollLeft st) (geometry st) (pagesHost st)
    (pageLabel st) (zoomLabel st) (btnPrevDisabled st) (btnNextDisabled st)
    (errorText st) (errorShown st) (overlayShown st) v (calls st).

Definition set_calls (v : list Call) (st : Controller) : Controller :=
  Build_Controller (renderToken st) (doc st) (pages st) (heap st)
    (pageCanvases st) (pageWrappers st) (lastDataUri st) (minZoom st)
    (maxZoom st) (zoomStep st) (currentScale st) (fitWidthScale st)
    (scrollTop st) (scrollLeft st) (geometry st) (pagesHost st)
    (pageLabel st) (zoomLabel st) (btnPrevDisabled st) (btnNextDisabled st)
    (errorText st) (errorShown st) (overlayShown st) (nextId st) v.

(** Statements in source order: [st |> f |> g] runs [f], then [g]. *)
Notation "st |> f" := (f st) (at level 45, left associativity, only parsing).

(** ** Array objects *)

(** The array object behind a reference. *)
Definition array_get (st : Controller) (r : ArrayRef) : list PDFPageProxy :=
  nth r (heap st) [].

(** The elements of [this.pages]. *)
Definition thisPages (st : Controller) : list PDFPageProxy :=
  array_get st (pages st).

(** [this.pages = []]: the field refers to a fresh array object. *)
Definition resetPages (st : Controller) : Controller :=
  st |> set_pages (length (heap st)) |> set_heap (heap st ++ [[]]).

Fixpoint heap_push (h : list (list PDFPageProxy)) (r : ArrayRef)
    (page : PDFPageProxy) : list (list PDFPageProxy) :=
  match h, r with
  | [], _ => []
  | a :: h', O => (a ++ [page]) :: h'
  | a :: h', S r' => a :: heap_push h' r' page
  end.

(** [this.pages.push(page)]: the array the field refers to now. *)
Definition pushPage (page : PDFPageProxy) (st : Controller) : Controller :=
  st |> set_heap (heap_push (heap st) (pages st) page).

(** ** Synchronous methods *)

Definition string_of_nat (n : nat) : string :=
  NilZero.string_of_uint (Nat.to_uint n).

Definition setLoading (loading : bool) (st : Controller) : Controller :=
  st |> set_overlayShown loading.

Definition setError (msg : string) (st : Controller) : Controller :=
  st |> set_errorText msg |> set_errorShown true.

Definition clearError (st : Controller) : Controller :=
  st |> set_errorText "" |> set_errorShown false.

Definition clearDocument (st : Controller) : Controller :=
  st |> set_doc None
     |> resetPages
     |> set_pageCanvases []
     |> set_pageWrappers []
     |> set_pagesHost []
     |> set_pageLabel "0 / 0"
     |> set_zoomLabel "100%".

Definition updateZoomUi (st : Controller) : Controller :=
  st |> set_zoomLabel
          (toString (Math_round (mul (currentScale st) (Fin (100 # 1)))) ++ "%").

(** The loop of [getCurrentPageIndex]: [i] is the loop index, [best] and
    [bestDist] the two locals. *)
Fixpoint nearestPage (offset : nat -> Q) (viewMid : number)
    (els : list Wrapper) (i best : nat) (bestDist : number) : nat :=
  match els with
  | [] => best
  | el :: rest =>
      let y := Fin (offset (wr_id el)) in
      let dist := Math_abs (sub y viewMid) in
      if ltb dist bestDist
      then nearestPage offset viewMid rest (S i) i dist
      else nearestPage offset viewMid rest (S i) best bestDist
  end.

(** [viewMid] of [getCurrentPageIndex] *)
Definition viewMid (st : Controller) : number :=
  add (Fin (scrollTop st))
      (mul (Fin (clientHeight (geometry st))) (Fin (35 # 100))).

Definition getCurrentPageIndex (st : Controller) : nat :=
  match pageWrappers st with
  | [] => 0
  | _ =>
      nearestPage (offsetTop (geometry st)) (viewMid st) (pageWrappers st)
        0 0 PosInf
  end.

Definition updateNavUi (st : Controller) : Controller :=
  let total := length (pageWrappers st) in
  if total =? 0 then
    st |> set_pageLabel "0 / 0"
       |> set_btnPrevDisabled true
       |> set_btnNextDisabled true
  else
    let idx := getCurrentPageIndex st in
    st |> set_pageLabel
            (string_of_nat (idx + 1) ++ " / " ++ string_of_nat total)
       |> set_btnPrevDisabled (idx <=? 0)
       |> set_btnNextDisabled (total - 1 <=? idx).

Definition computeFitWidthScale (st : Controller) : Controller :=
  match thisPages st with
  | [] => st |> set_fitWidthScale (Fin 1)
  | first :: _ =>
      let hostWidth := Fin (clientWidth (geometry st)) in
      let usable := Math_max (Fin (200 # 1)) (sub hostWidth (Fin (24 # 1))) in
      let vp1 := getViewport first (Fin 1) in
      let fit := div usable (Math_max (Fin 1) (fst vp1)) in
      st |> set_fitWidthScale (clampNumber fit (minZoom st) (maxZoom st))
  end.

(** An assignment to [scrollTop] or [scrollLeft]: the DOM stores a finite
    value and reads a non-finite one as 0.  The offset is kept as assigned;
    the browser's clamping to the scrollable range is not applied. *)
Definition scrollOffset (v : number) : Q :=
  match v with
  | Fin q => q
  | _ => 0%Q
  end.

(** [scrollToPage(index)]; the index may be negative. *)
Definition scrollToPage (index : Z) (st : Controller) : Controller :=
  if (index <? 0)%Z then st
  else
    match nth_error (pageWrappers st) (Z.to_nat index) with
    | None => st
    | Some el =>
        st |> set_scrollTop
                (scrollOffset
                   (Math_max (Fin 0)
                      (sub (Fin (offsetTop (geometry st) (wr_id el)))
                           (Fin (8 # 1)))))
    end.

Definition onPrevClick (st : Controller) : Controller :=
  let idx := Z.of_nat (getCurrentPageIndex st) in
  scrollToPage (Z.max 0 (idx - 1)) st.

Definition onNextClick (st : Controller) : Controller :=
  let idx := Z.of_nat (getCurrentPageIndex st) in
  scrollToPage (Z.min (Z.of_nat (length (pageWrappers st)) - 1) (idx + 1)) st.

Definition onViewportScroll (st : Controller) : Controller := updateNavUi st.

(** The synchronous part of [renderPageToCanvas]: the canvas as it is when
    the method suspends on [renderTask.promise], with the call made to
    [page.render]; no call when the method returns at its token check.
    A fresh canvas always yields a 2d context. *)
Definition renderPageToCanvas (page : PDFPageProxy) (canvas : Canvas)
    (scale : number) (token : nat) (st : Controller) : Canvas * option Call :=
  if negb (token =? renderToken st) then (canvas, None)
  else
    let viewport := getViewport page scale in
    let dpr := Fin (devicePixelRatio (geometry st)) in
    let outputScale := if truthy dpr then dpr else Fin 1 in
    let w := Math_floor (mul (fst viewport) outputScale) in
    let h := Math_floor (mul (snd viewport) outputScale) in
    ({| cv_width := w;
        cv_height := h;
        cv_styleWidth := toString (Math_floor (fst viewport)) ++ "px";
        cv_styleHeight := toString (Math_floor (snd viewport)) ++ "px";
        cv_render := Some (page, scale) |},
     Some (CallRender page scale)).

(** ** Asynchronous methods *)

(** The three places [renderAllPages] is awaited from: the neutral first
    pass and the final pass of [loadFromDataUri], and [applyScale] with its
    two captured scroll ratios. *)
Inductive RenderCaller : Type :=
| FirstPass
| SecondPass
| ScalePass (ratioTop ratioLeft : number).

(** A suspended call: the [await] it waits at and its live locals. *)
Inductive Frame : Type :=
| AwaitInitFrame
| AwaitPdfJs (token : nat) (bytes : list Byte.byte)
| AwaitDocument (token : nat)
| AwaitPage (token : nat) (d : PDFDocumentProxy) (i pageCount : nat)
| AwaitRender (token : nat) (arr : ArrayRef) (idx : nat) (caller : RenderCaller)
| AwaitFrames (token : nat)
| AwaitRestoreFrame (ratioTop ratioLeft : number).

Inductive Value : Type :=
| VUnit
| VDocument (d : PDFDocumentProxy)
| VPage (p : PDFPageProxy).

Inductive Settled : Type :=
| Fulfilled (v : Value)
| Rejected (msg : string).

Definition stale (token : nat) (st : Controller) : bool :=
  negb (token =? renderToken st).

(** [finally { if (token === this.renderToken) this.setLoading(false); }] *)
Definition finallySetLoading (token : nat) (st : Controller) : Controller :=
  if token =? renderToken st then setLoading false st else st.

(** The [catch] clause of [loadFromDataUri], then its [finally]. *)
Definition loadCatch (token : nat) (msg : string) (st : Controller) : Controller :=
  (if stale token st then st
   else st |> clearDocument |> setError ("Failed to load PDF: " ++ msg))
  |> finallySetLoading token.

(** The animation-frame callback of [applyScale]. *)
Definition restoreScroll (ratioTop ratioLeft : number) (st : Controller) : Controller :=
  let g := geometry st in
  let maxTop :=
    Math_max (Fin 0) (sub (Fin (scrollHeight g)) (Fin (clientHeight g))) in
  let maxLeft :=
    Math_max (Fin 0) (sub (Fin (scrollWidth g)) (Fin (clientWidth g))) in
  st |> set_scrollTop (scrollOffset (Math_floor (mul maxTop ratioTop)))
     |> set_scrollLeft (scrollOffset (Math_floor (mul maxLeft ratioLeft))).

(** What follows [await this.renderAllPages(token)] in each caller. *)
Definition afterRenderAllPages (caller : RenderCaller) (token : nat)
    (st : Controller) : Controller * list Frame :=
  match caller with
  | FirstPass =>
      if stale token st then (finallySetLoading token st, [])
      else (st, [AwaitFrames token])
  | SecondPass =>
      if stale token st then (finallySetLoading token st, [])
      else (st |> updateNavUi |> updateZoomUi |> finallySetLoading token, [])
  | ScalePass ratioTop ratioLeft =>
      if stale token st then (finallySetLoading token st, [])
      else (st |> updateNavUi |> updateZoomUi |> finallySetLoading token,
            [AwaitRestoreFrame ratioTop ratioLeft])
  end.

(** A rejection leaving [renderAllPages]: caught by [loadFromDataUri],
    only passing through the [finally] of [applyScale]. *)
Definition throwFromRenderAllPages (caller : RenderCaller) (token : nat)
    (msg : string) (st : Controller) : Controller * list Frame :=
  match caller with
  | FirstPass | SecondPass => (loadCatch token msg st, [])
  | ScalePass _ _ => (finallySetLoading token st, [])
  end.

(** The [for (const page of this.pages)] loop of [renderAllPages], from
    the iterator position [idx] of the array object [arr]; [rest] are the
    elements the iterator has still to yield. *)
Fixpoint renderLoop (token : nat) (arr : ArrayRef) (caller : RenderCaller)
    (rest : list PDFPageProxy) (idx : nat) (st : Controller)
    : Controller * list Frame :=
  match rest with
  | [] => afterRenderAllPages caller token st
  | page :: rest' =>
      if stale token st then afterRenderAllPages caller token st
      else
        let (canvas, call) :=
          renderPageToCanvas page createCanvas (currentScale st) token st in
        let wrapper := {| wr_id := nextId st; wr_canvas := canvas |} in
        let st' :=
          st |> set_nextId (S (nextId st))
             |> set_pagesHost (pagesHost st ++ [wrapper])
             |> set_pageWrappers (pageWrappers st ++ [wrapper])
             |> set_pageCanvases (pageCanvases st ++ [canvas]) in
        match call with
        | Some c =>
            (st' |> set_calls (c :: calls st'),
             [AwaitRender token arr idx caller])
        | None => renderLoop token arr caller rest' (S idx) st'
        end
  end.

Definition renderAllPages (token : nat) (caller : RenderCaller)
    (st : Controller) : Controller * list Frame :=
  let st' :=
    st |> set_pagesHost [] |> set_pageCanvases [] |> set_pageWrappers [] in
  renderLoop token (pages st') caller (thisPages st') 0 st'.

(** The page-fetching loop of [loadFromDataUri] from index [i], and what
    follows it up to the first [await]. *)
Definition loadPageLoop (token : nat) (d : PDFDocumentProxy) (i pageCount : nat)
    (st : Controller) : Controller * list Frame :=
  if i <=? pageCount then
    if stale token st then (finallySetLoading token st, [])
    else (st |> set_calls (CallGetPage d i :: calls st),
          [AwaitPage token d i pageCount])
  else
    st |> set_currentScale (Fin 1) |> renderAllPages token FirstPass.

Definition loadFromDataUri (dataUri : list ascii) (st : Controller)
    : Controller * list Frame :=
  let st := st |> set_renderToken (S (renderToken st)) in
  let token := renderToken st in
  let st := clearError st in
  let raw := trim dataUri in
  if match raw with [] => true | _ => false end || (length raw <? 20) then
    (clearDocument st, [])
  else
    let st := setLoading true st in
    match dataUriToBytes raw with
    | Throw msg => (loadCatch token msg st, [])
    | Normal bytes =>
        let sig := signature bytes in
        if negb (String.eqb sig "%PDF") then
          (st |> clearDocument
              |> setError ("Not a PDF. Signature: " ++ sig)
              |> finallySetLoading token, [])
        else if stale token st then (finallySetLoading token st, [])
        else (st, [AwaitPdfJs token bytes])
    end.

Definition applyScale (scale : number) (st : Controller)
    : Controller * list Frame :=
  match doc st, thisPages st with
  | None, _ | _, [] => (st, [])
  | Some _, _ :: _ =>
      let st := st |> set_renderToken (S (renderToken st)) in
      let token := renderToken st in
      let g := geometry st in
      let ratioTop :=
        if gtb (Fin (scrollHeight g)) (Fin (clientHeight g))
        then div (Fin (scrollTop st))
                 (sub (Fin (scrollHeight g)) (Fin (clientHeight g)))
        else Fin 0 in
      let ratioLeft :=
        if gtb (Fin (scrollWidth g)) (Fin (clientWidth g))
        then div (Fin (scrollLeft st))
                 (sub (Fin (scrollWidth g)) (Fin (clientWidth g)))
        else Fin 0 in
      st |> setLoading true
         |> renderAllPages token (ScalePass ratioTop ratioLeft)
  end.

(** [setScale(scale, opts)]; [opts] is [opts?.rerender]. *)
Definition setScale (scale : number) (opts : option bool) (st : Controller)
    : Controller * list Frame :=
  let st :=
    st |> set_currentScale (clampNumber scale (minZoom st) (maxZoom st))
       |> updateZoomUi in
  let rerender := match opts with Some b => b | None => true end in
  if rerender then applyScale (currentScale st) st else (st, []).

Definition onResize (st : Controller) : Controller * list Frame :=
  match thisPages st with
  | [] => (st, [])
  | _ :: _ =>
      let beforeFit := fitWidthScale st in
      let st := computeFitWidthScale st in
      let epsilon := Fin (2 # 100) in
      if leb (Math_abs (sub (currentScale st) beforeFit)) epsilon
      then setScale (fitWidthScale st) None st
      else (st, [])
  end.

Definition onResetFit (st : Controller) : Controller * list Frame :=
  let st := computeFitWidthScale st in
  let (st, spawned) := setScale (fitWidthScale st) None st in
  (st |> set_scrollTop 0%Q, spawned).

(** [onWheel] for an event with the zoom modifier over the viewport. *)
Definition onWheel (deltaY : number) (st : Controller) : Controller * list Frame :=
  let direction := if gtb deltaY (Fin 0) then Fin (-1 # 1) else Fin 1 in
  setScale (add (currentScale st) (mul direction (zoomStep st))) None st.

(** The parameters of [updateView] the controller's core reads; [None] is
    a [null] raw value. *)
Record Inputs : Type := {
  pdfDataUri : option (list ascii);
  in_minZoom : option number;
  in_maxZoom : option number;
  in_zoomStep : option number
}.

Definition orElse {A : Type} (o : option A) (d : A) : A :=
  match o with Some a => a | None => d end.

Definition string_eqb (a b : list ascii) : bool :=
  if list_eq_dec ascii_dec a b then true else false.

Definition updateView (context : Inputs) (st : Controller)
    : Controller * list Frame :=
  let dataUri := trim (orElse (pdfDataUri context) []) in
  let st :=
    st |> set_minZoom
            (clampNumber (orElse (in_minZoom context) (Fin (5 # 10)))
               (Fin (1 # 10)) (Fin (5 # 1))) in
  let st :=
    st |> set_maxZoom
            (clampNumber (orElse (in_maxZoom context) (Fin (3 # 1)))
               (minZoom st) (Fin (10 # 1))) in
  let st :=
    st |> set_zoomStep
            (clampNumber (orElse (in_zoomStep context) (Fin (1 # 10)))
               (Fin (1 # 100)) (Fin 1)) in
  let changed := negb (string_eqb dataUri (orElse (lastDataUri st) [])) in
  if changed then
    st |> set_lastDataUri (Some dataUri) |> loadFromDataUri dataUri
  else onResize st.

Definition destroy (st : Controller) : Controller :=
  st |> set_renderToken (S (renderToken st))
     |> set_doc None
     |> resetPages
     |> set_pageCanvases []
     |> set_pageWrappers [].

(** Resuming a suspended call when what it awaits settles; [None] when the
    settlement is not one its [await] can receive. *)
Definition resume (f : Frame) (r : Settled) (st : Controller)
    : option (Controller * list Frame) :=
  match f, r with
  | AwaitInitFrame, Fulfilled VUnit =>
      Some (st |> updateZoomUi |> updateNavUi, [])
  | AwaitPdfJs token bytes, Fulfilled VUnit =>
      Some (st |> set_calls (CallGetDocument bytes :: calls st),
            [AwaitDocument token])
  | AwaitPdfJs token _, Rejected msg => Some (loadCatch token msg st, [])
  | AwaitDocument token, Fulfilled (VDocument d) =>
      Some
        (if stale token st then (finallySetLoading token st, [])
         else
           st |> set_doc (Some d)
              |> resetPages
              |> set_pageCanvases []
              |> set_pageWrappers []
              |> set_pagesHost []
              |> loadPageLoop token d 1 (numPages d))
  | AwaitDocument token, Rejected msg => Some (loadCatch token msg st, [])
  | AwaitPage token d i pageCount, Fulfilled (VPage page) =>
      Some (st |> pushPage page |> loadPageLoop token d (S i) pageCount)
  | AwaitPage token _ _ _, Rejected msg => Some (loadCatch token msg st, [])
  | AwaitRender token arr idx caller, Fulfilled VUnit =>
      Some
        (renderLoop token arr caller (skipn (S idx) (array_get st arr))
           (S idx) st)
  | AwaitRender token _ _ caller, Rejected msg =>
      Some (throwFromRenderAllPages caller token msg st)
  | AwaitFrames token, Fulfilled VUnit =>
      Some
        (let st := computeFitWidthScale st in
         st |> set_currentScale (fitWidthScale st)
            |> set_scrollTop 0%Q
            |> set_scrollLeft 0%Q
            |> renderAllPages token SecondPass)
  | AwaitRestoreFrame ratioTop ratioLeft, Fulfilled VUnit =>
      Some (restoreScroll ratioTop ratioLeft st, [])
  | _, _ => None
  end.

(** ** The event loop *)

Record System : Type := {
  ctrl : Controller;
  pending : list Frame;      (* suspended calls and registered frame callbacks *)
  wired : bool               (* the listeners and the observer are attached *)
}.

Inductive Event : Type :=
| EvUpdateView (context : Inputs)
| EvResize
| EvLayout (g : Geometry)
| EvScroll (newTop newLeft : Q)
| EvWheel (deltaY : number)
| EvResetFit
| EvPrevClick
| EvNextClick
| EvSettle (i : nat) (r : Settled)
| EvDestroy.

Fixpoint remove_nth {A : Type} (i : nat) (l : list A) : list A :=
  match l, i with
  | [], _ => []
  | _ :: t, O => t
  | a :: t, S i' => a :: remove_nth i' t
  end.

Definition spawn (sys : System) (r : Controller * list Frame) : System :=
  {| ctrl := fst r; pending := pending sys ++ snd r; wired := wired sys |}.

Definition step (ev : Event) (sys : System) : System :=
  let st := ctrl sys in
  match ev with
  | EvSettle i r =>
      match nth_error (pending sys) i with
      | None => sys
      | Some f =>
          match resume f r st with
          | None => sys
          | Some (st', spawned) =>
              {| ctrl := st';
                 pending := remove_nth i (pending sys) ++ spawned;
                 wired := wired sys |}
          end
      end
  | EvLayout g => spawn sys (st |> set_geometry g, [])
  | _ =>
      if wired sys then
        match ev with
        | EvUpdateView context => spawn sys (updateView context st)
        | EvResize => spawn sys (onResize st)
        | EvScroll newTop newLeft =>
            spawn sys
              (st |> set_scrollTop newTop |> set_scrollLeft newLeft
                  |> onViewportScroll, [])
        | EvWheel deltaY => spawn sys (onWheel deltaY st)
        | EvResetFit => spawn sys (onResetFit st)
        | EvPrevClick => spawn sys (onPrevClick st, [])
        | EvNextClick => spawn sys (onNextClick st, [])
        | EvDestroy =>
            {| ctrl := destroy st; pending := pending sys; wired := false |}
        | _ => sys
        end
      else sys
  end.

(** [init]: the field initialisers, the labels of the DOM built by [init]
    and its one animation-frame callback. *)
Definition init (g : Geometry) : System :=
  {| ctrl :=
       {| renderToken := 0;
          doc := None;
          pages := 0;
          heap := [[]];
          pageCanvases := [];
          pageWrappers := [];
          lastDataUri := None;
          minZoom := Fin (5 # 10);
          maxZoom := Fin (3 # 1);
          zoomStep := Fin (1 # 10);
          currentScale := Fin 1;
          fitWidthScale := Fin 1;
          scrollTop := 0%Q;
          scrollLeft := 0%Q;
          geometry := g;
          pagesHost := [];
          pageLabel := "0 / 0";
          zoomLabel := "100%";
          btnPrevDisabled := false;
          btnNextDisabled := false;
          errorText := "";
          errorShown := false;
          overlayShown := false;
          nextId := 0;
          calls := [] |};
     pending := [AwaitInitFrame];
     wired := true |}.

Definition run (events : list Event) (sys : System) : System :=
  fold_left (fun s ev => step ev s) events sys.

(** The states the controller can be in: those some sequence of events
    leads to from [init]. *)
Definition reachable (sys : System) : Prop :=
  exists g events, sys = run events (init g).

(** ** The formulas of the specification *)

Module Spec.

Local Open Scope Q_scope.

(** [usable = max(200, viewportWidth - margin)] with the margin 24, and
    [raw = usable / max(1, firstPageIntrinsicWidth)]. *)
Definition rawFitScale (W P : Q) : Q := Qmax 200 (W - 24) / Qmax 1 P.

(** The standard clamp, [min(maxZoom, max(minZoom, v))]. *)
Definition clamp (v lo hi : Q) : Q := Qmin hi (Qmax lo v).

(** The line the current page is measured against,
    [scrollTop + 0.35 * viewportHeight]. *)
Definition focusLine (st : Controller) : Q :=
  scrollTop st + (35 # 100) * clientHeight (geometry st).

(** The top offset of the page at an index of the page list. *)
Definition pageTopOffset (st : Controller) (k : nat) : Q :=
  match nth_error (pageWrappers st) k with
  | Some el => offsetTop (geometry st) (wr_id el)
  | None => 0
  end.

(** [|pageTopOffset(k) - (scrollTop + 0.35 * viewportHeight)|] *)
Definition pageDistance (st : Controller) (k : nat) : Q :=
  Qabs (pageTopOffset st k - focusLine st).

(** The cleared document view: no document, no pages, an empty page
    container and the reset page label. *)
Definition documentCleared (st : Controller) : Prop :=
  doc st = None
  /\ thisPages st = []
  /\ pageCanvases st = []
  /\ pageWrappers st = []
  /\ pagesHost st = []
  /\ pageLabel st = "0 / 0"%string.

(** The silent empty-document state: cleared, and no error banner. *)
Definition silentEmpty (st : Controller) : Prop :=
  documentCleared st /\ errorShown st = false /\ errorText st = ""%string.

(** The error state: cleared, and the banner visible with a message. *)
Definition bannerShown (msg : string) (st : Controller) : Prop :=
  documentCleared st /\ errorShown st = true /\ errorText st = msg.

(** The scroll position as a fraction of the scrollable extent,
    [offset / (extent - client)], and 0 when the content does not
    overflow. *)
Definition scrollRatio (offset extent client : Q) : Q :=
  if Qltb client extent then offset / (extent - client) else 0.

(** The largest scroll offset, [max(0, extent - client)]. *)
Definition maxScroll (extent client : Q) : Q := Qmax 0 (extent - client).

(** The white space a payload may be interspersed with, character by
    character: TAB, LF, VT, FF, CR, SPACE and the no-break space. *)
Definition whiteSpaceChars : list ascii :=
  ["009"; "010"; "011"; "012"; "013"; " "; "160"]%char.

(** [interspersed text payload]: [payload] is [text] with white space
    characters inserted at any places, the ends included. *)
Inductive interspersed : list ascii -> list ascii -> Prop :=
| interspersed_nil : interspersed [] []
| interspersed_keep (c : ascii) (text payload : list ascii) :
    interspersed text payload -> interspersed (c :: text) (c :: payload)
| interspersed_space (w : ascii) (text payload : list ascii) :
    In w whiteSpaceChars ->
    interspersed text payload -> interspersed text (w :: payload).

End Spec.

(** ** Concrete sessions *)

Module Scenario.

Local Open Scope Q_scope.

(** A 1000 x 600 viewport whose content does not overflow; wrappers are laid
    out 1000 pixels apart, alternating with the parity of their identity. *)
Definition geometry0 : Geometry :=
  {| clientWidth := 1000;
     clientHeight := 600;
     scrollWidth := 1000;
     scrollHeight := 600;
     offsetTop := fun id => 12 + 1000 * inject_Z (Z.of_nat (id mod 2));
     devicePixelRatio := 1 |}.

Definition withSize (width scrollH : Q) : Geometry :=
  {| clientWidth := width;
     clientHeight := 600;
     scrollWidth := width;
     scrollHeight := scrollH;
     offsetTop := offsetTop geometry0;
     devicePixelRatio := 1 |}.

(** The identifiers of three documents starting with "%PDF-1.4",
    "%PDF-1.7" and "%PDF-2.0". *)
Definition uriA : list ascii :=
  list_ascii_of_string "data:application/pdf;base64,JVBERi0xLjQ=".
Definition uriB : list ascii :=
  list_ascii_of_string "data:application/pdf;base64,JVBERi0xLjc=".
Definition uriC : list ascii :=
  list_ascii_of_string "data:application/pdf;base64,JVBERi0yLjA=".

(** Identifiers that are not documents: too short, the text "Hello world",
    the three bytes "%PD", and a payload outside the base64 alphabet. *)
Definition uriShort : list ascii := list_ascii_of_string "JVBERi0=".
Definition uriText : list ascii :=
  list_ascii_of_string "data:application/pdf;base64,SGVsbG8gd29ybGQ=".
Definition uriTruncated : list ascii :=
  list_ascii_of_string "data:application/pdf;base64,JVBE".
Definition uriMalformed : list ascii :=
  list_ascii_of_string "data:application/pdf;base64,@@@@".

Definition docA : PDFDocumentProxy := {| doc_id := 1; numPages := 2 |}.
Definition docB : PDFDocumentProxy := {| doc_id := 2; numPages := 1 |}.
Definition docC : PDFDocumentProxy := {| doc_id := 3; numPages := 1 |}.

Definition pageA1 : PDFPageProxy :=
  {| pg_doc := 1; pg_index := 1; pg_width := 800; pg_height := 1000 |}.
Definition pageB1 : PDFPageProxy :=
  {| pg_doc := 2; pg_index := 1; pg_width := 600; pg_height := 800 |}.
Definition pageC1 : PDFPageProxy :=
  {| pg_doc := 3; pg_index := 1; pg_width := 976; pg_height := 1200 |}.

Definition inputs (uri : list ascii) : Inputs :=
  {| pdfDataUri := Some uri; in_minZoom := None; in_maxZoom := None;
     in_zoomStep := None |}.

Definition done : Settled := Fulfilled VUnit.

(** The start of every session: [init], then its animation frame. *)
Definition started : System := step (EvSettle 0 done) (init geometry0).

(** Document A is being loaded, its first page requested, when the host
    supplies document B.  B's document arrives and B requests its page;
    then A's page arrives, then B's, and B renders to completion. *)
Definition loadA_until_page : list Event :=
  [EvUpdateView (inputs uriA);
   EvSettle 0 done;
   EvSettle 0 (Fulfilled (VDocument docA))].

Definition loadB_until_page : list Event :=
  [EvUpdateView (inputs uriB);
   EvSettle 1 done;
   EvSettle 1 (Fulfilled (VDocument docB))].

Definition pageA_arrives : Event := EvSettle 0 (Fulfilled (VPage pageA1)).

Definition loadB_completes : list Event :=
  [EvSettle 0 (Fulfilled (VPage pageB1));
   EvSettle 0 done; EvSettle 0 done;
   EvSettle 0 done;
   EvSettle 0 done; EvSettle 0 done].

Definition beforePageA : System :=
  run (loadA_until_page ++ loadB_until_page) started.

Definition twoLoads : System :=
  run (pageA_arrives :: loadB_completes) beforePageA.

(** Document C alone, loaded to completion with a zoom step of 1: its page
    is 976 wide, so the fit scale in the 1000 wide viewport is 1. *)
Definition loadC : list Event :=
  [EvUpdateView
     {| pdfDataUri := Some uriC; in_minZoom := None; in_maxZoom := None;
        in_zoomStep := Some (Fin 1) |};
   EvSettle 0 done;
   EvSettle 0 (Fulfilled (VDocument docC));
   EvSettle 0 (Fulfilled (VPage pageC1));
   EvSettle 0 done;
   EvSettle 0 done;
   EvSettle 0 done].

Definition loadedC : System := run loadC started.

(** The viewport narrows to 804.8, where the fit scale is 0.8: once with
    the scale still at fit, once after a zoom-in gesture to 2. *)
Definition narrow : Geometry := withSize (8048 # 10) 600.

Definition atFit : Controller := ctrl (step (EvLayout narrow) loadedC).

Definition zoomedIn : Controller :=
  ctrl (run [EvWheel (Fin (-1 # 1)); EvSettle 0 done; EvSettle 0 done;
             EvLayout narrow] loadedC).







(** The documents whose pages the page container shows. *)
Definition shownDocuments (st : Controller) : list (option nat) :=
  map (fun w => option_map (fun r => pg_doc (fst r)) (cv_render (wr_canvas w)))
    (pagesHost st).

(** Document A alone, with its two pages, loaded to completion; then the
    host supplies an identifier shorter than the threshold. *)
Definition pageA2 : PDFPageProxy :=
  {| pg_doc := 1; pg_index := 2; pg_width := 800; pg_height := 1000 |}.

Definition loadA : list Event :=
  [EvUpdateView (inputs uriA);
   EvSettle 0 done;
   EvSettle 0 (Fulfilled (VDocument docA));
   EvSettle 0 (Fulfilled (VPage pageA1));
   EvSettle 0 (Fulfilled (VPage pageA2));
   EvSettle 0 done; EvSettle 0 done;
   EvSettle 0 done;
   EvSettle 0 done; EvSettle 0 done].

Definition loadedA : System := run loadA started.

Definition clearedA : System := step (EvUpdateView (inputs uriShort)) loadedA.





End Scenario.

(** * Properties *)

Unset Implicit Arguments.

(** ** Arithmetic of finite numbers *)

Section FiniteArithmetic.

Local Open Scope Q_scope.

Lemma Qltb_lt (x y : Q) : Qltb x y = true <-> x < y.
Proof.
  unfold Qltb. rewrite Qlt_alt. destruct (x ?= y); split; congruence.
Qed.

Lemma Qltb_ge (x y : Q) : Qltb x y = false <-> y <= x.
Proof.
  unfold Qltb. rewrite Qle_alt, <- Qgt_alt, Qlt_alt.
  destruct (x ?= y); split; congruence.
Qed.

Lemma Qsign_pos (x : Q) : 0 < x -> Qsign x = Gt.
Proof. intros H. unfold Qsign. now apply Qgt_alt. Qed.

Lemma div_fin_pos (a b : Q) : 0 < b -> div (Fin a) (Fin b) = Fin (a / b).
Proof. intros H. unfold div. now rewrite (Qsign_pos _ H). Qed.

Lemma clampNumber_fin (v lo hi : Q) :
  clampNumber (Fin v) (Fin lo) (Fin hi) = Fin (Qmax lo (Qmin hi v)).
Proof. reflexivity. Qed.

Lemma clampNumber_not_finite (v lo hi : number) :
  isFinite v = false -> clampNumber v lo hi = lo.
Proof. intros H. unfold clampNumber. now rewrite H. Qed.

Lemma clamp_order (v lo hi : Q) :
  lo <= hi -> Qmax lo (Qmin hi v) == Qmin hi (Qmax lo v).
Proof.
  intros H. rewrite Q.max_min_distr.
  apply Q.min_compat; [now apply Q.max_r | reflexivity].
Qed.

(** A clamped value lies between finite bounds in the right order,
    whatever is clamped. *)
Lemma clampNumber_within (v : number) (lo hi : Q) :
  lo <= hi -> within (Fin lo) (Fin hi) (clampNumber v (Fin lo) (Fin hi)).
Proof.
  intros H. destruct v as [q | | |]; simpl; try lra.
  split.
  - apply Q.le_max_l.
  - apply Q.max_lub; [exact H | apply Q.le_min_l].
Qed.

(** Clamping leaves a value inside the bounds as it is. *)
Lemma clampNumber_id (v lo hi : Q) :
  lo <= v <= hi -> num_eq (clampNumber (Fin v) (Fin lo) (Fin hi)) (Fin v).
Proof.
  intros [H1 H2]. simpl. rewrite Q.min_r by exact H2. now apply Q.max_r.
Qed.

End FiniteArithmetic.

(** ** The fit scale *)

(** C2. With at least one page loaded, [computeFitWidthScale] stores
    clamp(max(200, W - 24) / max(1, P), minZoom, maxZoom) for the viewport's
    client width W and the first page's intrinsic width P; with no page it
    stores 1.  For W = 1000 and P = 800 the unclamped value is 1.22. *)
Theorem computeFitWidthScale_spec (st : Controller) (lo hi : Q) :
  minZoom st = Fin lo -> maxZoom st = Fin hi -> (lo <= hi)%Q ->
  match thisPages st with
  | [] => fitWidthScale (computeFitWidthScale st) = Fin 1
  | first :: _ =>
      num_eq (fitWidthScale (computeFitWidthScale st))
        (Fin (Spec.clamp
                (Spec.rawFitScale (clientWidth (geometry st)) (pg_width first))
                lo hi))
  end
  /\ (Spec.rawFitScale 1000 800 == 1.22)%Q.
Proof.
  intros Hlo Hhi Hle. split; [| reflexivity].
  unfold computeFitWidthScale.
  destruct (thisPages st) as [| first rest]; [reflexivity |].
  cbn [fitWidthScale set_fitWidthScale]. rewrite Hlo, Hhi.
  unfold getViewport. cbn [fst mul sub add neg Math_max].
  rewrite div_fin_pos.
  - rewrite clampNumber_fin. cbn [num_eq].
    unfold Spec.clamp, Spec.rawFitScale.
    rewrite (clamp_order _ _ _ Hle).
    apply Q.min_compat; [reflexivity |].
    apply Q.max_compat; [reflexivity |].
    apply Qdiv_comp.
    + apply Q.max_compat; [reflexivity |]. unfold Qminus. reflexivity.
    + apply Q.max_compat; [reflexivity |]. apply Qmult_1_r.
  - apply Qlt_le_trans with (y := 1%Q); [reflexivity | apply Q.le_max_l].
Qed.

(** ** The current page *)

Section CurrentPage.

Local Open Scope Q_scope.

Variable offset : nat -> Q.
Variable mid : Q.

(** The distance [getCurrentPageIndex] computes for a wrapper. *)
Definition wrapperDistance (el : Wrapper) : Q :=
  Qabs (offset (wr_id el) + - mid).

Definition distanceAt (els : list Wrapper) (j : nat) : Q :=
  match nth_error els j with
  | Some el => wrapperDistance el
  | None => 0
  end.

(** The loop invariant: before any element, [bestDist] is +Infinity;
    afterwards [best] is the first index of least distance among the
    elements seen and [bestDist] is its distance. *)
Definition nearestSoFar (seen : list Wrapper) (best : nat) (bestDist : number)
    : Prop :=
  (seen = [] /\ bestDist = PosInf)
  \/ ((best < length seen)%nat
      /\ bestDist = Fin (distanceAt seen best)
      /\ (forall j, (j < length seen)%nat ->
                    distanceAt seen best <= distanceAt seen j)
      /\ (forall j, (j < best)%nat ->
                    distanceAt seen best < distanceAt seen j)).

Lemma distanceAt_app_l (seen : list Wrapper) (el : Wrapper) (j : nat) :
  (j < length seen)%nat -> distanceAt (seen ++ [el]) j = distanceAt seen j.
Proof.
  intros H. unfold distanceAt. now rewrite nth_error_app1.
Qed.

Lemma distanceAt_app_last (seen : list Wrapper) (el : Wrapper) :
  distanceAt (seen ++ [el]) (length seen) = wrapperDistance el.
Proof.
  unfold distanceAt. rewrite nth_error_app2 by apply Nat.le_refl.
  now rewrite Nat.sub_diag.
Qed.

Lemma nearestSoFar_step (seen : list Wrapper) (el : Wrapper) (best : nat)
    (bestDist : number) :
  nearestSoFar seen best bestDist ->
  if ltb (Fin (wrapperDistance el)) bestDist
  then nearestSoFar (seen ++ [el]) (length seen) (Fin (wrapperDistance el))
  else nearestSoFar (seen ++ [el]) best bestDist.
Proof.
  intros [[-> ->] | (Hlt & -> & Hmin & Hfirst)].
  - cbn. right. cbn. repeat split.
    + lia.
    + intros j Hj. assert (j = 0%nat) as -> by lia. cbn. apply Qle_refl.
    + intros j Hj. lia.
  - cbn [ltb]. destruct (Qltb _ _) eqn:E.
    + apply Qltb_lt in E. right. rewrite length_app. cbn [length].
      rewrite distanceAt_app_last. repeat split.
      * lia.
      * intros j Hj. destruct (Nat.eq_dec j (length seen)) as [-> | Hne].
        -- rewrite distanceAt_app_last. apply Qle_refl.
        -- rewrite distanceAt_app_l by lia.
           apply Qlt_le_weak, Qlt_le_trans with (1 := E), Hmin. lia.
      * intros j Hj. rewrite distanceAt_app_l by lia.
        apply Qlt_le_trans with (1 := E), Hmin. lia.
    + apply Qltb_ge in E. right. rewrite length_app. cbn [length].
      rewrite distanceAt_app_l by lia. repeat split.
      * lia.
      * intros j Hj. destruct (Nat.eq_dec j (length seen)) as [-> | Hne].
        -- now rewrite distanceAt_app_last.
        -- rewrite distanceAt_app_l by lia. apply Hmin. lia.
      * intros j Hj. rewrite distanceAt_app_l by lia. now apply Hfirst.
Qed.

Lemma nearestPage_invariant (els seen : list Wrapper) (best : nat)
    (bestDist : number) :
  nearestSoFar seen best bestDist ->
  exists bestDist',
    nearestSoFar (seen ++ els)
      (nearestPage offset (Fin mid) els (length seen) best bestDist)
      bestDist'.
Proof.
  revert seen best bestDist.
  induction els as [| el rest IH]; intros seen best bestDist Hinv.
  - rewrite app_nil_r. now exists bestDist.
  - cbn [nearestPage sub add neg].
    fold (wrapperDistance el).
    pose proof (nearestSoFar_step _ el _ _ Hinv) as Hstep.
    change (Math_abs (Fin (offset (wr_id el) + - mid)))
      with (Fin (wrapperDistance el)).
    replace (seen ++ el :: rest) with ((seen ++ [el]) ++ rest)
      by (now rewrite <- app_assoc).
    replace (S (length seen)) with (length (seen ++ [el]))
      by (rewrite length_app; cbn; lia).
    destruct (ltb (Fin (wrapperDistance el)) bestDist).
    + now apply IH.
    + now apply IH.
Qed.

End CurrentPage.

Lemma pageDistance_distanceAt (st : Controller) (k : nat) :
  k < length (pageWrappers st) ->
  (Spec.pageDistance st k ==
   distanceAt (offsetTop (geometry st))
     (scrollTop st + clientHeight (geometry st) * (35 # 100))
     (pageWrappers st) k)%Q.
Proof.
  intros Hk. unfold Spec.pageDistance, Spec.pageTopOffset, distanceAt.
  destruct (nth_error (pageWrappers st) k) as [el |] eqn:E.
  - unfold wrapperDistance, Spec.focusLine. apply Qabs_wd. ring.
  - apply nth_error_None in E. lia.
Qed.

(** X25. With a non-empty page list, [getCurrentPageIndex] is an index of
    the list whose top offset is at least distance from
    [scrollTop + 0.35 * viewportHeight], and every earlier index is strictly
    farther (the first of the nearest wins); [updateNavUi] disables the
    previous button exactly at the first page and the next button exactly at
    the last.  With an empty page list [updateNavUi] disables both buttons
    and sets the label to "0 / 0".  The buttons and the label are those of
    the state [updateNavUi] returns. *)
Theorem current_page_nearest_to_focus (st : Controller) :
  let n := length (pageWrappers st) in
  let i := getCurrentPageIndex st in
  let st' := updateNavUi st in
  (n <> 0 ->
     i < n
     /\ (forall j, j < n -> (Spec.pageDistance st i <= Spec.pageDistance st j)%Q)
     /\ (forall j, j < i -> (Spec.pageDistance st i < Spec.pageDistance st j)%Q)
     /\ btnPrevDisabled st' = (i =? 0)
     /\ btnNextDisabled st' = (i =? n - 1))
  /\ (n = 0 ->
        pageLabel st' = "0 / 0"%string
        /\ btnPrevDisabled st' = true
        /\ btnNextDisabled st' = true).
Proof.
  cbv zeta. split.
  - intros Hn.
    assert (Hsel :
      getCurrentPageIndex st =
      nearestPage (offsetTop (geometry st))
        (Fin (scrollTop st + clientHeight (geometry st) * (35 # 100)))
        (pageWrappers st) (length (@nil Wrapper)) 0 PosInf).
    { unfold getCurrentPageIndex.
      destruct (pageWrappers st); [now cbn in Hn | reflexivity]. }
    destruct (nearestPage_invariant (offsetTop (geometry st))
                (scrollTop st + clientHeight (geometry st) * (35 # 100))
                (pageWrappers st) [] 0 PosInf) as [bd Hinv].
    { left. now split. }
    rewrite <- Hsel in Hinv. cbn [app] in Hinv.
    destruct Hinv as [[Hnil _] | (Hlt & _ & Hmin & Hfirst)].
    { rewrite Hnil in Hn. now cbn in Hn. }
    split; [exact Hlt |]. split; [| split; [| split]].
    + intros j Hj. rewrite !pageDistance_distanceAt by assumption.
      now apply Hmin.
    + intros j Hj. rewrite !pageDistance_distanceAt by lia.
      now apply Hfirst.
    + unfold updateNavUi. apply Nat.eqb_neq in Hn. rewrite Hn. cbn.
      now destruct (getCurrentPageIndex st).
    + unfold updateNavUi. apply Nat.eqb_neq in Hn. rewrite Hn. cbn.
      destruct (Nat.leb_spec (length (pageWrappers st) - 1)
                  (getCurrentPageIndex st));
        destruct (Nat.eqb_spec (getCurrentPageIndex st)
                    (length (pageWrappers st) - 1)); try reflexivity; lia.
  - intros Hn. unfold updateNavUi. rewrite Hn. cbn. auto.
Qed.

(** ** The byte-source decoder *)

Section Base64Roundtrip.

Import Base64.

Lemma list_ind3 (A : Type) (P : list A -> Prop) :
  P [] ->
  (forall x, P [x]) ->
  (forall x y, P [x; y]) ->
  (forall x y z l, P l -> P (x :: y :: z :: l)) ->
  forall l, P l.
Proof.
  intros H0 H1 H2 H3. fix IH 1.
  intros [| x [| y [| z l]]];
    [exact H0 | apply H1 | apply H2 | apply H3, IH].
Qed.

Lemma sextet_of_char_of_sextet (s : nat) :
  s < 64 -> sextet_of_char (char_of_sextet s) = Some s.
Proof.
  intros H. do 64 (destruct s as [| s]; [reflexivity |]). lia.
Qed.

(** A character of the alphabet is neither whitespace, nor the padding
    character, nor the separator of a data URI. *)
Lemma alphabet_char (c : ascii) (s : nat) :
  sextet_of_char c = Some s ->
  isWhiteSpace c = false /\ isAsciiWhitespace c = false
  /\ c <> "="%char /\ c <> ","%char.
Proof.
  destruct c as [b0 b1 b2 b3 b4 b5 b6 b7].
  destruct b0, b1, b2, b3, b4, b5, b6, b7; vm_compute; intros H;
    try discriminate H; repeat split; discriminate.
Qed.

Definition harmless (c : ascii) : Prop :=
  isWhiteSpace c = false /\ isAsciiWhitespace c = false /\ c <> ","%char.

Lemma sextets_of_bytes_bound (b : list Byte.byte) :
  Forall (fun s => s < 64) (sextets_of_bytes b).
Proof.
  induction b as [| x | x y | x y z l IH] using list_ind3;
    cbn [sextets_of_bytes]; repeat apply Forall_cons;
    try apply Forall_nil; try assumption;
    try (pose proof (Byte.to_nat_bounded x));
    try (pose proof (Byte.to_nat_bounded y));
    try (pose proof (Byte.to_nat_bounded z));
    zify; Z.to_euclidean_division_equations; lia.
Qed.

Lemma bytes_of_sextets_of_bytes (b : list Byte.byte) :
  bytes_of_sextets (sextets_of_bytes b) = map ascii_of_byte b.
Proof.
  induction b as [| x | x y | x y z l IH] using list_ind3;
    cbn [sextets_of_bytes bytes_of_sextets map];
    rewrite ?ascii_of_byte_via_nat, ?IH;
    try (pose proof (Byte.to_nat_bounded x));
    try (pose proof (Byte.to_nat_bounded y));
    try (pose proof (Byte.to_nat_bounded z));
    repeat f_equal;
    zify; Z.to_euclidean_division_equations; lia.
Qed.

Lemma sextets_of_chars_of_sextets (ss : list nat) :
  Forall (fun s => s < 64) ss ->
  sextets_of_chars (map char_of_sextet ss) = Some ss.
Proof.
  induction 1 as [| s ss Hs _ IH]; [reflexivity |].
  cbn [map sextets_of_chars].
  now rewrite (sextet_of_char_of_sextet _ Hs), IH.
Qed.

Lemma body_alphabet (ss : list nat) (c : ascii) :
  Forall (fun s => s < 64) ss ->
  In c (map char_of_sextet ss) ->
  exists s, sextet_of_char c = Some s.
Proof.
  intros Hall Hin. apply in_map_iff in Hin as (s & <- & Hs).
  rewrite Forall_forall in Hall.
  exists s. apply sextet_of_char_of_sextet. now apply Hall.
Qed.

Lemma padding_cases (n : nat) :
  padding n = [] \/ padding n = ["="%char]
  \/ padding n = ["="%char; "="%char].
Proof.
  unfold padding. destruct (n mod 3) as [| [| [| k]]]; auto.
Qed.

Lemma encode_harmless (b : list Byte.byte) :
  Forall harmless (encode b).
Proof.
  unfold encode. apply Forall_app. split.
  - rewrite Forall_forall. intros c Hc.
    destruct (body_alphabet _ c (sextets_of_bytes_bound b) Hc) as [s Hs].
    destruct (alphabet_char c s Hs) as (? & ? & ? & ?). now repeat split.
  - destruct (padding_cases (length b)) as [-> | [-> | ->]];
      repeat constructor; discriminate.
Qed.

Lemma length_sextets_of_bytes (b : list Byte.byte) :
  length (sextets_of_bytes b) mod 4 <> 1
  /\ (length (sextets_of_bytes b) + length (padding (length b))) mod 4 = 0.
Proof.
  induction b as [| x | x y | x y z l [IH1 IH2]] using list_ind3;
    try (split; [discriminate | reflexivity]).
  cbn [sextets_of_bytes length].
  replace (padding (S (S (S (length l))))) with (padding (length l)).
  - split; zify; Z.to_euclidean_division_equations; lia.
  - unfold padding.
    replace (S (S (S (length l))) mod 3) with (length l mod 3);
      [reflexivity |].
    zify; Z.to_euclidean_division_equations; lia.
Qed.

Lemma strip_padding_encode (b : list Byte.byte) :
  strip_padding (encode b) = map char_of_sextet (sextets_of_bytes b).
Proof.
  unfold strip_padding, encode.
  destruct (length_sextets_of_bytes b) as [_ Hlen].
  rewrite length_app, length_map, Hlen. cbn [Nat.eqb].
  rewrite rev_app_distr.
  assert (Hhead : forall c r,
            rev (map char_of_sextet (sextets_of_bytes b)) = c :: r ->
            Ascii.eqb c "=" = false).
  { intros c r E.
    assert (Hin : In c (map char_of_sextet (sextets_of_bytes b))).
    { apply in_rev. rewrite E. now left. }
    destruct (body_alphabet _ c (sextets_of_bytes_bound b) Hin) as [s Hs].
    destruct (alphabet_char c s Hs) as (_ & _ & Hne & _).
    now apply Ascii.eqb_neq. }
  destruct (padding_cases (length b)) as [-> | [-> | ->]]; cbn [rev app].
  - rewrite app_nil_r.
    destruct (rev (map char_of_sextet (sextets_of_bytes b))) as [| c r] eqn:E;
      [reflexivity |].
    now rewrite (Hhead c r eq_refl).
  - cbn [Ascii.eqb Bool.eqb].
    destruct (rev (map char_of_sextet (sextets_of_bytes b))) as [| c r] eqn:E.
    + apply (f_equal (@rev ascii)) in E. rewrite rev_involutive in E.
      now rewrite E.
    + rewrite (Hhead c r eq_refl), <- E. apply rev_involutive.
  - cbn [Ascii.eqb Bool.eqb]. apply rev_involutive.
Qed.

Lemma filter_harmless (f : ascii -> bool) (s : list ascii) :
  Forall (fun c => f c = false) s ->
  filter (fun c => negb (f c)) s = s.
Proof.
  induction 1 as [| c s Hc _ IH]; [reflexivity |].
  cbn [filter]. now rewrite Hc, IH.
Qed.

Lemma atob_encode (b : list Byte.byte) :
  atob (encode b) = Some (map ascii_of_byte b).
Proof.
  unfold atob.
  rewrite filter_harmless.
  - rewrite strip_padding_encode, length_map.
    destruct (length_sextets_of_bytes b) as [Hlen _].
    destruct (Nat.eqb_spec (length (sextets_of_bytes b) mod 4) 1) as [E | _];
      [contradiction |].
    rewrite (sextets_of_chars_of_sextets _ (sextets_of_bytes_bound b)).
    cbn [option_map]. now rewrite bytes_of_sextets_of_bytes.
  - eapply Forall_impl; [| apply encode_harmless].
    now intros c (_ & H & _).
Qed.

End Base64Roundtrip.

Section DataUriToBytes.

Import Base64.

Lemma removeWhiteSpace_trimStart (s : list ascii) :
  removeWhiteSpace (trimStart s) = removeWhiteSpace s.
Proof.
  induction s as [| c t IH]; [reflexivity |].
  cbn [trimStart]. destruct (isWhiteSpace c) eqn:E; [| reflexivity].
  unfold removeWhiteSpace in *. cbn [filter]. now rewrite E.
Qed.

Lemma removeWhiteSpace_trimEnd (s : list ascii) :
  removeWhiteSpace (trimEnd s) = removeWhiteSpace s.
Proof.
  unfold removeWhiteSpace.
  induction s as [| c t IH]; [reflexivity |].
  cbn [trimEnd]. destruct (trimEnd t) as [| c' t'].
  - cbn [filter] in IH.
    destruct (isWhiteSpace c) eqn:E; cbn [filter]; rewrite E; cbn [negb];
      rewrite <- IH; reflexivity.
  - cbn [filter] in *. now rewrite IH.
Qed.

Lemma removeWhiteSpace_trim (s : list ascii) :
  removeWhiteSpace (trim s) = removeWhiteSpace s.
Proof.
  unfold trim. now rewrite removeWhiteSpace_trimEnd, removeWhiteSpace_trimStart.
Qed.

Lemma trimEnd_app_nonwhite (x : list ascii) (c : ascii) (p : list ascii) :
  isWhiteSpace c = false ->
  trimEnd (x ++ c :: p) = x ++ c :: trimEnd p.
Proof.
  intros Hc. induction x as [| a x IH].
  - cbn [app trimEnd]. rewrite Hc. now destruct (trimEnd p).
  - cbn [app trimEnd]. rewrite IH. now destruct x.
Qed.

Lemma indexOf_absent (c : ascii) (s : list ascii) :
  ~ In c s -> indexOf c s = None.
Proof.
  induction s as [| x t IH]; [reflexivity |].
  intros Hn. cbn [indexOf].
  destruct (Ascii.eqb_spec x c) as [-> | _].
  - exfalso. apply Hn. now left.
  - rewrite IH; [reflexivity |]. intros Hin. apply Hn. now right.
Qed.

Lemma indexOf_first (c : ascii) (x y : list ascii) :
  ~ In c x -> indexOf c (x ++ c :: y) = Some (length x).
Proof.
  induction x as [| a x IH]; intros Hn.
  - cbn. now rewrite Ascii.eqb_refl.
  - cbn [app indexOf length].
    destruct (Ascii.eqb_spec a c) as [-> | _].
    + exfalso. apply Hn. now left.
    + rewrite IH; [reflexivity |]. intros Hin. apply Hn. now right.
Qed.

Lemma substring_past (x : list ascii) (c : ascii) (y : list ascii) :
  substring (length x + 1) (x ++ c :: y) = y.
Proof.
  unfold substring. induction x as [| a x IH]; [reflexivity |]. exact IH.
Qed.

(** A payload that is the encoding of [b] with whitespace interspersed
    holds no separator. *)
Lemma payload_no_comma (b : list Byte.byte) (payload : list ascii) :
  removeWhiteSpace payload = encode b -> ~ In ","%char payload.
Proof.
  intros E Hin.
  assert (Hin' : In ","%char (encode b)).
  { rewrite <- E. apply filter_In. now split. }
  pose proof (encode_harmless b) as Hall. rewrite Forall_forall in Hall.
  destruct (Hall _ Hin') as (_ & _ & Hne). now apply Hne.
Qed.

Lemma In_trimStart (c : ascii) (s : list ascii) :
  In c (trimStart s) -> In c s.
Proof.
  induction s as [| a t IH]; [trivial |].
  cbn [trimStart]. destruct (isWhiteSpace a); [| trivial].
  intros H. right. now apply IH.
Qed.

Lemma In_trimEnd (c : ascii) (s : list ascii) :
  In c (trimEnd s) -> In c s.
Proof.
  induction s as [| a t IH]; [trivial |].
  cbn [trimEnd]. destruct (trimEnd t) as [| a' t'].
  - destruct (isWhiteSpace a); [intros [] |]. intros [-> | []]. now left.
  - intros [-> | H]; [now left | right; now apply IH].
Qed.

Lemma dataUriToBytes_bare (b : list Byte.byte) (payload : list ascii) :
  removeWhiteSpace payload = encode b ->
  dataUriToBytes payload = Normal b.
Proof.
  intros E. unfold dataUriToBytes.
  rewrite indexOf_absent.
  - rewrite removeWhiteSpace_trim, E, atob_encode, map_map.
    f_equal. rewrite <- (map_id b) at 2. apply map_ext.
    apply byte_of_ascii_of_byte.
  - intros Hin. apply (payload_no_comma b payload E).
    now apply In_trimStart, In_trimEnd.
Qed.

Lemma dataUriToBytes_prefixed (b : list Byte.byte) (mid payload : list ascii) :
  ~ In ","%char mid ->
  removeWhiteSpace payload = encode b ->
  dataUriToBytes (list_ascii_of_string "data:" ++ mid ++ ","%char :: payload)
  = Normal b.
Proof.
  intros Hmid E. unfold dataUriToBytes.
  set (x := list_ascii_of_string "data:" ++ mid).
  assert (Htrim : trim (list_ascii_of_string "data:" ++ mid ++ ","%char :: payload)
                  = x ++ ","%char :: trimEnd payload).
  { unfold trim, x. cbn [list_ascii_of_string app trimStart].
    replace (isWhiteSpace "d") with false by reflexivity.
    change ("d" :: "a" :: "t" :: "a" :: ":" :: mid ++ "," :: payload)%char
      with (("d" :: "a" :: "t" :: "a" :: ":" :: mid) ++ "," :: payload)%char.
    now apply trimEnd_app_nonwhite. }
  rewrite Htrim, indexOf_first.
  - replace (startsWith (list_ascii_of_string "data:")
               (x ++ ","%char :: trimEnd payload)) with true by reflexivity.
    rewrite substring_past, removeWhiteSpace_trimEnd, E, atob_encode, map_map.
    f_equal. rewrite <- (map_id b) at 2. apply map_ext.
    apply byte_of_ascii_of_byte.
  - unfold x. cbn [list_ascii_of_string app].
    intros [H | [H | [H | [H | [H | H]]]]]; try discriminate H.
    now apply Hmid.
Qed.

End DataUriToBytes.

Lemma whiteSpaceChars_isWhiteSpace (w : ascii) :
  In w Spec.whiteSpaceChars -> isWhiteSpace w = true.
Proof.
  unfold Spec.whiteSpaceChars.
  intros [<- | [<- | [<- | [<- | [<- | [<- | [<- | []]]]]]]]; reflexivity.
Qed.

(** Removing the white space of an interspersed text gives the text back,
    when the text itself has none. *)
Lemma removeWhiteSpace_interspersed (text payload : list ascii) :
  Spec.interspersed text payload ->
  Forall (fun c => isWhiteSpace c = false) text ->
  removeWhiteSpace payload = text.
Proof.
  unfold removeWhiteSpace.
  induction 1 as [| c text payload _ IH | w text payload Hw _ IH];
    intros Hall.
  - reflexivity.
  - inversion Hall as [| ? ? Hc Hrest]; subst.
    cbn [filter]. rewrite Hc. cbn [negb]. now rewrite IH.
  - cbn [filter]. rewrite (whiteSpaceChars_isWhiteSpace w Hw). cbn [negb].
    now apply IH.
Qed.

(** C8. Decoding the base64 encoding of a byte sequence yields the
    sequence: for the bare encoded string, for the data-URI form
    [data:<type>,<payload>] whose prefix up to and including the first comma
    is stripped, and for either form with white space or newline characters
    (any of TAB, LF, VT, FF, CR, SPACE, NBSP) inserted anywhere in the encoded
    payload. *)
Theorem dataUriToBytes_roundtrip (b : list Byte.byte) (mid : list ascii) :
  ~ In ","%char mid ->
  dataUriToBytes (Base64.encode b) = Normal b
  /\ dataUriToBytes
       (list_ascii_of_string "data:" ++ mid ++ ","%char :: Base64.encode b)
     = Normal b
  /\ forall payload,
       Spec.interspersed (Base64.encode b) payload ->
       dataUriToBytes payload = Normal b
       /\ dataUriToBytes
            (list_ascii_of_string "data:" ++ mid ++ ","%char :: payload)
          = Normal b.
Proof.
  intros Hmid.
  assert (Hnone : Forall (fun c => isWhiteSpace c = false) (Base64.encode b)).
  { eapply Forall_impl; [| apply encode_harmless]. now intros c (H & _). }
  assert (Hclean : removeWhiteSpace (Base64.encode b) = Base64.encode b)
    by (now apply filter_harmless).
  split; [| split].
  - now apply dataUriToBytes_bare.
  - now apply dataUriToBytes_prefixed.
  - intros payload Hpayload.
    pose proof (removeWhiteSpace_interspersed _ _ Hpayload Hnone) as E.
    split.
    + now apply dataUriToBytes_bare.
    + now apply dataUriToBytes_prefixed.
Qed.

(** ** Loading: the length gate, the decoder's failure and the signature *)

(** Reduction of field reads through the simple methods. *)
Ltac fields :=
  cbn [fst snd negb
       renderToken doc pages heap pageCanvases pageWrappers lastDataUri
       minZoom maxZoom zoomStep currentScale fitWidthScale scrollTop
       scrollLeft geometry pagesHost pageLabel zoomLabel btnPrevDisabled
       btnNextDisabled errorText errorShown overlayShown nextId calls
       set_renderToken set_doc set_pages set_heap set_pageCanvases
       set_pageWrappers set_lastDataUri set_minZoom set_maxZoom set_zoomStep
       set_currentScale set_fitWidthScale set_scrollTop set_scrollLeft
       set_geometry set_pagesHost set_pageLabel set_zoomLabel
       set_btnPrevDisabled set_btnNextDisabled set_errorText set_errorShown
       set_overlayShown set_nextId set_calls
       setLoading setError clearError clearDocument resetPages pushPage
       updateZoomUi].

Section LoadGate.

Lemma length_trimStart (s : list ascii) : length (trimStart s) <= length s.
Proof.
  induction s as [| c t IH]; [apply Nat.le_refl |].
  cbn [trimStart]. destruct (isWhiteSpace c); cbn [length]; lia.
Qed.

Lemma length_trimEnd (s : list ascii) : length (trimEnd s) <= length s.
Proof.
  induction s as [| c t IH]; [apply Nat.le_refl |].
  cbn [trimEnd]. destruct (trimEnd t) as [| c' t'].
  - destruct (isWhiteSpace c); cbn [length]; lia.
  - cbn [length] in *. lia.
Qed.

Lemma length_trim (s : list ascii) : length (trim s) <= length s.
Proof.
  unfold trim. etransitivity; [apply length_trimEnd | apply length_trimStart].
Qed.

Lemma thisPages_resetPages (st : Controller) : thisPages (resetPages st) = [].
Proof.
  unfold thisPages, array_get, resetPages.
  cbn [pages heap set_pages set_heap].
  apply (nth_middle (heap st) [] [] []).
Qed.

Lemma documentCleared_clearDocument (st : Controller) :
  Spec.documentCleared (clearDocument st).
Proof.
  unfold Spec.documentCleared. repeat split; try reflexivity.
  apply thisPages_resetPages.
Qed.

(** Fields the banner and the overlay do not touch. *)
Lemma documentCleared_ext (st st' : Controller) :
  doc st' = doc st -> pages st' = pages st -> heap st' = heap st ->
  pageCanvases st' = pageCanvases st -> pageWrappers st' = pageWrappers st ->
  pagesHost st' = pagesHost st -> pageLabel st' = pageLabel st ->
  Spec.documentCleared st -> Spec.documentCleared st'.
Proof.
  unfold Spec.documentCleared, thisPages, array_get.
  intros -> -> -> -> -> -> ->. trivial.
Qed.

Lemma long_enough (raw : list ascii) :
  20 <= length raw ->
  (match raw with [] => true | _ => false end || (length raw <? 20)) = false.
Proof.
  intros H. destruct raw; [cbn in H; lia |]. cbn [orb].
  apply Nat.ltb_ge. exact H.
Qed.

Lemma too_short (raw : list ascii) :
  length raw < 20 ->
  (match raw with [] => true | _ => false end || (length raw <? 20)) = true.
Proof.
  intros H. apply orb_true_iff. right. now apply Nat.ltb_lt.
Qed.

(** An identifier below the length gate: the silent empty state, reached
    without a call to the rendering capability. *)
Lemma load_too_short (dataUri : list ascii) (st : Controller) :
  length (trim dataUri) < 20 ->
  Spec.silentEmpty (fst (loadFromDataUri dataUri st))
  /\ snd (loadFromDataUri dataUri st) = []
  /\ calls (fst (loadFromDataUri dataUri st)) = calls st.
Proof.
  intros H. unfold loadFromDataUri. rewrite (too_short _ H).
  cbn [fst snd]. split; [| split; reflexivity].
  split; [apply documentCleared_clearDocument | split; reflexivity].
Qed.

(** A decoded buffer whose signature is not the magic one: the banner with
    the observed signature, reached without a call to the rendering
    capability. *)
Lemma load_bad_signature (dataUri : list ascii) (st : Controller)
    (bytes : list Byte.byte) :
  20 <= length (trim dataUri) ->
  dataUriToBytes (trim dataUri) = Normal bytes ->
  signature bytes <> "%PDF"%string ->
  Spec.bannerShown ("Not a PDF. Signature: " ++ signature bytes)
    (fst (loadFromDataUri dataUri st))
  /\ snd (loadFromDataUri dataUri st) = []
  /\ calls (fst (loadFromDataUri dataUri st)) = calls st
  /\ overlayShown (fst (loadFromDataUri dataUri st)) = false.
Proof.
  intros Hlen Hdec Hsig. unfold loadFromDataUri.
  rewrite (long_enough _ Hlen), Hdec.
  apply String.eqb_neq in Hsig. rewrite Hsig. cbn [negb fst snd].
  unfold finallySetLoading. fields. rewrite Nat.eqb_refl. fields.
  repeat split; try reflexivity.
  apply (nth_middle (heap st) [] [] []).
Qed.

(** A payload the decoder rejects: the banner with the decoder's message. *)
Lemma load_decode_failure (dataUri : list ascii) (st : Controller)
    (msg : string) :
  20 <= length (trim dataUri) ->
  dataUriToBytes (trim dataUri) = Throw msg ->
  Spec.bannerShown ("Failed to load PDF: " ++ msg)
    (fst (loadFromDataUri dataUri st))
  /\ snd (loadFromDataUri dataUri st) = []
  /\ calls (fst (loadFromDataUri dataUri st)) = calls st
  /\ overlayShown (fst (loadFromDataUri dataUri st)) = false.
Proof.
  intros Hlen Hdec. unfold loadFromDataUri.
  rewrite (long_enough _ Hlen), Hdec. cbn [fst snd].
  unfold loadCatch, stale, finallySetLoading. fields.
  rewrite Nat.eqb_refl. fields. rewrite Nat.eqb_refl. fields.
  repeat split; try reflexivity.
  apply (nth_middle (heap st) [] [] []).
Qed.

Lemma signature_length (bytes : list Byte.byte) :
  String.length (signature bytes) = 4.
Proof. reflexivity. Qed.

Lemma signature_get (bytes : list Byte.byte) (i : nat) :
  i < 4 ->
  String.get i (signature bytes) = Some (ascii_of_byte (nth i bytes Byte.x00)).
Proof.
  intros H. unfold signature, byteOrZero.
  assert (Hnth : forall k,
            match nth_error bytes k with Some b => b | None => Byte.x00 end
            = nth k bytes Byte.x00).
  { intros k. revert bytes. induction k; intros [| b bs]; cbn; auto. }
  cbn [map]. rewrite !Hnth.
  destruct i as [| [| [| [| i]]]]; try reflexivity. lia.
Qed.

Lemma short_buffer_signature (bytes : list Byte.byte) :
  length bytes < 4 -> signature bytes <> "%PDF"%string.
Proof.
  intros H E.
  assert (H3 : String.get 3 (signature bytes) = Some "F"%char)
    by now rewrite E.
  rewrite signature_get in H3 by lia.
  rewrite nth_overflow in H3 by lia. discriminate H3.
Qed.

End LoadGate.

(** C5. An identifier shorter than the threshold of 20 characters (as
    supplied, or once trimmed) yields the silent empty state.  An identifier
    of at least 20 trimmed characters whose decoded bytes do not start with
    the signature "%PDF" yields the visible banner holding the observed four
    characters; in both cases the load has returned without any call to the
    rendering capability. *)
Theorem load_length_and_signature_gate (dataUri : list ascii) (st : Controller) :
  let result := loadFromDataUri dataUri st in
  (length dataUri < 20 \/ length (trim dataUri) < 20 ->
     Spec.silentEmpty (fst result)
     /\ snd result = [] /\ calls (fst result) = calls st)
  /\ (forall bytes,
        20 <= length (trim dataUri) ->
        dataUriToBytes (trim dataUri) = Normal bytes ->
        signature bytes <> "%PDF"%string ->
        Spec.bannerShown ("Not a PDF. Signature: " ++ signature bytes)
          (fst result)
        /\ snd result = [] /\ calls (fst result) = calls st).
Proof.
  cbv zeta. split.
  - intros H. apply load_too_short.
    destruct H as [H | H]; [| exact H].
    pose proof (length_trim dataUri). lia.
  - intros bytes Hlen Hdec Hsig.
    destruct (load_bad_signature dataUri st bytes Hlen Hdec Hsig)
      as (H1 & H2 & H3 & _).
    split; [exact H1 | split; [exact H2 | exact H3]].
Qed.

(** C10. The signature always has four characters, the i-th being byte i of
    the buffer or NUL past its end.  An identifier of at least 20 trimmed
    characters whose payload decodes to fewer than four bytes therefore
    yields the visible "Not a PDF" banner, not the silent empty state. *)
Theorem short_buffer_yields_banner (bytes : list Byte.byte) :
  String.length (signature bytes) = 4
  /\ (forall i, i < 4 ->
        String.get i (signature bytes)
        = Some (ascii_of_byte (nth i bytes Byte.x00)))
  /\ (forall dataUri st,
        20 <= length (trim dataUri) ->
        dataUriToBytes (trim dataUri) = Normal bytes ->
        length bytes < 4 ->
        Spec.bannerShown ("Not a PDF. Signature: " ++ signature bytes)
          (fst (loadFromDataUri dataUri st))
        /\ ~ Spec.silentEmpty (fst (loadFromDataUri dataUri st))).
Proof.
  split; [apply signature_length |]. split; [apply signature_get |].
  intros dataUri st Hlen Hdec Hshort.
  destruct (load_bad_signature dataUri st bytes Hlen Hdec
              (short_buffer_signature bytes Hshort)) as (Hb & _).
  split; [exact Hb |].
  intros (_ & Hno & _). destruct Hb as (_ & Hyes & _). congruence.
Qed.

(** C4, as the code has it.  An identifier of at least 20 trimmed characters
    whose payload the decoder rejects clears the page list and the document
    view and shows the banner "Failed to load PDF: " followed by the
    decoder's message; the load has then returned without any call to the
    rendering capability. *)
Theorem malformed_payload_shows_banner (dataUri : list ascii) (st : Controller)
    (msg : string) :
  20 <= length (trim dataUri) ->
  dataUriToBytes (trim dataUri) = Throw msg ->
  Spec.bannerShown ("Failed to load PDF: " ++ msg)
    (fst (loadFromDataUri dataUri st))
  /\ snd (loadFromDataUri dataUri st) = []
  /\ calls (fst (loadFromDataUri dataUri st)) = calls st.
Proof.
  intros Hlen Hdec.
  destruct (load_decode_failure dataUri st msg Hlen Hdec)
    as (H1 & H2 & H3 & _).
  split; [exact H1 | split; [exact H2 | exact H3]].
Qed.

(** ** What the methods leave unchanged *)

(** The zoom bounds and step of a state, and its two scales. *)
Definition zoomConfig (st : Controller) : number * number * number :=
  (minZoom st, maxZoom st, zoomStep st).

Definition scales (st : Controller) : number * number :=
  (currentScale st, fitWidthScale st).

Lemma scales_inv (st st' : Controller) :
  scales st' = scales st ->
  currentScale st' = currentScale st /\ fitWidthScale st' = fitWidthScale st.
Proof. unfold scales. intros H. injection H as H1 H2. now split. Qed.

Lemma zoomConfig_inv (st st' : Controller) :
  zoomConfig st' = zoomConfig st ->
  minZoom st' = minZoom st /\ maxZoom st' = maxZoom st
  /\ zoomStep st' = zoomStep st.
Proof. unfold zoomConfig. intros H. injection H as H1 H2 H3. now repeat split. Qed.

Ltac branches :=
  repeat match goal with
         | |- context [if ?b then _ else _] => destruct b
         | |- context [match ?x with _ => _ end] => destruct x
         end.

Section Frames.

Lemma updateNavUi_keeps (st : Controller) :
  zoomConfig (updateNavUi st) = zoomConfig st
  /\ scales (updateNavUi st) = scales st
  /\ renderToken (updateNavUi st) = renderToken st.
Proof. unfold updateNavUi. destruct (_ =? 0); now repeat split. Qed.

Lemma finallySetLoading_keeps (token : nat) (st : Controller) :
  zoomConfig (finallySetLoading token st) = zoomConfig st
  /\ scales (finallySetLoading token st) = scales st
  /\ renderToken (finallySetLoading token st) = renderToken st.
Proof. unfold finallySetLoading. destruct (_ =? _); now repeat split. Qed.

Lemma loadCatch_keeps (token : nat) (msg : string) (st : Controller) :
  zoomConfig (loadCatch token msg st) = zoomConfig st
  /\ scales (loadCatch token msg st) = scales st
  /\ renderToken (loadCatch token msg st) = renderToken st.
Proof.
  unfold loadCatch, finallySetLoading.
  destruct (stale token st); fields; destruct (_ =? _); now repeat split.
Qed.

Lemma afterRenderAllPages_keeps (caller : RenderCaller) (token : nat)
    (st : Controller) :
  zoomConfig (fst (afterRenderAllPages caller token st)) = zoomConfig st
  /\ scales (fst (afterRenderAllPages caller token st)) = scales st
  /\ renderToken (fst (afterRenderAllPages caller token st)) = renderToken st.
Proof.
  unfold afterRenderAllPages, finallySetLoading, updateNavUi.
  destruct caller; destruct (stale token st); fields;
    repeat match goal with
           | |- context [if ?b then _ else _] => destruct b; fields
           end; now repeat split.
Qed.

Lemma renderLoop_keeps (token : nat) (arr : ArrayRef) (caller : RenderCaller)
    (rest : list PDFPageProxy) (idx : nat) (st : Controller) :
  zoomConfig (fst (renderLoop token arr caller rest idx st)) = zoomConfig st
  /\ scales (fst (renderLoop token arr caller rest idx st)) = scales st
  /\ renderToken (fst (renderLoop token arr caller rest idx st))
     = renderToken st.
Proof.
  revert idx st. induction rest as [| page rest IH]; intros idx st.
  - apply afterRenderAllPages_keeps.
  - cbn [renderLoop]. destruct (stale token st).
    + apply afterRenderAllPages_keeps.
    + destruct (renderPageToCanvas _ _ _ _ _) as [canvas [c |]].
      * now repeat split.
      * destruct (IH (S idx)
                    (st |> set_nextId (S (nextId st))
                        |> set_pagesHost
                             (pagesHost st
                              ++ [{| wr_id := nextId st; wr_canvas := canvas |}])
                        |> set_pageWrappers
                             (pageWrappers st
                              ++ [{| wr_id := nextId st; wr_canvas := canvas |}])
                        |> set_pageCanvases (pageCanvases st ++ [canvas])))
          as (H1 & H2 & H3).
        rewrite H1, H2, H3. now repeat split.
Qed.

Lemma renderAllPages_keeps (token : nat) (caller : RenderCaller)
    (st : Controller) :
  zoomConfig (fst (renderAllPages token caller st)) = zoomConfig st
  /\ scales (fst (renderAllPages token caller st)) = scales st
  /\ renderToken (fst (renderAllPages token caller st)) = renderToken st.
Proof.
  unfold renderAllPages.
  destruct (renderLoop_keeps token
              (pages (st |> set_pagesHost [] |> set_pageCanvases []
                         |> set_pageWrappers []))
              caller
              (thisPages (st |> set_pagesHost [] |> set_pageCanvases []
                             |> set_pageWrappers []))
              0
              (st |> set_pagesHost [] |> set_pageCanvases []
                  |> set_pageWrappers [])) as (H1 & H2 & H3).
  rewrite H1, H2, H3. now repeat split.
Qed.

Lemma applyScale_keeps (scale : number) (st : Controller) :
  zoomConfig (fst (applyScale scale st)) = zoomConfig st
  /\ scales (fst (applyScale scale st)) = scales st.
Proof.
  unfold applyScale.
  destruct (doc st); [| now split].
  destruct (thisPages st); [now split |].
  match goal with
  | |- context [renderAllPages ?t ?c ?s] =>
      destruct (renderAllPages_keeps t c s) as (H1 & H2 & _)
  end.
  rewrite H1, H2. now split.
Qed.

Lemma computeFitWidthScale_keeps (st : Controller) :
  zoomConfig (computeFitWidthScale st) = zoomConfig st
  /\ currentScale (computeFitWidthScale st) = currentScale st
  /\ thisPages (computeFitWidthScale st) = thisPages st
  /\ doc (computeFitWidthScale st) = doc st.
Proof.
  unfold computeFitWidthScale. destruct (thisPages st) eqn:E;
    repeat split; unfold thisPages, array_get; fields; assumption.
Qed.

Lemma setScale_keeps (scale : number) (opts : option bool) (st : Controller) :
  zoomConfig (fst (setScale scale opts st)) = zoomConfig st
  /\ currentScale (fst (setScale scale opts st))
     = clampNumber scale (minZoom st) (maxZoom st)
  /\ fitWidthScale (fst (setScale scale opts st)) = fitWidthScale st.
Proof.
  unfold setScale. cbv zeta.
  set (st1 := updateZoomUi
                (set_currentScale (clampNumber scale (minZoom st) (maxZoom st))
                   st)).
  assert (E : zoomConfig st1 = zoomConfig st
              /\ currentScale st1 = clampNumber scale (minZoom st) (maxZoom st)
              /\ fitWidthScale st1 = fitWidthScale st) by now repeat split.
  destruct E as (E1 & E2 & E3).
  destruct (match opts with Some b => b | None => true end).
  - destruct (applyScale_keeps (currentScale st1) st1) as (H1 & H2).
    pose proof (f_equal fst H2) as H3. pose proof (f_equal snd H2) as H4.
    unfold scales in H3, H4. cbn [fst snd] in H3, H4.
    rewrite H1, H3, H4. now repeat split.
  - now cbn [fst].
Qed.

End Frames.

(** ** Resizing *)

Lemma within_finite (lo hi : Q) (v : number) :
  within (Fin lo) (Fin hi) v -> exists q, v = Fin q /\ (lo <= q <= hi)%Q.
Proof.
  destruct v as [q | | |]; cbn; try contradiction. intros H. now exists q.
Qed.

(** With a page loaded and ordered finite bounds, the fit scale computed is
    a finite value within the bounds. *)
Lemma computeFitWidthScale_within (st : Controller) (lo hi : Q) :
  thisPages st <> [] ->
  minZoom st = Fin lo -> maxZoom st = Fin hi -> (lo <= hi)%Q ->
  within (Fin lo) (Fin hi) (fitWidthScale (computeFitWidthScale st)).
Proof.
  intros Hp Hlo Hhi Hle. unfold computeFitWidthScale.
  destruct (thisPages st) as [| first rest]; [contradiction |].
  fields. rewrite Hlo, Hhi. now apply clampNumber_within.
Qed.

(** C7. On a resize with pages loaded the fit scale is recomputed; when the
    current scale is within 0.02 of the fit scale from before the resize,
    the current scale becomes the new fit scale, and otherwise it is left as
    it was. *)
Theorem onResize_resnaps_to_fit (st : Controller) (lo hi c f : Q) :
  thisPages st <> [] ->
  minZoom st = Fin lo -> maxZoom st = Fin hi -> (lo <= hi)%Q ->
  currentScale st = Fin c -> fitWidthScale st = Fin f ->
  let newFit := fitWidthScale (computeFitWidthScale st) in
  let st' := fst (onResize st) in
  fitWidthScale st' = newFit
  /\ ((Qabs (c - f) <= 2 # 100)%Q -> num_eq (currentScale st') newFit)
  /\ (~ (Qabs (c - f) <= 2 # 100)%Q -> currentScale st' = Fin c).
Proof.
  intros Hp Hlo Hhi Hle Hc Hf. cbv zeta.
  destruct (within_finite _ _ _
              (computeFitWidthScale_within st lo hi Hp Hlo Hhi Hle))
    as (q & Hq & Hin).
  destruct (computeFitWidthScale_keeps st) as (Hcfg & Hcur & _).
  unfold zoomConfig in Hcfg.
  assert (Hmin : minZoom (computeFitWidthScale st) = Fin lo)
    by (rewrite <- Hlo; congruence).
  assert (Hmax : maxZoom (computeFitWidthScale st) = Fin hi)
    by (rewrite <- Hhi; congruence).
  unfold onResize. destruct (thisPages st) as [| p ps]; [contradiction |].
  rewrite Hcur, Hc, Hf. cbn [sub add neg Math_abs leb].
  change (c + - f)%Q with (c - f)%Q.
  destruct (Qle_bool (Qabs (c - f)) (2 # 100)) eqn:E.
  - apply Qle_bool_iff in E.
    destruct (setScale_keeps (fitWidthScale (computeFitWidthScale st)) None
                (computeFitWidthScale st)) as (_ & H2 & H3).
    rewrite H2, H3, Hmin, Hmax, Hq.
    split; [reflexivity |]. split; [| contradiction].
    intros _. now apply clampNumber_id.
  - assert (Hn : ~ (Qabs (c - f) <= 2 # 100)%Q).
    { intros H. apply Qle_bool_iff in H. congruence. }
    cbn [fst]. rewrite Hcur, Hc.
    split; [reflexivity |]. split; [contradiction | reflexivity].
Qed.

(** ** The zoom bounds in reachable states *)

(** The configured bounds are finite and ordered:
    0.1 <= minZoom <= 5 and minZoom <= maxZoom <= 10. *)
Definition boundsOk (st : Controller) : Prop :=
  exists lo hi,
    minZoom st = Fin lo /\ maxZoom st = Fin hi
    /\ (1 # 10 <= lo <= 5)%Q /\ (lo <= hi <= 10)%Q.

Section Reachable.

Lemma boundsOk_ext (st st' : Controller) :
  zoomConfig st' = zoomConfig st -> boundsOk st -> boundsOk st'.
Proof.
  unfold zoomConfig. intros E (lo & hi & H1 & H2 & H3 & H4).
  injection E as E1 E2 _. exists lo, hi. rewrite E1, E2. now repeat split.
Qed.

Lemma loadPageLoop_keeps (token : nat) (d : PDFDocumentProxy)
    (i pageCount : nat) (st : Controller) :
  zoomConfig (fst (loadPageLoop token d i pageCount st)) = zoomConfig st.
Proof.
  unfold loadPageLoop. destruct (i <=? pageCount).
  - destruct (stale token st); [apply finallySetLoading_keeps | reflexivity].
  - match goal with
    | |- context [renderAllPages ?t ?c ?s] =>
        destruct (renderAllPages_keeps t c s) as (H & _)
    end.
    now rewrite H.
Qed.

Lemma loadFromDataUri_keeps (dataUri : list ascii) (st : Controller) :
  zoomConfig (fst (loadFromDataUri dataUri st)) = zoomConfig st.
Proof.
  unfold loadFromDataUri. cbv zeta.
  destruct (_ || _); [reflexivity |].
  destruct (dataUriToBytes _) as [bytes | msg].
  - destruct (negb _).
    + cbn [fst].
      match goal with
      | |- zoomConfig (finallySetLoading ?t ?s) = _ =>
          destruct (finallySetLoading_keeps t s) as (H & _); now rewrite H
      end.
    + destruct (stale _ _); [| reflexivity]. cbn [fst].
      match goal with
      | |- zoomConfig (finallySetLoading ?t ?s) = _ =>
          destruct (finallySetLoading_keeps t s) as (H & _); now rewrite H
      end.
  - cbn [fst].
    match goal with
    | |- zoomConfig (loadCatch ?t ?m ?s) = _ =>
        destruct (loadCatch_keeps t m s) as (H & _); now rewrite H
    end.
Qed.

Lemma onResize_keeps (st : Controller) :
  zoomConfig (fst (onResize st)) = zoomConfig st.
Proof.
  unfold onResize. destruct (thisPages st); [reflexivity |]. cbv zeta.
  destruct (computeFitWidthScale_keeps st) as (H & _).
  destruct (leb _ _); [| now cbn [fst]].
  match goal with
  | |- context [setScale ?x ?o ?s] =>
      destruct (setScale_keeps x o s) as (H1 & _)
  end.
  now rewrite H1.
Qed.

Lemma onResetFit_keeps (st : Controller) :
  zoomConfig (fst (onResetFit st)) = zoomConfig st.
Proof.
  unfold onResetFit. cbv zeta.
  destruct (computeFitWidthScale_keeps st) as (H & _).
  destruct (setScale_keeps (fitWidthScale (computeFitWidthScale st)) None
              (computeFitWidthScale st)) as (H1 & _).
  destruct (setScale _ _ _) as [st' spawned]. cbn [fst] in *.
  now rewrite <- H, <- H1.
Qed.

Lemma onWheel_keeps (deltaY : number) (st : Controller) :
  zoomConfig (fst (onWheel deltaY st)) = zoomConfig st.
Proof. unfold onWheel. cbv zeta. apply setScale_keeps. Qed.

Lemma scrollToPage_keeps (index : Z) (st : Controller) :
  zoomConfig (scrollToPage index st) = zoomConfig st.
Proof.
  unfold scrollToPage. destruct (index <? 0)%Z; [reflexivity |].
  now destruct (nth_error _ _).
Qed.

Lemma resume_keeps (f : Frame) (r : Settled) (st : Controller)
    (res : Controller * list Frame) :
  resume f r st = Some res -> zoomConfig (fst res) = zoomConfig st.
Proof.
  destruct f; destruct r as [[| d' | p'] | msg]; cbn [resume];
    intros H; try discriminate H; injection H as <-; cbn [fst].
  - now destruct (updateNavUi_keeps (updateZoomUi st)) as (-> & _).
  - reflexivity.
  - apply loadCatch_keeps.
  - destruct (stale token st).
    + apply finallySetLoading_keeps.
    + now rewrite loadPageLoop_keeps.
  - apply loadCatch_keeps.
  - now rewrite loadPageLoop_keeps.
  - apply loadCatch_keeps.
  - apply renderLoop_keeps.
  - unfold throwFromRenderAllPages. destruct caller; cbn [fst];
      try apply loadCatch_keeps; apply finallySetLoading_keeps.
  - match goal with
    | |- context [renderAllPages ?t ?c ?s] =>
        destruct (renderAllPages_keeps t c s) as (H & _)
    end.
    rewrite H. apply computeFitWidthScale_keeps.
  - reflexivity.
Qed.

Lemma clampNumber_finite (v : number) (lo hi : Q) :
  (lo <= hi)%Q ->
  exists q, clampNumber v (Fin lo) (Fin hi) = Fin q /\ (lo <= q <= hi)%Q.
Proof.
  intros H. apply within_finite. now apply clampNumber_within.
Qed.

Lemma updateView_boundsOk (context : Inputs) (st : Controller) :
  boundsOk (fst (updateView context st)).
Proof.
  unfold updateView. cbv zeta.
  destruct (clampNumber_finite (orElse (in_minZoom context) (Fin (5 # 10)))
              (1 # 10) 5) as (lo & Elo & Hlo); [lra |].
  destruct (clampNumber_finite (orElse (in_maxZoom context) (Fin (3 # 1)))
              lo 10) as (hi & Ehi & Hhi); [lra |].
  match goal with
  | |- boundsOk (fst (if _ then loadFromDataUri ?u ?s else onResize ?s')) =>
      assert (Hs : boundsOk s');
      [| assert (Hc : zoomConfig s = zoomConfig s') by reflexivity;
         destruct (negb _);
         [ apply boundsOk_ext with (st := s');
           [ rewrite loadFromDataUri_keeps; exact Hc | exact Hs ]
         | apply boundsOk_ext with (st := s');
           [ apply onResize_keeps | exact Hs ] ] ]
  end.
  exists lo, hi. fields. rewrite Elo, Ehi. now repeat split.
Qed.

Lemma step_boundsOk (ev : Event) (sys : System) :
  boundsOk (ctrl sys) -> boundsOk (ctrl (step ev sys)).
Proof.
  intros H. destruct ev; cbn [step].
  all: try (destruct (wired sys); [| exact H]; cbn [ctrl spawn fst]).
  - apply updateView_boundsOk.
  - now apply boundsOk_ext with (2 := H), onResize_keeps.
  - exact H.
  - apply boundsOk_ext with (2 := H). unfold onViewportScroll.
    destruct (updateNavUi_keeps
                (set_scrollLeft newLeft (set_scrollTop newTop (ctrl sys))))
      as (E & _).
    now rewrite E.
  - now apply boundsOk_ext with (2 := H), onWheel_keeps.
  - now apply boundsOk_ext with (2 := H), onResetFit_keeps.
  - now apply boundsOk_ext with (2 := H), scrollToPage_keeps.
  - now apply boundsOk_ext with (2 := H), scrollToPage_keeps.
  - destruct (nth_error (pending sys) i) as [f |]; [| exact H].
    destruct (resume f r (ctrl sys)) as [[st' spawned] |] eqn:E; [| exact H].
    cbn [ctrl]. apply boundsOk_ext with (2 := H).
    apply (resume_keeps _ _ _ _ E).
  - exact H.
Qed.

Lemma run_cons (ev : Event) (events : list Event) (sys : System) :
  run (ev :: events) sys = run events (step ev sys).
Proof. reflexivity. Qed.

Lemma run_snoc (events : list Event) (ev : Event) (sys : System) :
  run (events ++ [ev]) sys = step ev (run events sys).
Proof. unfold run. now rewrite fold_left_app. Qed.


End Reachable.


(** ** Scroll position across a scale change *)

Lemma captured_ratio (offset extent client : Q) :
  (if gtb (Fin extent) (Fin client)
   then div (Fin offset) (sub (Fin extent) (Fin client))
   else Fin 0)
  = Fin (Spec.scrollRatio offset extent client).
Proof.
  unfold Spec.scrollRatio, gtb. cbn [ltb sub add neg].
  destruct (Qltb client extent) eqn:E; [| reflexivity].
  apply Qltb_lt in E. apply div_fin_pos. lra.
Qed.

(** A render pass over a non-empty page list, started under the current
    token, suspends on the rasterization of the first page. *)
Lemma renderAllPages_suspends (token : nat) (caller : RenderCaller)
    (st : Controller) :
  thisPages st <> [] -> token = renderToken st ->
  snd (renderAllPages token caller st)
  = [AwaitRender token (pages st) 0 caller].
Proof.
  intros Hp ->. unfold renderAllPages.
  change (thisPages (st |> set_pagesHost [] |> set_pageCanvases []
                        |> set_pageWrappers []))
    with (thisPages st).
  destruct (thisPages st) as [| page rest]; [contradiction |].
  cbn [renderLoop]. unfold stale, renderPageToCanvas. fields.
  rewrite Nat.eqb_refl. reflexivity.
Qed.

(** * Scroll anchoring under rounded arithmetic *)

(** ** binary64 rounding of a rational

    The value [Math.floor] is applied to in [applyScale] is the result of a
    division and a multiplication of doubles, each rounded to the nearest
    double, ties to even.  [round64] is that rounding on the rationals, for
    magnitudes below the largest double; the quantities of [applyScale] are
    pixel counts and ratios between 0 and 1. *)
Module Binary64.

Local Open Scope Q_scope.




























End Binary64.

(** ** The scroll anchor of [applyScale], rounding made explicit *)

(** A rounding of the results of arithmetic: monotone, and exact on whole
    numbers below 2^53.  The exact arithmetic of this embedding and binary64
    rounding are two instances. *)
Record Rounding (rnd : Q -> Q) : Prop := {
  rnd_monotone : forall x y : Q, (x <= y)%Q -> (rnd x <= rnd y)%Q;
  rnd_whole :
    forall z : Z, (Z.abs z < 2 ^ 53)%Z -> (rnd (inject_Z z) == inject_Z z)%Q
}.

(** [scrollHeight > clientHeight ? scrollTop / (scrollHeight - clientHeight) : 0],
    and the same for the horizontal axis. *)
Definition capturedRatio (rnd : Q -> Q) (offset extent client : Q) : Q :=
  if Qltb client extent then rnd (offset / rnd (extent - client))%Q else 0%Q.

(** [Math.floor(Math.max(0, scrollHeight - clientHeight) * ratio)] *)
Definition restoredOffset (rnd : Q -> Q) (extent client ratio : Q) : Q :=
  inject_Z (Qfloor (rnd (Qmax 0 (rnd (extent - client)) * ratio)))%Q.


Lemma exact_rounding : Rounding (fun x : Q => x).
Proof. split; [now intros x y H | reflexivity]. Qed.


Section RoundedAnchor.

Local Open Scope Q_scope.

Variable rnd : Q -> Q.
Hypothesis rounding : Rounding rnd.





End RoundedAnchor.

(** The exact arithmetic of this embedding is the instance of the two
    definitions at the rounding that rounds nothing. *)
Lemma capturedRatio_exact (offset extent client : Q) :
  (if gtb (Fin extent) (Fin client)
   then div (Fin offset) (sub (Fin extent) (Fin client))
   else Fin 0)
  = Fin (capturedRatio (fun x : Q => x) offset extent client).
Proof. apply captured_ratio. Qed.

Lemma restoreScroll_exact (ratioTop ratioLeft : Q) (st : Controller) :
  let g := geometry st in
  scrollTop (restoreScroll (Fin ratioTop) (Fin ratioLeft) st)
  = restoredOffset (fun x : Q => x) (scrollHeight g) (clientHeight g) ratioTop
  /\ scrollLeft (restoreScroll (Fin ratioTop) (Fin ratioLeft) st)
     = restoredOffset (fun x : Q => x) (scrollWidth g) (clientWidth g)
         ratioLeft.
Proof. split; reflexivity. Qed.


(** * The properties on concrete sessions *)

Section Witnesses.

Import Scenario.

(** C1.  Document A is superseded by document B while A's first page is
    being fetched.  When that page arrives, the superseded load appends it to
    the page list that by then belongs to B, although the token it captured
    (1) is no longer the current one (2).  B's load then renders both: once
    every pending call has settled, the page container shows a page of A
    followed by a page of B, scaled to fit A's page width. *)
Theorem superseded_load_mixes_documents :
  renderToken (ctrl beforePageA) = 2
  /\ nth_error (pending beforePageA) 0 = Some (AwaitPage 1 docA 1 2)
  /\ thisPages (ctrl beforePageA) = []
  /\ thisPages (ctrl (step pageA_arrives beforePageA)) = [pageA1]
  /\ pending twoLoads = []
  /\ doc (ctrl twoLoads) = Some docB
  /\ thisPages (ctrl twoLoads) = [pageA1; pageB1]
  /\ shownDocuments (ctrl twoLoads) = [Some 1; Some 2]
  /\ pageLabel (ctrl twoLoads) = "1 / 2"%string
  /\ zoomLabel (ctrl twoLoads) = "122%"%string.
Proof. repeat split; vm_compute; reflexivity. Qed.

Lemma computeFitWidthScale_spec_witness :
  num_eq (fitWidthScale (computeFitWidthScale (ctrl twoLoads)))
    (Fin (Spec.clamp (Spec.rawFitScale 1000 800) (5 # 10) 3)).
Proof.
  assert (Hpages : thisPages (ctrl twoLoads) = [pageA1; pageB1])
    by (vm_compute; reflexivity).
  destruct (computeFitWidthScale_spec (ctrl twoLoads) (5 # 10) 3) as [H _].
  - vm_compute. reflexivity.
  - vm_compute. reflexivity.
  - vm_compute. discriminate.
  - rewrite Hpages in H. vm_compute in H |- *. exact H.
Defined.

(** C4 as stated fails: an identifier of 32 characters whose payload is not
    base64 leaves the error banner visible. *)
Lemma malformed_payload_not_silent :
  dataUriToBytes (trim uriMalformed) = Throw Base64.atob_message
  /\ errorShown (fst (loadFromDataUri uriMalformed (ctrl started))) = true
  /\ ~ Spec.silentEmpty (fst (loadFromDataUri uriMalformed (ctrl started))).
Proof.
  split; [| split].
  - vm_compute. reflexivity.
  - vm_compute. reflexivity.
  - intros (_ & H & _). vm_compute in H. discriminate H.
Qed.

Lemma malformed_payload_shows_banner_witness :
  Spec.bannerShown ("Failed to load PDF: " ++ Base64.atob_message)
    (fst (loadFromDataUri uriMalformed (ctrl started))).
Proof.
  destruct (malformed_payload_shows_banner uriMalformed (ctrl started)
              Base64.atob_message) as (H & _).
  - vm_compute. lia.
  - vm_compute. reflexivity.
  - vm_compute in H |- *. exact H.
Defined.

Lemma load_length_and_signature_gate_witness :
  Spec.silentEmpty (fst (loadFromDataUri uriShort (ctrl started)))
  /\ Spec.bannerShown "Not a PDF. Signature: Hell"
       (fst (loadFromDataUri uriText (ctrl started))).
Proof.
  split.
  - destruct (load_length_and_signature_gate uriShort (ctrl started))
      as [H _].
    apply H. left. vm_compute. lia.
  - destruct (load_length_and_signature_gate uriText (ctrl started))
      as [_ H].
    destruct (H (map byte_of_ascii (list_ascii_of_string "Hello world")))
      as (H1 & _).
    + vm_compute. lia.
    + vm_compute. reflexivity.
    + vm_compute. discriminate.
    + vm_compute in H1 |- *. exact H1.
Defined.



Lemma onResize_resnaps_to_fit_witness :
  num_eq (currentScale (fst (onResize atFit)))
    (fitWidthScale (computeFitWidthScale atFit))
  /\ num_eq (fitWidthScale (computeFitWidthScale atFit)) (Fin (8 # 10))
  /\ currentScale (fst (onResize zoomedIn)) = Fin (1952 # 976).
Proof.
  split; [| split].
  - destruct (onResize_resnaps_to_fit atFit (5 # 10) 3 (976 # 976) (976 # 976))
      as (_ & H & _);
      [ vm_compute; discriminate
      | vm_compute; reflexivity
      | vm_compute; reflexivity
      | vm_compute; discriminate
      | vm_compute; reflexivity
      | vm_compute; reflexivity
      | ].
    apply H. vm_compute. discriminate.
  - vm_compute. reflexivity.
  - destruct (onResize_resnaps_to_fit zoomedIn (5 # 10) 3 (1952 # 976)
                (976 # 976))
      as (_ & _ & H);
      [ vm_compute; discriminate
      | vm_compute; reflexivity
      | vm_compute; reflexivity
      | vm_compute; discriminate
      | vm_compute; reflexivity
      | vm_compute; reflexivity
      | ].
    apply H. vm_compute. intros H'. now apply H'.
Defined.

(** The four bytes "%PDF", encoded as "JVBERg==", with a space, a line
    feed, a tab, a vertical tab, a no-break space, a carriage return and a
    form feed inserted: bare and behind a data-URI prefix. *)
Lemma dataUriToBytes_roundtrip_witness :
  dataUriToBytes
    [" "; "J"; "V"; "010"; "B"; "E"; "009"; "R"; "011"; "g"; "="; "160"; "=";
     "013"; "012"]%char
  = Normal [Byte.x25; Byte.x50; Byte.x44; Byte.x46]
  /\ dataUriToBytes
       (list_ascii_of_string "data:" ++
        list_ascii_of_string "application/pdf;base64" ++
        ","%char
        :: [" "; "J"; "V"; "010"; "B"; "E"; "009"; "R"; "011"; "g"; "=";
            "160"; "="; "013"; "012"]%char)
     = Normal [Byte.x25; Byte.x50; Byte.x44; Byte.x46].
Proof.
  destruct (dataUriToBytes_roundtrip [Byte.x25; Byte.x50; Byte.x44; Byte.x46]
              (list_ascii_of_string "application/pdf;base64"))
    as (_ & _ & H).
  - vm_compute. intuition discriminate.
  - apply H.
    change (Base64.encode [Byte.x25; Byte.x50; Byte.x44; Byte.x46])
      with ["J"; "V"; "B"; "E"; "R"; "g"; "="; "="]%char.
    repeat first
      [ apply Spec.interspersed_nil
      | apply Spec.interspersed_keep
      | apply Spec.interspersed_space; [vm_compute; tauto |] ].
Defined.

Lemma current_page_nearest_to_focus_witness :
  getCurrentPageIndex (ctrl twoLoads) < 2
  /\ (Spec.pageDistance (ctrl twoLoads) (getCurrentPageIndex (ctrl twoLoads))
      <= Spec.pageDistance (ctrl twoLoads) 1)%Q
  /\ btnPrevDisabled (updateNavUi (ctrl twoLoads))
     = (getCurrentPageIndex (ctrl twoLoads) =? 0).
Proof.
  destruct (current_page_nearest_to_focus (ctrl twoLoads)) as [H _].
  destruct H as (H1 & H2 & _ & H4 & _).
  - vm_compute. discriminate.
  - split; [exact H1 |]. split; [| exact H4].
    apply H2. vm_compute. lia.
Defined.

Lemma short_buffer_yields_banner_witness :
  Spec.bannerShown
    ("Not a PDF. Signature: "
     ++ signature [Byte.x25; Byte.x50; Byte.x44])
    (fst (loadFromDataUri uriTruncated (ctrl started))).
Proof.
  destruct (short_buffer_yields_banner [Byte.x25; Byte.x50; Byte.x44])
    as (_ & _ & H).
  destruct (H uriTruncated (ctrl started)) as (H1 & _).
  - vm_compute. lia.
  - vm_compute. reflexivity.
  - vm_compute. lia.
  - vm_compute in H1 |- *. exact H1.
Defined.

(** C9.  Document A is loaded with its two pages: the label reads "1 / 2",
    the previous button is disabled and the next button enabled.  The host
    then supplies an identifier shorter than the threshold.  [clearDocument]
    empties the page list and sets the label to "0 / 0", as [updateNavUi]
    does for an empty list, but it does not touch the buttons and does not
    call [updateNavUi]: with no page loaded and nothing pending the next
    button is still enabled, where [updateNavUi] would disable it. *)
Theorem cleared_document_keeps_next_enabled :
  pending loadedA = []
  /\ length (pageWrappers (ctrl loadedA)) = 2
  /\ pageLabel (ctrl loadedA) = "1 / 2"%string
  /\ btnPrevDisabled (ctrl loadedA) = true
  /\ btnNextDisabled (ctrl loadedA) = false
  /\ pending clearedA = []
  /\ doc (ctrl clearedA) = None
  /\ thisPages (ctrl clearedA) = []
  /\ pageWrappers (ctrl clearedA) = []
  /\ errorShown (ctrl clearedA) = false
  /\ pageLabel (ctrl clearedA) = "0 / 0"%string
  /\ btnPrevDisabled (ctrl clearedA) = true
  /\ btnNextDisabled (ctrl clearedA) = false
  /\ btnNextDisabled (updateNavUi (ctrl clearedA)) = true.
Proof. repeat split; vm_compute; reflexivity. Qed.

End Witnesses.

(** * Further properties of the controller *)

(** ** Notions used below *)

(** The range every configured zoom bound lies in. *)
Definition scaleRange (v : number) : Prop :=
  within (Fin (1 # 10)) (Fin (10 # 1)) v.

(** The two scales of a state are finite values of that range. *)
Definition scalesOk (st : Controller) : Prop :=
  scaleRange (currentScale st) /\ scaleRange (fitWidthScale st).

(** The generation token a suspended call captured, if it captured one. *)
Definition frameToken (f : Frame) : option nat :=
  match f with
  | AwaitPdfJs token _ => Some token
  | AwaitDocument token => Some token
  | AwaitPage token _ _ _ => Some token
  | AwaitRender token _ _ _ => Some token
  | AwaitFrames token => Some token
  | AwaitInitFrame => None
  | AwaitRestoreFrame _ _ => None
  end.

Fixpoint pendingTokens (frames : list Frame) : list nat :=
  match frames with
  | [] => []
  | f :: rest =>
      match frameToken f with
      | Some token => token :: pendingTokens rest
      | None => pendingTokens rest
      end
  end.

(** The continuations an operation of generation [token] leaves behind:
    none that carries a token, or one that carries [token]. *)
Definition spawnsFor (token : nat) (frames : list Frame) : Prop :=
  pendingTokens frames = [] \/ pendingTokens frames = [token].

(** What a synchronous entry point does to the generation: it leaves the
    token and suspends nothing that carries one, or it moves to the next
    token and suspends at most one continuation, of that token. *)
Definition startsAtMostOne (st : Controller) (res : Controller * list Frame)
    : Prop :=
  (renderToken (fst res) = renderToken st /\ pendingTokens (snd res) = [])
  \/ (renderToken (fst res) = S (renderToken st)
      /\ spawnsFor (S (renderToken st)) (snd res)).

(** The continuations that await a promise of the rendering capability,
    which may be rejected (the others await animation frames). *)
Definition awaitsPromise (f : Frame) : bool :=
  match f with
  | AwaitPdfJs _ _ | AwaitDocument _ | AwaitPage _ _ _ _
  | AwaitRender _ _ _ _ => true
  | AwaitInitFrame | AwaitFrames _ | AwaitRestoreFrame _ _ => false
  end.

(** No two pending continuations carry the same token and none carries a
    token newer than the current one. *)
Definition tokensOk (sys : System) : Prop :=
  NoDup (pendingTokens (pending sys))
  /\ Forall (fun token => token <= renderToken (ctrl sys))
       (pendingTokens (pending sys)).

(** One iteration of the loop of [renderAllPages] under the current
    token: the state when the loop suspends on the page's rasterization. *)
Definition appendPage (token : nat) (page : PDFPageProxy) (st : Controller)
    : Controller :=
  let canvas :=
    fst (renderPageToCanvas page createCanvas (currentScale st) token st) in
  let wrapper := {| wr_id := nextId st; wr_canvas := canvas |} in
  st |> set_nextId (S (nextId st))
     |> set_pagesHost (pagesHost st ++ [wrapper])
     |> set_pageWrappers (pageWrappers st ++ [wrapper])
     |> set_pageCanvases (pageCanvases st ++ [canvas])
     |> set_calls (CallRender page (currentScale st) :: calls st).

(** The first three statements of [renderAllPages]. *)
Definition clearedForRender (st : Controller) : Controller :=
  st |> set_pagesHost [] |> set_pageCanvases [] |> set_pageWrappers [].

(** The canvas a page is given by a render pass started in a state. *)
Definition canvasOf (st : Controller) (page : PDFPageProxy) : Canvas :=
  fst (renderPageToCanvas page createCanvas (currentScale st)
         (renderToken st) st).

(** The wrapper a render pass started in a state creates for the page at a
    position: wrappers are numbered from the state's next free identifier. *)
Definition wrapperAt (st : Controller) (ip : nat * PDFPageProxy) : Wrapper :=
  {| wr_id := nextId st + fst ip; wr_canvas := canvasOf st (snd ip) |}.

(** The settlements of [n] awaited rasterizations or frames, each of the
    continuation that is first in the pending list. *)
Definition settlements (n : nat) : list Event :=
  repeat (EvSettle 0 (Fulfilled VUnit)) n.

(** A system whose controller state and pending continuations are the
    result of a synchronous block. *)
Definition after (wiredNow : bool) (res : Controller * list Frame) : System :=
  {| ctrl := fst res; pending := snd res; wired := wiredNow |}.

(** The settlements of the [getPage] promises of a load with the given
    pages, in the order the loop awaits them. *)
Definition pageSettlements (ps : list PDFPageProxy) : list Event :=
  map (fun p => EvSettle 0 (Fulfilled (VPage p))) ps.

(** The fields the page loop of [loadFromDataUri] leaves alone. *)
Definition loadContext (st : Controller)
    : nat * option PDFDocumentProxy * (number * number * number) * number
      * Geometry * nat :=
  (renderToken st, doc st, zoomConfig st, fitWidthScale st, geometry st,
   nextId st).

(** What neither the page loop of a load nor a render pass touches: the
    token, the zoom configuration, the layout, the scroll offsets, the
    overlay and the banner, and the last identifier. *)
Definition ambient (st : Controller)
    : nat * (number * number * number) * Geometry * (Q * Q)
      * (bool * bool * string) * option (list ascii) :=
  (renderToken st, zoomConfig st, geometry st, (scrollTop st, scrollLeft st),
   (overlayShown st, errorShown st, errorText st), lastDataUri st).

(** The settlements of a load that nothing supersedes: the import of the
    rendering library, the document, its pages, the rasterizations of the
    first pass, the two animation frames, the rasterizations of the second
    pass. *)
Definition loadSettlements (d : PDFDocumentProxy) (ps : list PDFPageProxy)
    : list Event :=
  EvSettle 0 (Fulfilled VUnit)
    :: (EvSettle 0 (Fulfilled (VDocument d)) :: pageSettlements ps)
    ++ settlements (length ps)
    ++ EvSettle 0 (Fulfilled VUnit) :: settlements (length ps).

(** The three lists of the page view: the canvases, the wrappers, and the
    children of the pages host. *)
Definition view (st : Controller)
    : list Canvas * list Wrapper * list Wrapper :=
  (pageCanvases st, pageWrappers st, pagesHost st).

(** The lists agree: the canvases are those of the wrappers and, while the
    controller is attached, the wrappers are the children of the host. *)
Definition viewOk (attached : bool)
    (v : list Canvas * list Wrapper * list Wrapper) : Prop :=
  fst (fst v) = map wr_canvas (snd (fst v))
  /\ (attached = true -> snd v = snd (fst v)).

(** The first statements of [updateView]: the three zoom parameters,
    each with its default and its clamp. *)
Definition configure (context : Inputs) (st : Controller) : Controller :=
  let st :=
    st |> set_minZoom
            (clampNumber (orElse (in_minZoom context) (Fin (5 # 10)))
               (Fin (1 # 10)) (Fin (5 # 1))) in
  let st :=
    st |> set_maxZoom
            (clampNumber (orElse (in_maxZoom context) (Fin (3 # 1)))
               (minZoom st) (Fin (10 # 1))) in
  st |> set_zoomStep
          (clampNumber (orElse (in_zoomStep context) (Fin (1 # 10)))
             (Fin (1 # 100)) (Fin 1)).

(** ** Panning with the mouse

    The five pan fields of the controller, with the two styles the
    handlers set.  The scroll events the assignments cause are delivered
    separately, as [EvScroll]. *)
Record Pan : Type := {
  isPanning : bool;
  panStartX : Q;
  panStartY : Q;
  panStartScrollLeft : Q;
  panStartScrollTop : Q;
  viewportCursor : string;
  bodyUserSelect : string
}.

(** [onMouseDown(e)] with [e.button], [e.clientX], [e.clientY] *)
Definition onMouseDown (button : Z) (clientX clientY : Q)
    (s : Pan * Controller) : Pan * Controller :=
  if negb (button =? 0)%Z then s
  else
    ({| isPanning := true;
        panStartX := clientX;
        panStartY := clientY;
        panStartScrollLeft := scrollLeft (snd s);
        panStartScrollTop := scrollTop (snd s);
        viewportCursor := "grabbing";
        bodyUserSelect := "none" |},
     snd s).

(** [onMouseMove(e)] *)
Definition onMouseMove (clientX clientY : Q) (s : Pan * Controller)
    : Pan * Controller :=
  if negb (isPanning (fst s)) then s
  else
    let dx := (clientX - panStartX (fst s))%Q in
    let dy := (clientY - panStartY (fst s))%Q in
    (fst s,
     snd s |> set_scrollLeft (panStartScrollLeft (fst s) - dx)%Q
           |> set_scrollTop (panStartScrollTop (fst s) - dy)%Q).

(** [onMouseUp()] *)
Definition onMouseUp (s : Pan * Controller) : Pan * Controller :=
  if negb (isPanning (fst s)) then s
  else
    ({| isPanning := false;
        panStartX := panStartX (fst s);
        panStartY := panStartY (fst s);
        panStartScrollLeft := panStartScrollLeft (fst s);
        panStartScrollTop := panStartScrollTop (fst s);
        viewportCursor := "default";
        bodyUserSelect := "" |},
     snd s).

(** A drag: the pointer positions of its [mousemove] events, in order. *)
Definition drag (moves : list (Q * Q)) (s : Pan * Controller)
    : Pan * Controller :=
  fold_left (fun s m => onMouseMove (fst m) (snd m) s) moves s.

(** The string [dataUriToBytes] strips of white space and hands to
    [atob]: the trimmed input, without everything up to its first comma
    when it starts with [data:] and has a comma. *)
Definition payloadOf (input : list ascii) : list ascii :=
  let s := trim input in
  match indexOf ","%char s with
  | Some i =>
      if startsWith (list_ascii_of_string "data:") s
      then substring (i + 1) s else s
  | None => s
  end.

(** A character that is neither of the base64 alphabet, nor the padding
    sign, nor white space. *)
Definition foreign (c : ascii) : bool :=
  match Base64.sextet_of_char c with
  | Some _ => false
  | None => negb (Ascii.eqb c "="%char) && negb (isWhiteSpace c)
  end.

(** ** Clamping *)

(** X1. For finite ordered bounds [clampNumber] always returns a finite
    value within the bounds, whatever it is given: a non-finite value gives
    the lower bound, a value inside the bounds is returned as it is, a value
    below gives the lower and a value above the upper bound. *)
Theorem clampNumber_total_clamp (v : number) (lo hi : Q) :
  (lo <= hi)%Q ->
  within (Fin lo) (Fin hi) (clampNumber v (Fin lo) (Fin hi))
  /\ (isFinite v = false -> clampNumber v (Fin lo) (Fin hi) = Fin lo)
  /\ (forall q, v = Fin q ->
        ((lo <= q <= hi)%Q ->
           num_eq (clampNumber v (Fin lo) (Fin hi)) (Fin q))
        /\ ((q <= lo)%Q -> num_eq (clampNumber v (Fin lo) (Fin hi)) (Fin lo))
        /\ ((hi <= q)%Q -> num_eq (clampNumber v (Fin lo) (Fin hi)) (Fin hi))).
Proof.
  intros Hle. split; [now apply clampNumber_within |].
  split; [apply clampNumber_not_finite |].
  intros q ->. split; [now apply clampNumber_id |]. split; intros H.
  - cbn. apply Q.max_l. apply Qle_trans with (y := q); [apply Q.le_min_r | exact H].
  - cbn. rewrite Q.min_l by exact H. now apply Q.max_r.
Qed.

Lemma clampNumber_total_clamp_witness :
  within (Fin (5 # 10)) (Fin 3) (clampNumber NaN (Fin (5 # 10)) (Fin 3)).
Proof.
  destruct (clampNumber_total_clamp NaN (5 # 10) 3) as (H & _).
  - vm_compute. discriminate.
  - exact H.
Defined.

(** ** The zoom configuration and the two scales *)

Section ScalesInvariant.

Local Open Scope Q_scope.

Lemma within_widen (lo hi : Q) (v : number) :
  1 # 10 <= lo -> hi <= 10 -> within (Fin lo) (Fin hi) v -> scaleRange v.
Proof.
  intros Hlo Hhi H. destruct (within_finite lo hi v H) as (q & -> & Hq).
  unfold scaleRange. cbn. lra.
Qed.

Lemma scaleRange_one : scaleRange (Fin 1).
Proof. unfold scaleRange. cbn. lra. Qed.

Lemma scalesOk_ext (st st' : Controller) :
  scales st' = scales st -> scalesOk st -> scalesOk st'.
Proof.
  intros E [H1 H2]. apply scales_inv in E. destruct E as [E1 E2].
  unfold scalesOk. now rewrite E1, E2.
Qed.

Lemma clampNumber_scaleRange (v : number) (st : Controller) :
  boundsOk st -> scaleRange (clampNumber v (minZoom st) (maxZoom st)).
Proof.
  intros (lo & hi & -> & -> & Hlo & Hhi).
  apply within_widen with (lo := lo) (hi := hi); try lra.
  apply clampNumber_within. lra.
Qed.

Lemma computeFitWidthScale_scaleRange (st : Controller) :
  boundsOk st -> scaleRange (fitWidthScale (computeFitWidthScale st)).
Proof.
  intros Hb. unfold computeFitWidthScale.
  destruct (thisPages st); fields.
  - apply scaleRange_one.
  - now apply clampNumber_scaleRange.
Qed.

Lemma computeFitWidthScale_scalesOk (st : Controller) :
  boundsOk st -> scalesOk st -> scalesOk (computeFitWidthScale st).
Proof.
  intros Hb [H1 H2]. split.
  - destruct (computeFitWidthScale_keeps st) as (_ & -> & _). exact H1.
  - now apply computeFitWidthScale_scaleRange.
Qed.

Lemma boundsOk_computeFitWidthScale (st : Controller) :
  boundsOk st -> boundsOk (computeFitWidthScale st).
Proof.
  apply boundsOk_ext. apply computeFitWidthScale_keeps.
Qed.

Lemma setScale_scalesOk (scale : number) (opts : option bool)
    (st : Controller) :
  boundsOk st -> scalesOk st -> scalesOk (fst (setScale scale opts st)).
Proof.
  intros Hb [H1 H2].
  destruct (setScale_keeps scale opts st) as (_ & E1 & E2).
  split; [rewrite E1 | rewrite E2; exact H2].
  now apply clampNumber_scaleRange.
Qed.

Lemma onResize_scalesOk (st : Controller) :
  boundsOk st -> scalesOk st -> scalesOk (fst (onResize st)).
Proof.
  intros Hb Hs. unfold onResize.
  destruct (thisPages st); [exact Hs |]. cbv zeta.
  destruct (leb _ _).
  - apply setScale_scalesOk.
    + now apply boundsOk_computeFitWidthScale.
    + now apply computeFitWidthScale_scalesOk.
  - cbn [fst]. now apply computeFitWidthScale_scalesOk.
Qed.

Lemma onResetFit_fst (st : Controller) :
  fst (onResetFit st)
  = set_scrollTop 0
      (fst (setScale (fitWidthScale (computeFitWidthScale st)) None
              (computeFitWidthScale st))).
Proof.
  unfold onResetFit. cbv zeta. now destruct (setScale _ _ _).
Qed.

Lemma onResetFit_scalesOk (st : Controller) :
  boundsOk st -> scalesOk st -> scalesOk (fst (onResetFit st)).
Proof.
  intros Hb Hs. rewrite onResetFit_fst.
  apply scalesOk_ext
    with (st := fst (setScale (fitWidthScale (computeFitWidthScale st)) None
                       (computeFitWidthScale st))); [reflexivity |].
  apply setScale_scalesOk.
  - now apply boundsOk_computeFitWidthScale.
  - now apply computeFitWidthScale_scalesOk.
Qed.

Lemma loadFromDataUri_scales (dataUri : list ascii) (st : Controller) :
  scales (fst (loadFromDataUri dataUri st)) = scales st.
Proof.
  unfold loadFromDataUri. cbv zeta.
  destruct (_ || _); [reflexivity |].
  destruct (dataUriToBytes _) as [bytes | msg].
  - destruct (negb _).
    + cbn [fst].
      match goal with
      | |- scales (finallySetLoading ?t ?s) = _ =>
          destruct (finallySetLoading_keeps t s) as (_ & H & _); now rewrite H
      end.
    + destruct (stale _ _); [| reflexivity]. cbn [fst].
      match goal with
      | |- scales (finallySetLoading ?t ?s) = _ =>
          destruct (finallySetLoading_keeps t s) as (_ & H & _); now rewrite H
      end.
  - cbn [fst].
    match goal with
    | |- scales (loadCatch ?t ?m ?s) = _ =>
        destruct (loadCatch_keeps t m s) as (_ & H & _); now rewrite H
    end.
Qed.

Lemma loadPageLoop_scalesOk (token : nat) (d : PDFDocumentProxy)
    (i pageCount : nat) (st : Controller) :
  scalesOk st -> scalesOk (fst (loadPageLoop token d i pageCount st)).
Proof.
  intros Hs. unfold loadPageLoop. destruct (i <=? pageCount).
  - destruct (stale token st); cbn [fst].
    + apply scalesOk_ext with (st := st); [| exact Hs].
      apply finallySetLoading_keeps.
    + exact Hs.
  - apply scalesOk_ext with (st := set_currentScale (Fin 1) st).
    + apply renderAllPages_keeps.
    + destruct Hs as [_ H2]. split; [apply scaleRange_one | exact H2].
Qed.

Lemma resume_scalesOk (f : Frame) (r : Settled) (st : Controller)
    (res : Controller * list Frame) :
  boundsOk st -> scalesOk st ->
  resume f r st = Some res -> scalesOk (fst res).
Proof.
  intros Hb Hs.
  destruct f; destruct r as [[| d' | p'] | msg]; cbn [resume];
    intros H; try discriminate H; injection H as <-; cbn [fst].
  - apply scalesOk_ext with (st := st); [| exact Hs].
    now destruct (updateNavUi_keeps (updateZoomUi st)) as (_ & -> & _).
  - exact Hs.
  - apply scalesOk_ext with (st := st); [apply loadCatch_keeps | exact Hs].
  - destruct (stale token st); cbn [fst].
    + apply scalesOk_ext with (st := st);
        [apply finallySetLoading_keeps | exact Hs].
    + now apply loadPageLoop_scalesOk.
  - apply scalesOk_ext with (st := st); [apply loadCatch_keeps | exact Hs].
  - now apply loadPageLoop_scalesOk.
  - apply scalesOk_ext with (st := st); [apply loadCatch_keeps | exact Hs].
  - apply scalesOk_ext with (st := st); [apply renderLoop_keeps | exact Hs].
  - apply scalesOk_ext with (st := st); [| exact Hs].
    unfold throwFromRenderAllPages. destruct caller; cbn [fst];
      try apply loadCatch_keeps; apply finallySetLoading_keeps.
  - match goal with
    | |- scalesOk (fst (renderAllPages ?t ?c ?s)) =>
        apply scalesOk_ext with (st := s); [apply renderAllPages_keeps |]
    end.
    pose proof (computeFitWidthScale_scaleRange st Hb) as Hfit.
    split; exact Hfit.
  - exact Hs.
Qed.

Lemma updateView_scalesOk (context : Inputs) (st : Controller) :
  scalesOk st -> scalesOk (fst (updateView context st)).
Proof.
  intros Hs. unfold updateView. cbv zeta.
  match goal with
  | |- scalesOk (fst (if _ then loadFromDataUri ?u ?s else onResize ?s')) =>
      assert (Hb : boundsOk s');
      [| assert (Hs' : scalesOk s') by exact Hs;
         destruct (negb _);
         [ apply scalesOk_ext with (st := s');
           [ now rewrite loadFromDataUri_scales | exact Hs' ]
         | now apply onResize_scalesOk ] ]
  end.
  destruct (clampNumber_finite (orElse (in_minZoom context) (Fin (5 # 10)))
              (1 # 10) 5) as (lo & Elo & Hlo); [lra |].
  destruct (clampNumber_finite (orElse (in_maxZoom context) (Fin (3 # 1)))
              lo 10) as (hi & Ehi & Hhi); [lra |].
  exists lo, hi. fields. rewrite Elo, Ehi. now repeat split.
Qed.

Lemma step_scalesOk (ev : Event) (sys : System) :
  boundsOk (ctrl sys) -> scalesOk (ctrl sys) -> scalesOk (ctrl (step ev sys)).
Proof.
  intros Hb H. destruct ev; cbn [step].
  all: try (destruct (wired sys); [| exact H]; cbn [ctrl spawn fst]).
  - now apply updateView_scalesOk.
  - now apply onResize_scalesOk.
  - exact H.
  - apply scalesOk_ext with (2 := H). unfold onViewportScroll.
    destruct (updateNavUi_keeps
                (set_scrollLeft newLeft (set_scrollTop newTop (ctrl sys))))
      as (_ & E & _).
    now rewrite E.
  - unfold onWheel. cbv zeta. now apply setScale_scalesOk.
  - now apply onResetFit_scalesOk.
  - apply scalesOk_ext with (2 := H). unfold onPrevClick, scrollToPage.
    destruct (_ <? _)%Z; [reflexivity |]. now destruct (nth_error _ _).
  - apply scalesOk_ext with (2 := H). unfold onNextClick, scrollToPage.
    destruct (_ <? _)%Z; [reflexivity |]. now destruct (nth_error _ _).
  - destruct (nth_error (pending sys) i) as [f |]; [| exact H].
    destruct (resume f r (ctrl sys)) as [[st' spawned] |] eqn:E; [| exact H].
    cbn [ctrl]. apply (resume_scalesOk _ _ _ _ Hb H E).
  - exact H.
Qed.

Lemma reachable_scalesOk (sys : System) :
  reachable sys -> boundsOk (ctrl sys) /\ scalesOk (ctrl sys).
Proof.
  intros (g & events & ->).
  induction events as [| ev events IH] using rev_ind.
  - split.
    + exists (5 # 10), 3. cbn. repeat split; lra.
    + split; apply scaleRange_one.
  - rewrite run_snoc. destruct IH as [Hb Hs]. split.
    + now apply step_boundsOk.
    + now apply step_scalesOk.
Qed.

End ScalesInvariant.

(** X2. Whatever raw values the host supplies (absent, NaN, infinite, out
    of range), after [updateView] the configuration is finite with
    0.1 <= minZoom <= 5, minZoom <= maxZoom <= 10 and 0.01 <= zoomStep <= 1.
    An absent minZoom gives 0.5 and an absent zoomStep gives 0.1; an absent
    maxZoom gives 3 clamped from below by the configured minimum, that is
    max(minZoom, 3): it is 3 when minZoom is absent too, and 5 when minZoom
    is 5. *)
Theorem updateView_clamps_configuration (context : Inputs) (st : Controller) :
  let st' := fst (updateView context st) in
  (exists lo hi z,
      minZoom st' = Fin lo /\ maxZoom st' = Fin hi /\ zoomStep st' = Fin z
      /\ (1 # 10 <= lo <= 5)%Q /\ (lo <= hi <= 10)%Q
      /\ (1 # 100 <= z <= 1)%Q)
  /\ (in_minZoom context = None -> minZoom st' = Fin (5 # 10))
  /\ (in_maxZoom context = None ->
      forall lo, minZoom st' = Fin lo -> maxZoom st' = Fin (Qmax lo 3))
  /\ (in_minZoom context = None -> in_maxZoom context = None ->
      maxZoom st' = Fin (3 # 1))
  /\ (in_zoomStep context = None -> zoomStep st' = Fin (1 # 10)).
Proof.
  cbv zeta.
  assert (Hcfg : zoomConfig (fst (updateView context st))
                 = (clampNumber (orElse (in_minZoom context) (Fin (5 # 10)))
                      (Fin (1 # 10)) (Fin (5 # 1)),
                    clampNumber (orElse (in_maxZoom context) (Fin (3 # 1)))
                      (clampNumber
                         (orElse (in_minZoom context) (Fin (5 # 10)))
                         (Fin (1 # 10)) (Fin (5 # 1)))
                      (Fin (10 # 1)),
                    clampNumber (orElse (in_zoomStep context) (Fin (1 # 10)))
                      (Fin (1 # 100)) (Fin 1))).
  { unfold updateView. cbv zeta. destruct (negb _).
    - now rewrite loadFromDataUri_keeps.
    - now rewrite onResize_keeps. }
  unfold zoomConfig in Hcfg. injection Hcfg as E1 E2 E3.
  rewrite E1, E2, E3. split; [| split; [| split; [| split]]].
  - destruct (clampNumber_finite (orElse (in_minZoom context) (Fin (5 # 10)))
                (1 # 10) 5) as (lo & Elo & Hlo); [lra |].
    rewrite Elo.
    destruct (clampNumber_finite (orElse (in_maxZoom context) (Fin (3 # 1)))
                lo 10) as (hi & Ehi & Hhi); [lra |].
    destruct (clampNumber_finite (orElse (in_zoomStep context) (Fin (1 # 10)))
                (1 # 100) 1) as (z & Ez & Hz); [lra |].
    exists lo, hi, z. rewrite Ehi, Ez. now repeat split.
  - intros ->. reflexivity.
  - intros -> lo ->. reflexivity.
  - intros -> ->. reflexivity.
  - intros ->. reflexivity.
Qed.

(** X3. In every reachable state the current scale and the fit scale are
    finite values between 0.1 and 10, and the bounds are finite with
    0.1 <= minZoom <= maxZoom <= 10. *)
Theorem reachable_scales_bounded (sys : System) :
  reachable sys ->
  exists lo hi c f,
    minZoom (ctrl sys) = Fin lo /\ maxZoom (ctrl sys) = Fin hi
    /\ currentScale (ctrl sys) = Fin c /\ fitWidthScale (ctrl sys) = Fin f
    /\ (1 # 10 <= lo)%Q /\ (lo <= hi)%Q /\ (hi <= 10)%Q
    /\ (1 # 10 <= c <= 10)%Q /\ (1 # 10 <= f <= 10)%Q.
Proof.
  intros Hr.
  destruct (reachable_scalesOk sys Hr)
    as [(lo & hi & Hlo & Hhi & H1 & H2) [Hc Hf]].
  destruct (within_finite _ _ _ Hc) as (c & Ec & Hcr).
  destruct (within_finite _ _ _ Hf) as (f & Ef & Hfr).
  exists lo, hi, c, f. repeat split; try assumption; lra.
Qed.

(** ** Generations and pending continuations *)

Section Generations.

Lemma pendingTokens_app (l1 l2 : list Frame) :
  pendingTokens (l1 ++ l2) = pendingTokens l1 ++ pendingTokens l2.
Proof.
  induction l1 as [| f l1 IH]; [reflexivity |].
  cbn [app pendingTokens]. destruct (frameToken f); now rewrite IH.
Qed.

Lemma remove_nth_split {A : Type} (l : list A) (i : nat) (a : A) :
  nth_error l i = Some a ->
  exists l1 l2, l = l1 ++ a :: l2 /\ remove_nth i l = l1 ++ l2.
Proof.
  revert i. induction l as [| x l IH]; intros [| i] H; try discriminate H.
  - injection H as ->. now exists [], l.
  - destruct (IH i H) as (l1 & l2 & -> & E).
    exists (x :: l1), l2. cbn. now rewrite E.
Qed.

Lemma afterRenderAllPages_spawns (caller : RenderCaller) (token : nat)
    (st : Controller) :
  spawnsFor token (snd (afterRenderAllPages caller token st)).
Proof.
  unfold afterRenderAllPages.
  destruct caller; destruct (stale token st); cbn; (now left) || (now right).
Qed.

Lemma renderLoop_spawns (token : nat) (arr : ArrayRef) (caller : RenderCaller)
    (rest : list PDFPageProxy) (idx : nat) (st : Controller) :
  spawnsFor token (snd (renderLoop token arr caller rest idx st)).
Proof.
  revert idx st. induction rest as [| page rest IH]; intros idx st.
  - apply afterRenderAllPages_spawns.
  - cbn [renderLoop]. destruct (stale token st).
    + apply afterRenderAllPages_spawns.
    + destruct (renderPageToCanvas _ _ _ _ _) as [canvas [c |]].
      * now right.
      * apply IH.
Qed.

Lemma renderAllPages_spawns (token : nat) (caller : RenderCaller)
    (st : Controller) :
  spawnsFor token (snd (renderAllPages token caller st)).
Proof. unfold renderAllPages. apply renderLoop_spawns. Qed.

Lemma loadPageLoop_spawns (token : nat) (d : PDFDocumentProxy)
    (i pageCount : nat) (st : Controller) :
  spawnsFor token (snd (loadPageLoop token d i pageCount st))
  /\ renderToken (fst (loadPageLoop token d i pageCount st)) = renderToken st.
Proof.
  unfold loadPageLoop. destruct (i <=? pageCount).
  - destruct (stale token st); cbn [fst snd].
    + split; [now left | apply finallySetLoading_keeps].
    + split; [now right | reflexivity].
  - split; [apply renderAllPages_spawns |].
    now destruct (renderAllPages_keeps token FirstPass
                    (set_currentScale (Fin 1) st)) as (_ & _ & ->).
Qed.

(** Resuming a continuation never changes the token, and what it suspends
    in turn carries the token it captured. *)
Lemma resume_generation (f : Frame) (r : Settled) (st : Controller)
    (res : Controller * list Frame) :
  resume f r st = Some res ->
  renderToken (fst res) = renderToken st
  /\ match frameToken f with
     | Some token => spawnsFor token (snd res)
     | None => pendingTokens (snd res) = []
     end.
Proof.
  destruct f; destruct r as [[| d' | p'] | msg]; cbn [resume frameToken];
    intros H; try discriminate H; injection H as <-; cbn [fst snd].
  - split; [| reflexivity].
    now destruct (updateNavUi_keeps (updateZoomUi st)) as (_ & _ & ->).
  - split; [reflexivity | now right].
  - split; [apply loadCatch_keeps | now left].
  - destruct (stale token st); cbn [fst snd].
    + split; [apply finallySetLoading_keeps | now left].
    + match goal with
      | |- context [loadPageLoop ?t ?d ?i ?n ?s] =>
          destruct (loadPageLoop_spawns t d i n s) as [H1 H2]
      end.
      split; [now rewrite H2 | exact H1].
  - split; [apply loadCatch_keeps | now left].
  - match goal with
    | |- context [loadPageLoop ?t ?d ?i ?n ?s] =>
        destruct (loadPageLoop_spawns t d i n s) as [H1 H2]
    end.
    split; [now rewrite H2 | exact H1].
  - split; [apply loadCatch_keeps | now left].
  - split; [apply renderLoop_keeps | apply renderLoop_spawns].
  - split.
    + unfold throwFromRenderAllPages. destruct caller; cbn [fst];
        try apply loadCatch_keeps; apply finallySetLoading_keeps.
    + unfold throwFromRenderAllPages. destruct caller; now left.
  - split; [| apply renderAllPages_spawns].
    match goal with
    | |- context [renderAllPages ?t ?c ?s] =>
        destruct (renderAllPages_keeps t c s) as (_ & _ & H)
    end.
    rewrite H. fields. unfold computeFitWidthScale.
    now destruct (thisPages st).
  - split; reflexivity.
Qed.

Lemma loadFromDataUri_generation (dataUri : list ascii) (st : Controller) :
  renderToken (fst (loadFromDataUri dataUri st)) = S (renderToken st)
  /\ spawnsFor (S (renderToken st)) (snd (loadFromDataUri dataUri st)).
Proof.
  unfold loadFromDataUri. cbv zeta.
  destruct (_ || _); [split; [reflexivity | now left] |].
  destruct (dataUriToBytes _) as [bytes | msg].
  - destruct (negb _).
    + cbn [fst snd]. split; [| now left].
      match goal with
      | |- renderToken (finallySetLoading ?t ?s) = _ =>
          now destruct (finallySetLoading_keeps t s) as (_ & _ & ->)
      end.
    + destruct (stale _ _); cbn [fst snd].
      * split; [| now left].
        match goal with
        | |- renderToken (finallySetLoading ?t ?s) = _ =>
            now destruct (finallySetLoading_keeps t s) as (_ & _ & ->)
        end.
      * split; [reflexivity | now right].
  - cbn [fst snd]. split; [| now left].
    match goal with
    | |- renderToken (loadCatch ?t ?m ?s) = _ =>
        now destruct (loadCatch_keeps t m s) as (_ & _ & ->)
    end.
Qed.

Lemma applyScale_generation (scale : number) (st : Controller) :
  startsAtMostOne st (applyScale scale st).
Proof.
  unfold applyScale.
  destruct (doc st); [| now left].
  destruct (thisPages st); [now left |]. right. cbv zeta. split.
  - match goal with
    | |- context [renderAllPages ?t ?c ?s] =>
        now destruct (renderAllPages_keeps t c s) as (_ & _ & ->)
    end.
  - apply renderAllPages_spawns.
Qed.

Lemma startsAtMostOne_ext (st st' : Controller)
    (res : Controller * list Frame) :
  renderToken st' = renderToken st ->
  startsAtMostOne st' res -> startsAtMostOne st res.
Proof. unfold startsAtMostOne. now intros ->. Qed.

Lemma computeFitWidthScale_token (st : Controller) :
  renderToken (computeFitWidthScale st) = renderToken st.
Proof. unfold computeFitWidthScale. now destruct (thisPages st). Qed.

Lemma setScale_generation (scale : number) (opts : option bool)
    (st : Controller) :
  startsAtMostOne st (setScale scale opts st).
Proof.
  unfold setScale. cbv zeta.
  destruct (match opts with Some b => b | None => true end).
  - eapply startsAtMostOne_ext; [| apply applyScale_generation]. reflexivity.
  - now left.
Qed.

Lemma onResize_generation (st : Controller) :
  startsAtMostOne st (onResize st).
Proof.
  unfold onResize. destruct (thisPages st); [now left |]. cbv zeta.
  destruct (leb _ _).
  - eapply startsAtMostOne_ext; [| apply setScale_generation].
    apply computeFitWidthScale_token.
  - left. split; [apply computeFitWidthScale_token | reflexivity].
Qed.

Lemma onResetFit_generation (st : Controller) :
  startsAtMostOne st (onResetFit st).
Proof.
  unfold onResetFit. cbv zeta.
  pose proof (setScale_generation
                (fitWidthScale (computeFitWidthScale st)) None
                (computeFitWidthScale st)) as H.
  destruct (setScale _ _ _) as [st' spawned].
  apply startsAtMostOne_ext with (st' := computeFitWidthScale st);
    [apply computeFitWidthScale_token |].
  exact H.
Qed.

Lemma updateView_generation (context : Inputs) (st : Controller) :
  startsAtMostOne st (updateView context st).
Proof.
  unfold updateView. cbv zeta. destruct (negb _).
  - right.
    match goal with
    | |- context [loadFromDataUri ?u ?s] =>
        destruct (loadFromDataUri_generation u s) as [H1 H2]
    end.
    split; [exact H1 | exact H2].
  - eapply startsAtMostOne_ext; [| apply onResize_generation]. reflexivity.
Qed.

Lemma tokensOk_spawn (sys : System) (res : Controller * list Frame) :
  startsAtMostOne (ctrl sys) res -> tokensOk sys -> tokensOk (spawn sys res).
Proof.
  unfold tokensOk, spawn. cbn [ctrl pending].
  intros Hstart [Hnd Hle]. rewrite pendingTokens_app.
  destruct Hstart as [[Ht Hs] | [Ht [Hs | Hs]]]; rewrite Ht, Hs.
  - rewrite app_nil_r. now split.
  - rewrite app_nil_r. split; [exact Hnd |].
    eapply Forall_impl; [| exact Hle]. cbn. intros; lia.
  - split.
    + apply NoDup_app; [exact Hnd | repeat constructor; intros [] |].
      intros a Hin [<- | []].
      rewrite Forall_forall in Hle. specialize (Hle _ Hin). cbn in Hle. lia.
    + apply Forall_app. split.
      * eapply Forall_impl; [| exact Hle]. cbn. intros; lia.
      * repeat constructor.
Qed.

Lemma tokensOk_settle (sys : System) (i : nat) (f : Frame) (r : Settled)
    (res : Controller * list Frame) :
  nth_error (pending sys) i = Some f ->
  resume f r (ctrl sys) = Some res ->
  tokensOk sys ->
  tokensOk {| ctrl := fst res;
              pending := remove_nth i (pending sys) ++ snd res;
              wired := wired sys |}.
Proof.
  intros Hnth Hres [Hnd Hle].
  destruct (remove_nth_split _ _ _ Hnth) as (l1 & l2 & E & ->).
  destruct (resume_generation _ _ _ _ Hres) as [Ht Hs].
  unfold tokensOk. cbn [ctrl pending]. rewrite Ht.
  rewrite E in Hnd, Hle. rewrite pendingTokens_app in Hnd, Hle.
  cbn [pendingTokens] in Hnd, Hle.
  rewrite !pendingTokens_app.
  destruct (frameToken f) as [token |].
  - pose proof (NoDup_remove _ _ _ Hnd) as [Hnd' Hnotin].
    apply Forall_app in Hle. destruct Hle as [Hle1 Hle2].
    inversion Hle2 as [| ? ? Htok Hle2']; subst.
    destruct Hs as [-> | ->].
    + rewrite app_nil_r. split; [exact Hnd' |].
      apply Forall_app. now split.
    + split.
      * apply NoDup_app; [exact Hnd' | repeat constructor; intros [] |].
        intros a Hin [<- | []]. now apply Hnotin.
      * apply Forall_app. split; [apply Forall_app; now split |].
        now repeat constructor.
  - rewrite Hs, app_nil_r. now split.
Qed.

(** Every event keeps the invariant, and no event lowers the token. *)
Lemma step_tokensOk (ev : Event) (sys : System) :
  tokensOk sys ->
  tokensOk (step ev sys)
  /\ renderToken (ctrl sys) <= renderToken (ctrl (step ev sys)).
Proof.
  intros H.
  assert (Hspawn : forall res,
            startsAtMostOne (ctrl sys) res ->
            tokensOk (spawn sys res)
            /\ renderToken (ctrl sys) <= renderToken (ctrl (spawn sys res))).
  { intros res Hres. split; [now apply tokensOk_spawn |].
    cbn [spawn ctrl]. destruct Hres as [[-> _] | [-> _]]; lia. }
  assert (Hsame : forall st',
            renderToken st' = renderToken (ctrl sys) ->
            startsAtMostOne (ctrl sys) (st', [])).
  { intros st' E. left. now split. }
  destruct ev; cbn [step].
  all: try (destruct (wired sys); [| split; [exact H | lia]]).
  - apply Hspawn, updateView_generation.
  - apply Hspawn, onResize_generation.
  - apply Hspawn, Hsame. reflexivity.
  - apply Hspawn, Hsame. unfold onViewportScroll.
    now destruct (updateNavUi_keeps
                    (set_scrollLeft newLeft (set_scrollTop newTop (ctrl sys))))
      as (_ & _ & ->).
  - apply Hspawn. unfold onWheel. cbv zeta. apply setScale_generation.
  - apply Hspawn, onResetFit_generation.
  - apply Hspawn, Hsame. unfold onPrevClick, scrollToPage.
    destruct (_ <? _)%Z; [reflexivity |]. now destruct (nth_error _ _).
  - apply Hspawn, Hsame. unfold onNextClick, scrollToPage.
    destruct (_ <? _)%Z; [reflexivity |]. now destruct (nth_error _ _).
  - destruct (nth_error (pending sys) i) as [f |] eqn:Hnth;
      [| split; [exact H | lia]].
    destruct (resume f r (ctrl sys)) as [[st' spawned] |] eqn:E;
      [| split; [exact H | lia]].
    split.
    + apply (tokensOk_settle sys i f r (st', spawned) Hnth E H).
    + cbn [ctrl].
      destruct (resume_generation _ _ _ _ E) as [Ht _]. cbn [fst] in Ht.
      rewrite Ht. lia.
  - destruct H as [Hnd Hle]. split; [| cbn; lia].
    split; [exact Hnd |]. cbn [ctrl pending destroy].
    eapply Forall_impl; [| exact Hle]. cbn. intros; lia.
Qed.

Lemma reachable_tokensOk (sys : System) : reachable sys -> tokensOk sys.
Proof.
  intros (g & events & ->).
  induction events as [| ev events IH] using rev_ind.
  - split; cbn; constructor.
  - rewrite run_snoc. now apply step_tokensOk.
Qed.

End Generations.

Lemma pendingTokens_In (frames : list Frame) (f : Frame) (token : nat) :
  In f frames -> frameToken f = Some token -> In token (pendingTokens frames).
Proof.
  induction frames as [| g frames IH]; [intros [] |].
  intros [-> | Hin] Hf; cbn [pendingTokens].
  - rewrite Hf. now left.
  - destruct (frameToken g); [right |]; now apply IH.
Qed.

Lemma finallySetLoading_stale (token : nat) (st : Controller) :
  token <> renderToken st -> finallySetLoading token st = st.
Proof.
  intros H. unfold finallySetLoading.
  now destruct (Nat.eqb_spec token (renderToken st)).
Qed.

Lemma stale_true (token : nat) (st : Controller) :
  token <> renderToken st -> stale token st = true.
Proof.
  intros H. unfold stale. now destruct (Nat.eqb_spec token (renderToken st)).
Qed.

Lemma stale_false (token : nat) (st : Controller) :
  token = renderToken st -> stale token st = false.
Proof. intros ->. unfold stale. now rewrite Nat.eqb_refl. Qed.

Lemma loadCatch_stale (token : nat) (msg : string) (st : Controller) :
  token <> renderToken st -> loadCatch token msg st = st.
Proof.
  intros H. unfold loadCatch. rewrite (stale_true _ _ H).
  now apply finallySetLoading_stale.
Qed.

Lemma afterRenderAllPages_stale (caller : RenderCaller) (token : nat)
    (st : Controller) :
  token <> renderToken st -> afterRenderAllPages caller token st = (st, []).
Proof.
  intros H. unfold afterRenderAllPages.
  rewrite (stale_true _ _ H), (finallySetLoading_stale _ _ H).
  now destruct caller.
Qed.

Lemma renderLoop_stale (token : nat) (arr : ArrayRef) (caller : RenderCaller)
    (rest : list PDFPageProxy) (idx : nat) (st : Controller) :
  token <> renderToken st ->
  renderLoop token arr caller rest idx st = (st, []).
Proof.
  intros H. destruct rest as [| page rest]; cbn [renderLoop].
  - now apply afterRenderAllPages_stale.
  - rewrite (stale_true _ _ H). now apply afterRenderAllPages_stale.
Qed.

(** X4. In every reachable state no two pending continuations carry the
    same generation token and none carries a token newer than the current
    one: each load or scale change has at most one suspended continuation,
    so its page fetches and rasterizations are strictly sequential.  No
    event ever lowers the token. *)
Theorem generations_are_sequential (sys : System) :
  reachable sys ->
  NoDup (pendingTokens (pending sys))
  /\ Forall (fun token => token <= renderToken (ctrl sys))
       (pendingTokens (pending sys))
  /\ forall ev, renderToken (ctrl sys) <= renderToken (ctrl (step ev sys)).
Proof.
  intros Hr. pose proof (reachable_tokensOk sys Hr) as Hok.
  destruct Hok as [Hnd Hle]. split; [exact Hnd |]. split; [exact Hle |].
  intros ev. now apply step_tokensOk.
Qed.

(** X5. A continuation whose token is no longer the current one is
    discarded at these points: when a rasterization it awaited settles,
    when the document it awaited arrives, and when any promise it awaited is
    rejected.  The controller is left exactly as it was and nothing is
    suspended in turn. *)
Theorem superseded_continuation_is_discarded (token : nat) (st : Controller) :
  token <> renderToken st ->
  (forall arr idx caller,
      resume (AwaitRender token arr idx caller) (Fulfilled VUnit) st
      = Some (st, []))
  /\ (forall d,
        resume (AwaitDocument token) (Fulfilled (VDocument d)) st
        = Some (st, []))
  /\ (forall f msg,
        frameToken f = Some token -> awaitsPromise f = true ->
        resume f (Rejected msg) st = Some (st, [])).
Proof.
  intros H. split; [| split].
  - intros arr idx caller. cbn [resume]. now rewrite renderLoop_stale.
  - intros d. cbn [resume].
    now rewrite (stale_true _ _ H), (finallySetLoading_stale _ _ H).
  - intros f msg Hf Hp.
    destruct f; cbn [frameToken] in Hf; try discriminate Hf;
      try discriminate Hp; injection Hf as ->; cbn [resume].
    + now rewrite (loadCatch_stale _ _ _ H).
    + now rewrite (loadCatch_stale _ _ _ H).
    + now rewrite (loadCatch_stale _ _ _ H).
    + unfold throwFromRenderAllPages.
      rewrite (loadCatch_stale _ _ _ H), (finallySetLoading_stale _ _ H).
      now destruct caller.
Qed.

(** X6. Whenever an event moves the controller to a new generation (a load
    of a changed identifier does, by exactly one), every continuation that
    was pending in a reachable state carries a stale token afterwards. *)
Theorem new_generation_supersedes_pending (sys : System) (ev : Event) :
  reachable sys ->
  (renderToken (ctrl (step ev sys)) <> renderToken (ctrl sys) ->
   forall f token,
     In f (pending sys) -> frameToken f = Some token ->
     stale token (ctrl (step ev sys)) = true)
  /\ (forall dataUri st,
        renderToken (fst (loadFromDataUri dataUri st)) = S (renderToken st)).
Proof.
  intros Hr. split.
  - intros Hne f token Hin Hf.
    destruct (reachable_tokensOk sys Hr) as [_ Hle].
    destruct (step_tokensOk ev sys (reachable_tokensOk sys Hr)) as [_ Hmono].
    rewrite Forall_forall in Hle.
    specialize (Hle _ (pendingTokens_In _ _ _ Hin Hf)). cbn in Hle.
    apply stale_true. lia.
  - intros dataUri st. apply loadFromDataUri_generation.
Qed.

(** X7. When a promise awaited by the current load is rejected (the module,
    the document, a page, or a rasterization of either render pass), the
    document view is cleared, the banner shows "Failed to load PDF: "
    followed by the message, the loading overlay is hidden and nothing is
    suspended in turn. *)
Theorem rejected_load_shows_banner (f : Frame) (msg : string)
    (st : Controller) :
  frameToken f = Some (renderToken st) -> awaitsPromise f = true ->
  (forall arr idx ratioTop ratioLeft,
      f <> AwaitRender (renderToken st) arr idx (ScalePass ratioTop ratioLeft)) ->
  exists st',
    resume f (Rejected msg) st = Some (st', [])
    /\ Spec.bannerShown ("Failed to load PDF: " ++ msg) st'
    /\ overlayShown st' = false
    /\ renderToken st' = renderToken st.
Proof.
  intros Hf Hp Hload.
  assert (Hcatch :
    Spec.bannerShown ("Failed to load PDF: " ++ msg)
      (loadCatch (renderToken st) msg st)
    /\ overlayShown (loadCatch (renderToken st) msg st) = false
    /\ renderToken (loadCatch (renderToken st) msg st) = renderToken st).
  { unfold loadCatch, stale, finallySetLoading. rewrite Nat.eqb_refl. fields.
    rewrite Nat.eqb_refl. fields.
    repeat split; try reflexivity.
    apply (nth_middle (heap st) [] [] []). }
  destruct f; cbn [frameToken] in Hf; try discriminate Hf;
    try discriminate Hp; injection Hf as Hf; cbn [resume].
  1-3: subst token; eexists; split; [reflexivity | exact Hcatch].
  subst token. destruct caller as [| | ratioTop ratioLeft].
  - eexists; split; [reflexivity |]; exact Hcatch.
  - eexists; split; [reflexivity |]; exact Hcatch.
  - exfalso. now apply (Hload arr idx ratioTop ratioLeft).
Qed.

(** X8. When a rasterization fails during the re-render of a scale change,
    [applyScale] has no [catch]: the loading overlay is hidden and nothing
    else changes, so no banner is shown and the pages rendered so far stay in
    the page container. *)
Theorem rejected_scale_render_is_silent (arr : ArrayRef) (idx : nat)
    (ratioTop ratioLeft : number) (msg : string) (st : Controller) :
  exists st',
    resume (AwaitRender (renderToken st) arr idx (ScalePass ratioTop ratioLeft))
      (Rejected msg) st = Some (st', [])
    /\ st' = setLoading false st
    /\ errorShown st' = errorShown st
    /\ errorText st' = errorText st
    /\ pagesHost st' = pagesHost st
    /\ thisPages st' = thisPages st
    /\ overlayShown st' = false.
Proof.
  eexists. split.
  - cbn [resume throwFromRenderAllPages]. unfold finallySetLoading.
    rewrite Nat.eqb_refl. reflexivity.
  - now repeat split.
Qed.

(** ** A render pass *)

Section RenderPass.

Lemma renderLoop_fresh (token : nat) (arr : ArrayRef) (caller : RenderCaller)
    (page : PDFPageProxy) (rest : list PDFPageProxy) (idx : nat)
    (st : Controller) :
  token = renderToken st ->
  renderLoop token arr caller (page :: rest) idx st
  = (appendPage token page st, [AwaitRender token arr idx caller]).
Proof.
  intros ->. cbn [renderLoop]. unfold stale, appendPage, renderPageToCanvas.
  rewrite Nat.eqb_refl. reflexivity.
Qed.

Lemma appendPage_keeps (token : nat) (page : PDFPageProxy) (st : Controller) :
  renderToken (appendPage token page st) = renderToken st
  /\ heap (appendPage token page st) = heap st
  /\ pages (appendPage token page st) = pages st
  /\ currentScale (appendPage token page st) = currentScale st
  /\ geometry (appendPage token page st) = geometry st.
Proof. now repeat split. Qed.

Lemma step_settle_single (f : Frame) (r : Settled) (st : Controller)
    (w : bool) (res : Controller * list Frame) :
  resume f r st = Some res ->
  step (EvSettle 0 r) {| ctrl := st; pending := [f]; wired := w |}
  = after w res.
Proof.
  intros H. cbn [step pending ctrl nth_error]. rewrite H.
  now destruct res.
Qed.

(** From a pending rasterization of the page at [idx], settling it and the
    rasterizations of the pages after it appends those pages in order and
    ends the loop. *)
Lemma render_pass_rest (token : nat) (arr : ArrayRef) (caller : RenderCaller)
    (w : bool) (rest : list PDFPageProxy) :
  forall (idx : nat) (st : Controller),
    token = renderToken st ->
    skipn (S idx) (array_get st arr) = rest ->
    run (settlements (S (length rest)))
      {| ctrl := st; pending := [AwaitRender token arr idx caller];
         wired := w |}
    = after w
        (afterRenderAllPages caller token
           (fold_left (fun s p => appendPage token p s) rest st)).
Proof.
  induction rest as [| page rest IH]; intros idx st Htok Hskip.
  - cbn [settlements repeat length]. rewrite run_cons.
    rewrite (step_settle_single _ _ _ _
               (afterRenderAllPages caller token st)).
    + reflexivity.
    + cbn [resume]. now rewrite Hskip.
  - cbn [length]. change (settlements (S (S (length rest))))
      with (EvSettle 0 (Fulfilled VUnit) :: settlements (S (length rest))).
    rewrite run_cons.
    rewrite (step_settle_single _ _ _ _
               (appendPage token page st,
                [AwaitRender token arr (S idx) caller])).
    + unfold after. cbn [fst snd fold_left].
      apply IH.
      * now destruct (appendPage_keeps token page st) as (-> & _).
      * unfold array_get in *.
        destruct (appendPage_keeps token page st) as (_ & -> & _).
        clear - Hskip. revert Hskip. generalize (nth arr (heap st) []).
        intros l. revert idx. induction l as [| x l IHl]; intros idx H.
        -- now destruct idx.
        -- destruct idx as [| idx].
           ++ cbn in H. subst l. reflexivity.
           ++ apply (IHl idx). exact H.
    + cbn [resume]. rewrite Hskip. f_equal. now apply renderLoop_fresh.
Qed.

Lemma combine_map_fst {A B C : Type} (f : A -> C) (l : list A) :
  forall l' : list B,
    combine (map f l) l'
    = map (fun p => (f (fst p), snd p)) (combine l l').
Proof.
  induction l as [| a l IH]; intros [| b l']; cbn; try reflexivity.
  now rewrite IH.
Qed.

Lemma appendPage_fields (token : nat) (p : PDFPageProxy) (st : Controller) :
  token = renderToken st ->
  let st' := appendPage token p st in
  let w := {| wr_id := nextId st; wr_canvas := canvasOf st p |} in
  pagesHost st' = pagesHost st ++ [w]
  /\ pageWrappers st' = pageWrappers st ++ [w]
  /\ pageCanvases st' = pageCanvases st ++ [canvasOf st p]
  /\ calls st' = CallRender p (currentScale st) :: calls st
  /\ nextId st' = S (nextId st)
  /\ (forall q, canvasOf st' q = canvasOf st q)
  /\ currentScale st' = currentScale st
  /\ renderToken st' = renderToken st
  /\ zoomConfig st' = zoomConfig st
  /\ scales st' = scales st
  /\ thisPages st' = thisPages st
  /\ doc st' = doc st
  /\ ambient st' = ambient st.
Proof. intros ->. now repeat split. Qed.

Lemma appendPage_fold (token : nat) (ps : list PDFPageProxy) :
  forall st,
    token = renderToken st ->
    let st' := fold_left (fun s p => appendPage token p s) ps st in
    pagesHost st'
    = pagesHost st ++ map (wrapperAt st) (combine (seq 0 (length ps)) ps)
    /\ pageWrappers st'
       = pageWrappers st
         ++ map (wrapperAt st) (combine (seq 0 (length ps)) ps)
    /\ pageCanvases st' = pageCanvases st ++ map (canvasOf st) ps
    /\ calls st'
       = rev (map (fun p => CallRender p (currentScale st)) ps) ++ calls st
    /\ nextId st' = nextId st + length ps
    /\ renderToken st' = renderToken st
    /\ zoomConfig st' = zoomConfig st
    /\ scales st' = scales st
    /\ thisPages st' = thisPages st
    /\ doc st' = doc st
    /\ ambient st' = ambient st.
Proof.
  induction ps as [| p ps IH]; intros st Htok; cbv zeta.
  - cbn [fold_left length seq combine map rev app].
    rewrite !app_nil_r, Nat.add_0_r. now repeat split.
  - cbn [fold_left].
    destruct (appendPage_fields token p st Htok)
      as (A1 & A2 & A3 & A4 & A5 & A6 & A7 & A8 & A9 & A10 & A11 & A12
          & A13).
    assert (Htok' : token = renderToken (appendPage token p st))
      by (now rewrite A8).
    destruct (IH (appendPage token p st) Htok')
      as (H1 & H2 & H3 & H4 & H5 & H6 & H7 & H8 & H9 & H10 & H11).
    assert (Hmap : map (wrapperAt (appendPage token p st))
                     (combine (seq 0 (length ps)) ps)
                   = map (wrapperAt st) (combine (seq 1 (length ps)) ps)).
    { rewrite <- seq_shift, combine_map_fst, map_map. apply map_ext.
      intros [i q]. unfold wrapperAt. cbn [fst snd].
      rewrite A6, A5. f_equal. lia. }
    assert (Hmap2 : map (canvasOf (appendPage token p st)) ps
                    = map (canvasOf st) ps)
      by (apply map_ext; exact A6).
    rewrite H1, H2, H3, H4, H5, H6, H7, H8, H9, H10, H11.
    rewrite Hmap, Hmap2, A1, A2, A3, A4, A5, A7, A8, A9, A10, A11, A12, A13.
    cbn [length seq combine map rev].
    rewrite <- !app_assoc. cbn [app].
    repeat split; try reflexivity; try lia;
      unfold wrapperAt; cbn [fst snd]; rewrite ?Nat.add_0_r; reflexivity.
Qed.

End RenderPass.

Lemma render_pass_run (w : bool) (caller : RenderCaller) (st : Controller) :
  run (settlements (length (thisPages st)))
    (after w (renderAllPages (renderToken st) caller st))
  = after w
      (afterRenderAllPages caller (renderToken st)
         (fold_left (fun s p => appendPage (renderToken st) p s)
            (thisPages st) (clearedForRender st))).
Proof.
  change (renderAllPages (renderToken st) caller st)
    with (renderLoop (renderToken st) (pages st) caller (thisPages st) 0
            (clearedForRender st)).
  destruct (thisPages st) as [| page rest] eqn:Hps.
  - reflexivity.
  - rewrite (renderLoop_fresh (renderToken st) (pages st) caller page rest 0
               (clearedForRender st) eq_refl).
    cbn [length fold_left].
    apply (render_pass_rest (renderToken st) (pages st) caller w rest 0
             (appendPage (renderToken st) page (clearedForRender st))).
    + reflexivity.
    + change (array_get (appendPage (renderToken st) page
                           (clearedForRender st)) (pages st))
        with (thisPages st).
      now rewrite Hps.
Qed.

Lemma map_canvas_wrapperAt (st : Controller) (ps : list PDFPageProxy) :
  forall start,
    map wr_canvas (map (wrapperAt st) (combine (seq start (length ps)) ps))
    = map (canvasOf st) ps.
Proof.
  induction ps as [| p ps IH]; intros start; [reflexivity |].
  cbn [length seq combine map]. now rewrite IH.
Qed.

Lemma cv_render_canvasOf (st : Controller) (p : PDFPageProxy) :
  cv_render (canvasOf st p) = Some (p, currentScale st).
Proof.
  unfold canvasOf, renderPageToCanvas. now rewrite Nat.eqb_refl.
Qed.

Lemma ambient_inv (st st' : Controller) :
  ambient st' = ambient st ->
  renderToken st' = renderToken st
  /\ zoomConfig st' = zoomConfig st
  /\ geometry st' = geometry st
  /\ scrollTop st' = scrollTop st
  /\ scrollLeft st' = scrollLeft st
  /\ overlayShown st' = overlayShown st
  /\ errorShown st' = errorShown st
  /\ errorText st' = errorText st
  /\ lastDataUri st' = lastDataUri st.
Proof.
  unfold ambient. intros H.
  pose proof (f_equal (fun x => fst (fst (fst (fst (fst x))))) H) as H1.
  pose proof (f_equal (fun x => snd (fst (fst (fst (fst x))))) H) as H2.
  pose proof (f_equal (fun x => snd (fst (fst (fst x)))) H) as H3.
  pose proof (f_equal (fun x => fst (snd (fst (fst x)))) H) as H4.
  pose proof (f_equal (fun x => snd (snd (fst (fst x)))) H) as H5.
  pose proof (f_equal (fun x => fst (fst (snd (fst x)))) H) as H6.
  pose proof (f_equal (fun x => snd (fst (snd (fst x)))) H) as H7.
  pose proof (f_equal (fun x => snd (snd (fst x))) H) as H8.
  pose proof (f_equal (fun x => snd x) H) as H9.
  cbn [fst snd] in *. now repeat split.
Qed.

(** The state at the end of the loop of a render pass. *)
Lemma render_pass_complete (w : bool) (caller : RenderCaller)
    (st : Controller) :
  exists st' : Controller,
    run (settlements (length (thisPages st)))
      (after w (renderAllPages (renderToken st) caller st))
    = after w (afterRenderAllPages caller (renderToken st) st')
    /\ pagesHost st'
       = map (wrapperAt st)
           (combine (seq 0 (length (thisPages st))) (thisPages st))
    /\ pageWrappers st' = pagesHost st'
    /\ pageCanvases st' = map wr_canvas (pagesHost st')
    /\ map cv_render (pageCanvases st')
       = map (fun p => Some (p, currentScale st)) (thisPages st)
    /\ calls st'
       = rev (map (fun p => CallRender p (currentScale st)) (thisPages st))
         ++ calls st
    /\ scales st' = scales st
    /\ doc st' = doc st
    /\ thisPages st' = thisPages st
    /\ ambient st' = ambient st.
Proof.
  set (token := renderToken st).
  set (st0 := clearedForRender st).
  exists (fold_left (fun s p => appendPage token p s) (thisPages st) st0).
  assert (Htok : token = renderToken st0) by reflexivity.
  destruct (appendPage_fold token (thisPages st) st0 Htok)
    as (H1 & H2 & H3 & H4 & H5 & H6 & H7 & H8 & H9 & H10 & H11).
  assert (Hhost : map (wrapperAt st0)
                    (combine (seq 0 (length (thisPages st))) (thisPages st))
                  = map (wrapperAt st)
                      (combine (seq 0 (length (thisPages st)))
                         (thisPages st)))
    by (apply map_ext; reflexivity).
  assert (Hcv : map (canvasOf st0) (thisPages st)
                = map (canvasOf st) (thisPages st))
    by (apply map_ext; reflexivity).
  change (pagesHost st0) with (@nil Wrapper) in H1.
  change (pageWrappers st0) with (@nil Wrapper) in H2.
  change (pageCanvases st0) with (@nil Canvas) in H3.
  cbn [app] in H1, H2, H3.
  rewrite Hhost in H1, H2. rewrite Hcv in H3.
  split; [| repeat split].
  - apply render_pass_run.
  - exact H1.
  - now rewrite H1, H2.
  - now rewrite H1, H3, map_canvas_wrapperAt.
  - rewrite H3, map_map. apply map_ext. intros p.
    apply cv_render_canvasOf.
  - exact H4.
  - exact H8.
  - exact H10.
  - exact H9.
  - exact H11.
Qed.

(** X9 (renderAllPages, renderPageToCanvas): a render pass started under
    the current token, in a system with no other pending continuation,
    needs exactly one settled rasterization per page of [this.pages] to
    reach the end of its loop.  There the pages host holds one wrapper per
    page, in document order and numbered consecutively; [pageWrappers] and
    [pageCanvases] list the same wrappers and their canvases; every canvas
    was painted from its own page at the scale current when the pass
    started; one [page.render] call per page was made, in order; and the
    pass changed neither the scales, the zoom configuration, the token, the
    document nor the page list. *)
Theorem render_pass_in_document_order (w : bool) (caller : RenderCaller)
    (st : Controller) :
  exists st' : Controller,
    run (settlements (length (thisPages st)))
      (after w (renderAllPages (renderToken st) caller st))
    = after w (afterRenderAllPages caller (renderToken st) st')
    /\ pagesHost st'
       = map (wrapperAt st)
           (combine (seq 0 (length (thisPages st))) (thisPages st))
    /\ pageWrappers st' = pagesHost st'
    /\ pageCanvases st' = map wr_canvas (pagesHost st')
    /\ map cv_render (pageCanvases st')
       = map (fun p => Some (p, currentScale st)) (thisPages st)
    /\ calls st'
       = rev (map (fun p => CallRender p (currentScale st)) (thisPages st))
         ++ calls st
    /\ scales st' = scales st
    /\ zoomConfig st' = zoomConfig st
    /\ renderToken st' = renderToken st
    /\ doc st' = doc st
    /\ thisPages st' = thisPages st.
Proof.
  destruct (render_pass_complete w caller st)
    as (st' & H1 & H2 & H3 & H4 & H5 & H6 & H7 & H8 & H9 & H10).
  exists st'. destruct (ambient_inv _ _ H10) as (T1 & T2 & _).
  repeat split; assumption.
Qed.

(** ** Fetching the pages *)

Section PageFetch.

Lemma heap_push_last (h : list (list PDFPageProxy)) (a : list PDFPageProxy)
    (p : PDFPageProxy) :
  heap_push (h ++ [a]) (length h) p = h ++ [a ++ [p]].
Proof.
  induction h as [| b h IH]; [reflexivity |].
  cbn [app length heap_push]. now rewrite IH.
Qed.

(** From a pending [getPage(i)], settling it and the fetches of the pages
    after it pushes those pages in order onto the array [this.pages] refers
    to and then starts the first render pass at scale 1. *)
Lemma fetch_rest (token : nat) (d : PDFDocumentProxy) (n : nat) (w : bool)
    (h : list (list PDFPageProxy)) (rest : list PDFPageProxy) :
  forall (i : nat) (seen : list PDFPageProxy) (st : Controller),
    token = renderToken st ->
    rest <> [] ->
    i + length rest = S n ->
    heap st = h ++ [seen] ->
    pages st = length h ->
    exists st' : Controller,
      run (pageSettlements rest)
        {| ctrl := st; pending := [AwaitPage token d i n]; wired := w |}
      = after w (renderAllPages token FirstPass st')
      /\ heap st' = h ++ [seen ++ rest]
      /\ pages st' = length h
      /\ currentScale st' = Fin 1
      /\ calls st'
         = rev (map (CallGetPage d) (seq (S i) (n - i))) ++ calls st
      /\ loadContext st' = loadContext st
      /\ ambient st' = ambient st.
Proof.
  induction rest as [| p rest IH]; intros i seen st Htok Hne Hlen Hheap Hpages;
    [contradiction |].
  destruct rest as [| p' rest].
  - cbn [length] in Hlen.
    assert (Hi : i = n) by lia. subst i.
    exists (set_currentScale (Fin 1) (pushPage p st)).
    split; [| repeat split].
    + cbn [pageSettlements map]. rewrite run_cons.
      rewrite (step_settle_single _ _ _ _
                 (renderAllPages token FirstPass
                    (set_currentScale (Fin 1) (pushPage p st)))).
      * reflexivity.
      * cbn [resume]. unfold loadPageLoop.
        assert (Hleb : (S n <=? n) = false) by (apply Nat.leb_gt; lia).
        now rewrite Hleb.
    + fields. now rewrite Hheap, Hpages, heap_push_last.
    + exact Hpages.
    + now rewrite Nat.sub_diag.
  - set (st1 := set_calls (CallGetPage d (S i) :: calls (pushPage p st))
                  (pushPage p st)).
    assert (Hheap1 : heap st1 = h ++ [seen ++ [p]]).
    { unfold st1. fields. now rewrite Hheap, Hpages, heap_push_last. }
    destruct (IH (S i) (seen ++ [p]) st1)
      as (st' & Hrun & H1 & H2 & H3 & H4 & H5 & H6).
    + exact Htok.
    + discriminate.
    + cbn [length] in *. lia.
    + exact Hheap1.
    + exact Hpages.
    + exists st'. split; [| repeat split].
      * change (pageSettlements (p :: p' :: rest))
          with (EvSettle 0 (Fulfilled (VPage p))
                  :: pageSettlements (p' :: rest)).
        rewrite run_cons.
        rewrite (step_settle_single _ _ _ _
                   (st1, [AwaitPage token d (S i) n])).
        -- exact Hrun.
        -- cbn [resume]. unfold loadPageLoop.
           assert (Hleb : (S i <=? n) = true)
             by (apply Nat.leb_le; cbn [length] in Hlen; lia).
           rewrite Hleb.
           rewrite (stale_false token (pushPage p st) Htok).
           reflexivity.
      * rewrite H1, <- app_assoc. reflexivity.
      * exact H2.
      * exact H3.
      * rewrite H4. unfold st1. fields.
        replace (n - i) with (S (n - S i))
          by (cbn [length] in Hlen; lia).
        cbn [seq map rev]. now rewrite <- app_assoc.
      * rewrite H5. reflexivity.
      * rewrite H6. reflexivity.
Qed.

End PageFetch.

(** From the fulfilment of the document promise to the start of the first
    render pass. *)
Lemma pages_fetched (w : bool) (st : Controller) (d : PDFDocumentProxy)
    (ps : list PDFPageProxy) :
  numPages d = length ps ->
  exists st' : Controller,
    run (EvSettle 0 (Fulfilled (VDocument d)) :: pageSettlements ps)
      {| ctrl := st; pending := [AwaitDocument (renderToken st)];
         wired := w |}
    = after w (renderAllPages (renderToken st) FirstPass st')
    /\ doc st' = Some d
    /\ thisPages st' = ps
    /\ currentScale st' = Fin 1
    /\ calls st' = rev (map (CallGetPage d) (seq 1 (length ps))) ++ calls st
    /\ fitWidthScale st' = fitWidthScale st
    /\ ambient st' = ambient st.
Proof.
  intros Hn.
  set (token := renderToken st).
  set (st0 := st |> set_doc (Some d) |> resetPages |> set_pageCanvases []
                 |> set_pageWrappers [] |> set_pagesHost []).
  assert (Hresume : resume (AwaitDocument token) (Fulfilled (VDocument d)) st
                    = Some (loadPageLoop token d 1 (numPages d) st0)).
  { cbn [resume]. now rewrite (stale_false token st eq_refl). }
  rewrite run_cons, (step_settle_single _ _ _ _ _ Hresume).
  destruct ps as [| p ps].
  - exists (set_currentScale (Fin 1) st0).
    split; [| repeat split].
    + unfold loadPageLoop. rewrite Hn. reflexivity.
    + unfold thisPages, array_get, st0. fields.
      apply (nth_middle (heap st) [] [] []).
  - set (st1 := set_calls (CallGetPage d 1 :: calls st0) st0).
    destruct (fetch_rest token d (numPages d) w (heap st) (p :: ps) 1 [] st1)
      as (st' & Hrun & H1 & H2 & H3 & H4 & H5 & H6).
    + reflexivity.
    + discriminate.
    + rewrite Hn. reflexivity.
    + reflexivity.
    + reflexivity.
    + exists st'.
      unfold loadContext, zoomConfig in H5.
      injection H5 as T1 T2 Tmin Tmax Tstep T4 T5 T6.
      split; [| repeat split].
      * unfold loadPageLoop.
        assert (Hleb : (1 <=? numPages d) = true)
          by (apply Nat.leb_le; rewrite Hn; cbn [length]; lia).
        rewrite Hleb, (stale_false token st0 eq_refl).
        exact Hrun.
      * exact T2.
      * unfold thisPages, array_get. rewrite H1, H2.
        apply (nth_middle (heap st) [] (p :: ps) []).
      * exact H3.
      * rewrite H4. unfold st1. fields.
        replace (numPages d - 1) with (length ps)
          by (rewrite Hn; cbn [length]; lia).
        cbn [length seq map rev]. now rewrite <- app_assoc.
      * exact T4.
      * exact H6.
Qed.

(** X10 (loadFromDataUri): once the document promise of the current load
    fulfils with a document of [length ps] pages, and then its [getPage]
    promises fulfil with the pages [ps] one after the other, the first
    render pass starts from a state where the document is installed,
    [this.pages] holds exactly [ps] in order, the current scale is the
    neutral 1, [getPage] was called once for each index 1 .. numPages in
    increasing order, and the token, the zoom configuration, the fit-width
    scale and the layout are untouched. *)
Theorem pages_fetched_in_order (w : bool) (st : Controller)
    (d : PDFDocumentProxy) (ps : list PDFPageProxy) :
  numPages d = length ps ->
  exists st' : Controller,
    run (EvSettle 0 (Fulfilled (VDocument d)) :: pageSettlements ps)
      {| ctrl := st; pending := [AwaitDocument (renderToken st)];
         wired := w |}
    = after w (renderAllPages (renderToken st) FirstPass st')
    /\ doc st' = Some d
    /\ thisPages st' = ps
    /\ currentScale st' = Fin 1
    /\ calls st' = rev (map (CallGetPage d) (seq 1 (length ps))) ++ calls st
    /\ renderToken st' = renderToken st
    /\ zoomConfig st' = zoomConfig st
    /\ fitWidthScale st' = fitWidthScale st
    /\ geometry st' = geometry st.
Proof.
  intros Hn.
  destruct (pages_fetched w st d ps Hn)
    as (st' & H1 & H2 & H3 & H4 & H5 & H6 & H7).
  exists st'. destruct (ambient_inv _ _ H7) as (T1 & T2 & T3 & _).
  repeat split; assumption.
Qed.

(** ** Inputs the decoder rejects *)

Section DecoderRejects.

Import Base64.

Lemma dataUriToBytes_payloadOf (input : list ascii) :
  dataUriToBytes input
  = match atob (removeWhiteSpace (payloadOf input)) with
    | None => Throw atob_message
    | Some binary => Normal (map byte_of_ascii binary)
    end.
Proof. reflexivity. Qed.

Lemma asciiWhitespace_isWhiteSpace (c : ascii) :
  isWhiteSpace c = false -> isAsciiWhitespace c = false.
Proof.
  unfold isWhiteSpace, isAsciiWhitespace. cbv zeta.
  generalize (nat_of_ascii c). intros n H.
  apply Bool.orb_false_iff in H. destruct H as [H H160].
  apply Bool.orb_false_iff in H. destruct H as [H H32].
  rewrite H32, Bool.orb_false_r.
  apply Bool.andb_false_iff in H.
  repeat (apply Bool.orb_false_iff; split); apply Nat.eqb_neq; intros ->;
    destruct H as [H | H]; discriminate H.
Qed.

Lemma In_strip_padding (c : ascii) (l : list ascii) :
  c <> "="%char -> In c l -> In c (strip_padding l).
Proof.
  intros Hc Hin. unfold strip_padding.
  destruct (length l mod 4 =? 0); [| exact Hin].
  destruct (rev l) as [| c1 r] eqn:Hrev; [exact Hin |].
  destruct (Ascii.eqb_spec c1 "="%char) as [-> | _]; [| exact Hin].
  assert (Hl : l = rev r ++ ["="%char])
    by (rewrite <- (rev_involutive l), Hrev; reflexivity).
  assert (Hr : In c (rev r)).
  { rewrite Hl in Hin. apply in_app_or in Hin.
    destruct Hin as [H | [H | []]]; [exact H | now symmetry in H]. }
  destruct r as [| c2 r']; [exact Hr |].
  destruct (Ascii.eqb_spec c2 "="%char) as [-> | _]; [| exact Hr].
  cbn [rev] in Hr. apply in_app_or in Hr.
  destruct Hr as [H | [H | []]]; [exact H | now symmetry in H].
Qed.

Lemma sextets_of_chars_foreign (c : ascii) (l : list ascii) :
  In c l -> sextet_of_char c = None -> sextets_of_chars l = None.
Proof.
  intros Hin Hc. induction l as [| x l IH]; [contradiction |].
  cbn [sextets_of_chars]. destruct Hin as [-> | Hin].
  - now rewrite Hc.
  - rewrite (IH Hin). now destruct (sextet_of_char x).
Qed.

Lemma foreign_spec (c : ascii) :
  foreign c = true ->
  sextet_of_char c = None /\ c <> "="%char /\ isWhiteSpace c = false.
Proof.
  unfold foreign. destruct (sextet_of_char c); [discriminate |].
  intros H. apply Bool.andb_true_iff in H. destruct H as [H1 H2].
  repeat split.
  - intros ->. discriminate H1.
  - now apply Bool.negb_true_iff.
Qed.

Lemma atob_foreign (c : ascii) (d : list ascii) :
  In c d -> foreign c = true -> atob (removeWhiteSpace d) = None.
Proof.
  intros Hin Hf. apply foreign_spec in Hf. destruct Hf as (Hs & Heq & Hws).
  unfold atob. cbv zeta.
  match goal with |- (if ?b then _ else _) = _ => destruct b end;
    [reflexivity |].
  rewrite (sextets_of_chars_foreign c); [reflexivity | | exact Hs].
  apply In_strip_padding; [exact Heq |].
  apply filter_In. split.
  - apply filter_In. split; [exact Hin | now rewrite Hws].
  - now rewrite (asciiWhitespace_isWhiteSpace c Hws).
Qed.

Lemma indexOf_In (c : ascii) (s : list ascii) :
  indexOf c s <> None -> In c s.
Proof.
  induction s as [| x t IH]; [intros H; now contradiction H |].
  cbn [indexOf]. destruct (Ascii.eqb_spec x c) as [-> | _].
  - intros _. now left.
  - intros H. right. apply IH. intros E. apply H. now rewrite E.
Qed.

Lemma startsWith_data_colon (s : list ascii) :
  startsWith (list_ascii_of_string "data:") s = true -> In ":"%char s.
Proof.
  cbn [list_ascii_of_string].
  destruct s as [| c1 [| c2 [| c3 [| c4 [| c5 s]]]]]; cbn [startsWith];
    rewrite ?Bool.andb_false_r; try discriminate.
  intros H.
  repeat (apply Bool.andb_true_iff in H; destruct H as [? H]).
  do 4 right. left.
  match goal with E : Ascii.eqb ":" c5 = true |- _ =>
    apply Ascii.eqb_eq in E; now symmetry end.
Qed.

Lemma payloadOf_prefixed (mid payload : list ascii) :
  ~ In ","%char mid ->
  payloadOf (list_ascii_of_string "data:" ++ mid ++ ","%char :: payload)
  = trimEnd payload.
Proof.
  intros Hmid. unfold payloadOf. cbv zeta.
  set (x := list_ascii_of_string "data:" ++ mid).
  assert (Htrim : trim (list_ascii_of_string "data:" ++ mid
                          ++ ","%char :: payload)
                  = x ++ ","%char :: trimEnd payload).
  { unfold trim, x. cbn [list_ascii_of_string app trimStart].
    replace (isWhiteSpace "d") with false by reflexivity.
    change ("d" :: "a" :: "t" :: "a" :: ":" :: mid ++ "," :: payload)%char
      with (("d" :: "a" :: "t" :: "a" :: ":" :: mid) ++ "," :: payload)%char.
    now apply trimEnd_app_nonwhite. }
  rewrite Htrim, indexOf_first.
  - replace (startsWith (list_ascii_of_string "data:")
               (x ++ ","%char :: trimEnd payload)) with true by reflexivity.
    apply substring_past.
  - unfold x. cbn [list_ascii_of_string app].
    intros [H | [H | [H | [H | [H | H]]]]]; try discriminate H.
    now apply Hmid.
Qed.

End DecoderRejects.

(** X11 (dataUriToBytes): the decoder throws whenever the string it hands
    to [atob] holds a character that is neither of the base64 alphabet, nor
    the padding sign [=], nor white space; wherever the character stands. *)
Theorem dataUriToBytes_rejects_foreign_character (input : list ascii)
    (c : ascii) :
  In c (payloadOf input) ->
  foreign c = true ->
  dataUriToBytes input = Throw Base64.atob_message.
Proof.
  intros Hin Hf.
  now rewrite dataUriToBytes_payloadOf, (atob_foreign c _ Hin Hf).
Qed.

(** X12 (dataUriToBytes): the prefix is stripped only when the trimmed input
    both starts with [data:] and holds a comma.  An input that starts with
    [data:] and has no comma, and an input that has a comma and does not
    start with [data:], are handed to [atob] whole, and the decoder
    throws. *)
Theorem dataUriToBytes_rejects_half_prefixed (input : list ascii) :
  (if startsWith (list_ascii_of_string "data:") (trim input)
   then indexOf ","%char (trim input) = None
   else indexOf ","%char (trim input) <> None) ->
  payloadOf input = trim input
  /\ dataUriToBytes input = Throw Base64.atob_message.
Proof.
  intros H.
  destruct (startsWith (list_ascii_of_string "data:") (trim input)) eqn:Hp.
  - assert (Hpay : payloadOf input = trim input)
      by (unfold payloadOf; cbv zeta; now rewrite H).
    split; [exact Hpay |].
    rewrite dataUriToBytes_payloadOf, (atob_foreign ":"%char);
      [reflexivity | | reflexivity].
    rewrite Hpay. now apply startsWith_data_colon.
  - assert (Hpay : payloadOf input = trim input).
    { unfold payloadOf. cbv zeta. rewrite Hp.
      now destruct (indexOf ","%char (trim input)). }
    split; [exact Hpay |].
    rewrite dataUriToBytes_payloadOf, (atob_foreign ","%char);
      [reflexivity | | reflexivity].
    rewrite Hpay. now apply indexOf_In.
Qed.

(** X13 (dataUriToBytes): of a data URI only the part after the first
    comma is decoded.  Two URIs that differ in their header (media type,
    parameters, even a missing [;base64] marker) decode alike, and as the
    bare payload does when the payload has no comma. *)
Theorem dataUriToBytes_ignores_header (mid mid' payload : list ascii) :
  ~ In ","%char mid ->
  ~ In ","%char mid' ->
  dataUriToBytes (list_ascii_of_string "data:" ++ mid ++ ","%char :: payload)
  = dataUriToBytes
      (list_ascii_of_string "data:" ++ mid' ++ ","%char :: payload)
  /\ (~ In ","%char payload ->
      dataUriToBytes
        (list_ascii_of_string "data:" ++ mid ++ ","%char :: payload)
      = dataUriToBytes payload).
Proof.
  intros Hmid Hmid'. split.
  - now rewrite !dataUriToBytes_payloadOf, !payloadOf_prefixed.
  - intros Hpay.
    rewrite !dataUriToBytes_payloadOf, payloadOf_prefixed by exact Hmid.
    unfold payloadOf. cbv zeta.
    rewrite indexOf_absent.
    + now rewrite removeWhiteSpace_trim, removeWhiteSpace_trimEnd.
    + intros Hin. apply Hpay. now apply In_trimStart, In_trimEnd.
Qed.

(** ** A load that nothing supersedes *)

Section WholeLoad.

Lemma run_app (l1 l2 : list Event) (sys : System) :
  run (l1 ++ l2) sys = run l2 (run l1 sys).
Proof. unfold run. apply fold_left_app. Qed.

Lemma computeFitWidthScale_fields (st : Controller) :
  ambient (computeFitWidthScale st) = ambient st
  /\ currentScale (computeFitWidthScale st) = currentScale st
  /\ thisPages (computeFitWidthScale st) = thisPages st
  /\ doc (computeFitWidthScale st) = doc st
  /\ calls (computeFitWidthScale st) = calls st.
Proof.
  unfold computeFitWidthScale.
  destruct (thisPages st) eqn:E; repeat split;
    unfold thisPages, array_get; fields; assumption.
Qed.

(** The fit scale depends on the first page, the layout and the bounds. *)
Lemma computeFitWidthScale_ext (st st' : Controller) :
  thisPages st' = thisPages st ->
  geometry st' = geometry st ->
  zoomConfig st' = zoomConfig st ->
  fitWidthScale (computeFitWidthScale st')
  = fitWidthScale (computeFitWidthScale st).
Proof.
  intros Hp Hg Hz. apply zoomConfig_inv in Hz. destruct Hz as (Hlo & Hhi & _).
  unfold computeFitWidthScale. rewrite Hp.
  destruct (thisPages st); fields; [reflexivity |].
  now rewrite Hg, Hlo, Hhi.
Qed.

(** What the last statements of a load leave of the state. *)
Lemma load_epilogue_fields (st : Controller) :
  let st' :=
    finallySetLoading (renderToken st) (updateZoomUi (updateNavUi st)) in
  overlayShown st' = false
  /\ zoomLabel st'
     = (toString (Math_round (mul (currentScale st) (Fin (100 # 1)))) ++ "%")
         %string
  /\ renderToken st' = renderToken st
  /\ doc st' = doc st
  /\ thisPages st' = thisPages st
  /\ scales st' = scales st
  /\ zoomConfig st' = zoomConfig st
  /\ geometry st' = geometry st
  /\ scrollTop st' = scrollTop st
  /\ scrollLeft st' = scrollLeft st
  /\ errorShown st' = errorShown st
  /\ pagesHost st' = pagesHost st
  /\ pageWrappers st' = pageWrappers st
  /\ pageCanvases st' = pageCanvases st
  /\ calls st' = calls st.
Proof.
  cbv zeta. unfold finallySetLoading.
  assert (Htok : renderToken (updateZoomUi (updateNavUi st)) = renderToken st)
    by (unfold updateNavUi; now destruct (_ =? 0)).
  rewrite Htok, Nat.eqb_refl.
  unfold updateNavUi. destruct (_ =? 0); now repeat split.
Qed.

End WholeLoad.

(** X14 (loadFromDataUri, renderAllPages, computeFitWidthScale): a load
    that nothing supersedes runs to completion.  From the pending import of
    the rendering library, once the import, the document, its pages, the
    rasterizations of the first pass, the animation frames and the
    rasterizations of the second pass have settled in this order, nothing is
    pending any more and: the document and its pages are installed; the
    stored fit scale is the fit scale of the final state and the current
    scale equals it; both scroll offsets are 0; the overlay is hidden; the
    host, [pageWrappers] and [pageCanvases] list the same wrappers; every
    canvas was painted from its page at the final scale; the capability was
    called in the order getDocument, getPage 1 .. n, render of every page
    at scale 1, render of every page at the fit scale; token, zoom
    configuration, layout and banner are as before. *)
Theorem uninterrupted_load_completes (w : bool) (st : Controller)
    (bytes : list Byte.byte) (d : PDFDocumentProxy)
    (ps : list PDFPageProxy) :
  numPages d = length ps ->
  exists st' : Controller,
    run (loadSettlements d ps)
      {| ctrl := st; pending := [AwaitPdfJs (renderToken st) bytes];
         wired := w |}
    = {| ctrl := st'; pending := []; wired := w |}
    /\ doc st' = Some d
    /\ thisPages st' = ps
    /\ fitWidthScale st' = fitWidthScale (computeFitWidthScale st')
    /\ currentScale st' = fitWidthScale st'
    /\ scrollTop st' = 0%Q
    /\ scrollLeft st' = 0%Q
    /\ overlayShown st' = false
    /\ pagesHost st' = pageWrappers st'
    /\ pageCanvases st' = map wr_canvas (pageWrappers st')
    /\ map cv_render (pageCanvases st')
       = map (fun p => Some (p, currentScale st')) ps
    /\ calls st'
       = rev (map (fun p => CallRender p (currentScale st')) ps)
         ++ rev (map (fun p => CallRender p (Fin 1)) ps)
         ++ rev (map (CallGetPage d) (seq 1 (length ps)))
         ++ CallGetDocument bytes :: calls st
    /\ renderToken st' = renderToken st
    /\ zoomConfig st' = zoomConfig st
    /\ geometry st' = geometry st
    /\ errorShown st' = errorShown st.
Proof.
  intros Hn.
  set (token := renderToken st).
  set (st_a := set_calls (CallGetDocument bytes :: calls st) st).
  (* the document and its pages *)
  destruct (pages_fetched w st_a d ps Hn)
    as (st_b & Hrun_b & Bdoc & Bpages & Bscale & Bcalls & Bfit & Bamb).
  change (renderToken st_a) with token in Hrun_b.
  destruct (ambient_inv _ _ Bamb)
    as (Btok & Bzoom & Bgeo & _ & _ & _ & Berr & _ & _).
  change (renderToken st_a) with token in Btok.
  change (zoomConfig st_a) with (zoomConfig st) in Bzoom.
  change (geometry st_a) with (geometry st) in Bgeo.
  change (errorShown st_a) with (errorShown st) in Berr.
  change (calls st_a) with (CallGetDocument bytes :: calls st) in Bcalls.
  (* the first pass *)
  destruct (render_pass_complete w FirstPass st_b)
    as (st_c & Hrun_c & _ & _ & _ & _ & Ccalls & Cscales & Cdoc & Cpages
        & Camb).
  rewrite Bpages, Btok in Hrun_c.
  destruct (ambient_inv _ _ Camb)
    as (Ctok & Czoom & Cgeo & _ & _ & _ & Cerr & _ & _).
  assert (Hafter_c : afterRenderAllPages FirstPass token st_c
                     = (st_c, [AwaitFrames token])).
  { cbn [afterRenderAllPages]. rewrite stale_false; [reflexivity |].
    now rewrite Ctok, Btok. }
  (* the frames, then the fit scale *)
  set (st_d := set_scrollLeft 0%Q
                 (set_scrollTop 0%Q
                    (set_currentScale
                       (fitWidthScale (computeFitWidthScale st_c))
                       (computeFitWidthScale st_c)))).
  destruct (computeFitWidthScale_fields st_c)
    as (Famb & _ & Fpages & Fdoc & Fcalls).
  destruct (ambient_inv _ _ Famb)
    as (Ftok & Fzoom & Fgeo & _ & _ & _ & Ferr & _ & _).
  assert (Dtok : renderToken st_d = token)
    by (unfold st_d; fields; now rewrite Ftok, Ctok, Btok).
  assert (Dpages : thisPages st_d = ps)
    by (change (thisPages st_d) with (thisPages (computeFitWidthScale st_c));
        now rewrite Fpages, Cpages, Bpages).
  (* the second pass *)
  destruct (render_pass_complete w SecondPass st_d)
    as (st_e & Hrun_e & Ehost & Ewrap & Ecanv & Erender & Ecalls & Escales
        & Edoc & Epages & Eamb).
  rewrite Dpages, Dtok in Hrun_e.
  destruct (ambient_inv _ _ Eamb)
    as (Etok & Ezoom & Egeo & Etop & Eleft & _ & Eerr & _ & _).
  apply scales_inv in Escales. destruct Escales as (Ecur & Efit).
  assert (Hafter_e : afterRenderAllPages SecondPass token st_e
                     = (finallySetLoading (renderToken st_e)
                          (updateZoomUi (updateNavUi st_e)), [])).
  { cbn [afterRenderAllPages]. rewrite stale_false.
    - now rewrite Etok, Dtok.
    - now rewrite Etok, Dtok. }
  destruct (load_epilogue_fields st_e)
    as (Gover & _ & Gtok & Gdoc & Gpages & Gscales & Gzoom & Ggeo & Gtop
        & Gleft & Gerr & Ghost & Gwrap & Gcanv & Gcalls).
  apply scales_inv in Gscales. destruct Gscales as (Gcur & Gfit).
  set (st_f := finallySetLoading (renderToken st_e)
                 (updateZoomUi (updateNavUi st_e))) in *.
  assert (Hcur : currentScale st_f
                 = fitWidthScale (computeFitWidthScale st_c))
    by (now rewrite Gcur, Ecur).
  assert (Hfit : fitWidthScale st_f
                 = fitWidthScale (computeFitWidthScale st_c))
    by (now rewrite Gfit, Efit).
  exists st_f. split; [| repeat split].
  - unfold loadSettlements. rewrite run_cons.
    rewrite (step_settle_single _ _ _ _ (st_a, [AwaitDocument token]));
      [| reflexivity].
    rewrite run_app.
    change (after w (st_a, [AwaitDocument token]))
      with {| ctrl := st_a; pending := [AwaitDocument token]; wired := w |}.
    rewrite Hrun_b, run_app, Hrun_c, Hafter_c, run_cons.
    change (after w (st_c, [AwaitFrames token]))
      with {| ctrl := st_c; pending := [AwaitFrames token]; wired := w |}.
    rewrite (step_settle_single _ _ _ _
               (renderAllPages token SecondPass st_d)); [| reflexivity].
    rewrite Hrun_e, Hafter_e. reflexivity.
  - now rewrite Gdoc, Edoc, <- Bdoc, <- Cdoc, <- Fdoc.
  - now rewrite Gpages, Epages.
  - rewrite Hfit. symmetry. apply computeFitWidthScale_ext.
    + now rewrite Gpages, Epages, Dpages, Cpages, Bpages.
    + now rewrite Ggeo, Egeo.
    + now rewrite Gzoom, Ezoom.
  - now rewrite Hcur, Hfit.
  - now rewrite Gtop, Etop.
  - now rewrite Gleft, Eleft.
  - exact Gover.
  - now rewrite Ghost, Gwrap, Ewrap.
  - now rewrite Gcanv, Gwrap, Ecanv, Ewrap.
  - rewrite Gcanv, Erender, Dpages, Hcur. reflexivity.
  - rewrite Gcalls, Ecalls, Dpages, Hcur.
    change (currentScale st_d)
      with (fitWidthScale (computeFitWidthScale st_c)).
    change (calls st_d) with (calls (computeFitWidthScale st_c)).
    now rewrite Fcalls, Ccalls, Bpages, Bscale, Bcalls.
  - now rewrite Gtok, Etok, Dtok.
  - rewrite Gzoom, Ezoom.
    change (zoomConfig st_d) with (zoomConfig (computeFitWidthScale st_c)).
    now rewrite Fzoom, Czoom, Bzoom.
  - rewrite Ggeo, Egeo.
    change (geometry st_d) with (geometry (computeFitWidthScale st_c)).
    now rewrite Fgeo, Cgeo, Bgeo.
  - rewrite Gerr, Eerr.
    change (errorShown st_d) with (errorShown (computeFitWidthScale st_c)).
    now rewrite Ferr, Cerr, Berr.
Qed.


(** ** Navigation *)

Lemma getCurrentPageIndex_lt (st : Controller) :
  pageWrappers st <> [] ->
  getCurrentPageIndex st < length (pageWrappers st).
Proof.
  intros Hn.
  assert (Hsel :
    getCurrentPageIndex st =
    nearestPage (offsetTop (geometry st))
      (Fin (scrollTop st + clientHeight (geometry st) * (35 # 100)))
      (pageWrappers st) (length (@nil Wrapper)) 0 PosInf).
  { unfold getCurrentPageIndex.
    destruct (pageWrappers st); [contradiction | reflexivity]. }
  destruct (nearestPage_invariant (offsetTop (geometry st))
              (scrollTop st + clientHeight (geometry st) * (35 # 100))
              (pageWrappers st) [] 0 PosInf) as [bd Hinv].
  { left. now split. }
  rewrite <- Hsel in Hinv. cbn [app] in Hinv.
  destruct Hinv as [[Hnil _] | (Hlt & _)]; [contradiction | exact Hlt].
Qed.

Lemma scrollToPage_at (st : Controller) (k : nat) (el : Wrapper) :
  nth_error (pageWrappers st) k = Some el ->
  scrollToPage (Z.of_nat k) st
  = set_scrollTop (Qmax 0 (offsetTop (geometry st) (wr_id el) - (8 # 1))) st.
Proof.
  intros H. unfold scrollToPage.
  assert (Hneg : (Z.of_nat k <? 0)%Z = false) by (apply Z.ltb_ge; lia).
  rewrite Hneg, Nat2Z.id, H. reflexivity.
Qed.

(** X15 (onPrevClick, onNextClick, scrollToPage, getCurrentPageIndex): with
    pages shown, the previous button scrolls to the page before the current
    one, or to the current one when it is the first, and the next button to
    the page after it, or to the current one when it is the last.  The
    target always exists; the new scroll offset is the target's top offset
    less 8, and 0 when that is negative; nothing else changes. *)
Theorem navigation_scrolls_to_neighbour (st : Controller) :
  pageWrappers st <> [] ->
  let n := length (pageWrappers st) in
  let i := getCurrentPageIndex st in
  exists prev next : Wrapper,
    nth_error (pageWrappers st) (i - 1) = Some prev
    /\ nth_error (pageWrappers st) (Nat.min (n - 1) (i + 1)) = Some next
    /\ onPrevClick st
       = set_scrollTop
           (Qmax 0 (offsetTop (geometry st) (wr_id prev) - (8 # 1))) st
    /\ onNextClick st
       = set_scrollTop
           (Qmax 0 (offsetTop (geometry st) (wr_id next) - (8 # 1))) st.
Proof.
  intros Hn. cbv zeta.
  pose proof (getCurrentPageIndex_lt st Hn) as Hlt.
  destruct (nth_error (pageWrappers st) (getCurrentPageIndex st - 1))
    as [prev |] eqn:Eprev;
    [| apply nth_error_None in Eprev; lia].
  destruct (nth_error (pageWrappers st)
              (Nat.min (length (pageWrappers st) - 1)
                 (getCurrentPageIndex st + 1)))
    as [next |] eqn:Enext;
    [| apply nth_error_None in Enext; lia].
  exists prev, next. repeat split.
  - unfold onPrevClick. cbv zeta.
    replace (Z.max 0 (Z.of_nat (getCurrentPageIndex st) - 1))
      with (Z.of_nat (getCurrentPageIndex st - 1)) by lia.
    now apply scrollToPage_at.
  - unfold onNextClick. cbv zeta.
    replace (Z.min (Z.of_nat (length (pageWrappers st)) - 1)
               (Z.of_nat (getCurrentPageIndex st) + 1))
      with (Z.of_nat (Nat.min (length (pageWrappers st) - 1)
                        (getCurrentPageIndex st + 1))) by lia.
    now apply scrollToPage_at.
Qed.

(** X16 (onPrevClick, onNextClick, scrollToPage): with no page shown both
    buttons leave the state as it is. *)
Theorem navigation_without_pages_is_idle (st : Controller) :
  pageWrappers st = [] ->
  onPrevClick st = st /\ onNextClick st = st.
Proof.
  intros H. unfold onPrevClick, onNextClick, getCurrentPageIndex, scrollToPage.
  rewrite H. split; reflexivity.
Qed.

(** ** Zooming *)

Section Zooming.

Local Open Scope Q_scope.

Lemma setScale_suspends (scale : number) (st : Controller) :
  doc st <> None -> thisPages st <> [] ->
  snd (setScale scale None st)
  = [AwaitRender (S (renderToken st)) (pages st) 0
       (ScalePass
          (Fin (Spec.scrollRatio (scrollTop st) (scrollHeight (geometry st))
                  (clientHeight (geometry st))))
          (Fin (Spec.scrollRatio (scrollLeft st) (scrollWidth (geometry st))
                  (clientWidth (geometry st)))))].
Proof.
  intros Hdoc Hp. unfold setScale. cbv zeta.
  set (st1 := updateZoomUi
                (set_currentScale (clampNumber scale (minZoom st) (maxZoom st))
                   st)).
  unfold applyScale.
  change (doc st1) with (doc st). change (thisPages st1) with (thisPages st).
  destruct (doc st) as [d |]; [| contradiction].
  destruct (thisPages st) as [| p ps] eqn:E; [contradiction |].
  cbv zeta. rewrite !captured_ratio.
  rewrite renderAllPages_suspends; [reflexivity | | reflexivity].
  change (thisPages (setLoading true
                       (set_renderToken (S (renderToken st1)) st1)))
    with (thisPages st).
  now rewrite E.
Qed.

Lemma onResetFit_snd (st : Controller) :
  snd (onResetFit st)
  = snd (setScale (fitWidthScale (computeFitWidthScale st)) None
           (computeFitWidthScale st)).
Proof.
  unfold onResetFit. cbv zeta. now destruct (setScale _ _ _).
Qed.

Lemma computeFitWidthScale_position (st : Controller) :
  renderToken (computeFitWidthScale st) = renderToken st
  /\ pages (computeFitWidthScale st) = pages st
  /\ scrollTop (computeFitWidthScale st) = scrollTop st
  /\ scrollLeft (computeFitWidthScale st) = scrollLeft st
  /\ geometry (computeFitWidthScale st) = geometry st.
Proof.
  unfold computeFitWidthScale. destruct (thisPages st); now repeat split.
Qed.

End Zooming.

(** X17 (onWheel, setScale, clampNumber): a wheel event with the zoom
    modifier moves the scale by one zoom step and clamps it.  For a current
    scale within ordered finite bounds and a non-negative step, a positive
    [deltaY] gives max(minZoom, scale - step) and any other [deltaY], NaN
    included, gives min(maxZoom, scale + step); the result is within the
    bounds, never above the old scale on zooming out and never below it on
    zooming in, and the zoom configuration and the fit scale are
    untouched. *)
Theorem wheel_zooms_one_clamped_step (deltaY : number) (st : Controller)
    (lo hi c z : Q) :
  minZoom st = Fin lo -> maxZoom st = Fin hi ->
  currentScale st = Fin c -> zoomStep st = Fin z ->
  (lo <= c <= hi)%Q -> (0 <= z)%Q ->
  exists c' : Q,
    currentScale (fst (onWheel deltaY st)) = Fin c'
    /\ (lo <= c' <= hi)%Q
    /\ (if gtb deltaY (Fin 0)
        then c' == Qmax lo (c - z) /\ c' <= c
        else c' == Qmin hi (c + z) /\ c <= c')%Q
    /\ zoomConfig (fst (onWheel deltaY st)) = zoomConfig st
    /\ fitWidthScale (fst (onWheel deltaY st)) = fitWidthScale st.
Proof.
  intros Hlo Hhi Hc Hz [Hc1 Hc2] Hz0.
  assert (Hle : (lo <= hi)%Q) by lra.
  unfold onWheel. cbv zeta.
  destruct (setScale_keeps
              (add (currentScale st)
                 (mul (if gtb deltaY (Fin 0) then Fin (-1 # 1) else Fin 1)
                    (zoomStep st))) None st) as (Ecfg & Ecur & Efit).
  rewrite Ecfg, Efit, Ecur, Hlo, Hhi, Hc, Hz.
  destruct (gtb deltaY (Fin 0)); cbn [add mul]; rewrite !clampNumber_fin;
    eexists; (split; [reflexivity |]);
    (split; [| split; [| split; reflexivity]]).
  - split; [apply Q.le_max_l |].
    apply Q.max_lub; [exact Hle | apply Q.le_min_l].
  - assert (E : (Qmax lo (Qmin hi (c + (-1 # 1) * z)) == Qmax lo (c - z))%Q).
    { rewrite Q.min_r by lra.
      apply Q.max_compat; [reflexivity | ring]. }
    split; [exact E |].
    rewrite E. apply Q.max_lub; lra.
  - split; [apply Q.le_max_l |].
    apply Q.max_lub; [exact Hle | apply Q.le_min_l].
  - assert (E : (Qmax lo (Qmin hi (c + 1 * z)) == Qmin hi (c + z))%Q).
    { rewrite Q.max_r.
      - apply Q.min_compat; [reflexivity | ring].
      - apply Q.min_glb; lra. }
    split; [exact E |].
    rewrite E. apply Q.min_glb; lra.
Qed.

(** X18 (onResetFit, computeFitWidthScale, setScale, applyScale): the
    reset-to-fit button, with a document shown and ordered finite bounds,
    recomputes the fit scale, makes it the current scale, starts a render
    pass under the next token and sets the vertical offset to 0.  The pass
    carries the scroll ratios captured before the offset was reset, so the
    frame that follows the pass restores the earlier position. *)
Theorem reset_fit_snaps_and_rerenders (st : Controller) (lo hi : Q) :
  doc st <> None -> thisPages st <> [] ->
  minZoom st = Fin lo -> maxZoom st = Fin hi -> (lo <= hi)%Q ->
  let res := onResetFit st in
  let g := geometry st in
  scrollTop (fst res) = 0%Q
  /\ fitWidthScale (fst res) = fitWidthScale (computeFitWidthScale st)
  /\ num_eq (currentScale (fst res)) (fitWidthScale (fst res))
  /\ snd res
     = [AwaitRender (S (renderToken st)) (pages st) 0
          (ScalePass
             (Fin (Spec.scrollRatio (scrollTop st) (scrollHeight g)
                     (clientHeight g)))
             (Fin (Spec.scrollRatio (scrollLeft st) (scrollWidth g)
                     (clientWidth g))))].
Proof.
  intros Hdoc Hp Hlo Hhi Hle. cbv zeta.
  destruct (computeFitWidthScale_keeps st) as (Hz & _ & Hpages & Hd).
  apply zoomConfig_inv in Hz. destruct Hz as (Hlo' & Hhi' & _).
  destruct (computeFitWidthScale_position st)
    as (Htok & Harr & Htop & Hleft & Hgeo).
  destruct (setScale_keeps (fitWidthScale (computeFitWidthScale st)) None
              (computeFitWidthScale st)) as (_ & Ecur & Efit).
  rewrite onResetFit_fst, onResetFit_snd.
  repeat split.
  - fields. exact Efit.
  - fields. rewrite Ecur, Efit, Hlo', Hhi', Hlo, Hhi.
    destruct (within_finite lo hi _
                (computeFitWidthScale_within st lo hi Hp Hlo Hhi Hle))
      as (q & -> & Hq).
    now apply clampNumber_id.
  - rewrite setScale_suspends.
    + now rewrite Htok, Harr, Htop, Hleft, Hgeo.
    + now rewrite Hd.
    + now rewrite Hpages.
Qed.

(** X19 (loadFromDataUri): a load that passes the gate (at least 20
    trimmed characters, a payload that decodes, the signature "%PDF")
    moves to the next token, hides the banner, shows the overlay and
    suspends on the import of the rendering library with the decoded
    bytes.  Up to that first suspension it calls no capability and leaves
    the previous document, its pages, the page view and both scales as they
    are.  When the import settles the load calls [getDocument] with the
    decoded bytes, its first capability call and made without a token
    check, and suspends on the document promise; that step changes nothing
    but the call log, so the previous document stays in place until the new
    one arrives. *)
Theorem accepted_load_keeps_previous_view (dataUri : list ascii)
    (st : Controller) (bytes : list Byte.byte) :
  20 <= length (trim dataUri) ->
  dataUriToBytes (trim dataUri) = Normal bytes ->
  signature bytes = "%PDF"%string ->
  let res := loadFromDataUri dataUri st in
  snd res = [AwaitPdfJs (S (renderToken st)) bytes]
  /\ renderToken (fst res) = S (renderToken st)
  /\ overlayShown (fst res) = true
  /\ errorShown (fst res) = false
  /\ errorText (fst res) = ""%string
  /\ doc (fst res) = doc st
  /\ thisPages (fst res) = thisPages st
  /\ view (fst res) = view st
  /\ scales (fst res) = scales st
  /\ calls (fst res) = calls st
  /\ resume (AwaitPdfJs (S (renderToken st)) bytes) (Fulfilled VUnit)
       (fst res)
     = Some (set_calls (CallGetDocument bytes :: calls st) (fst res),
             [AwaitDocument (S (renderToken st))]).
Proof.
  intros Hlen Hdec Hsig. cbv zeta. unfold loadFromDataUri.
  rewrite (long_enough _ Hlen), Hdec, Hsig.
  replace (negb ("%PDF" =? "%PDF")%string) with false by reflexivity.
  unfold stale. fields. rewrite Nat.eqb_refl. cbn [negb fst snd].
  now repeat split.
Qed.

(** ** The three lists of the page view *)

Section PageView.

Lemma viewOk_nil (w : bool) : viewOk w ([], [], []).
Proof. now split. Qed.

Lemma viewOk_weaken (w : bool)
    (v : list Canvas * list Wrapper * list Wrapper) :
  viewOk true v -> viewOk w v.
Proof. intros [H1 H2]. split; [exact H1 | intros _; now apply H2]. Qed.

Lemma view_updateNavUi (st : Controller) : view (updateNavUi st) = view st.
Proof. unfold updateNavUi. now destruct (_ =? 0). Qed.

Lemma view_finallySetLoading (token : nat) (st : Controller) :
  view (finallySetLoading token st) = view st.
Proof. unfold finallySetLoading. now destruct (_ =? _). Qed.

Lemma view_updateZoomUi (st : Controller) : view (updateZoomUi st) = view st.
Proof. reflexivity. Qed.

Lemma view_computeFitWidthScale (st : Controller) :
  view (computeFitWidthScale st) = view st.
Proof. unfold computeFitWidthScale. now destruct (thisPages st). Qed.

Lemma view_scrollToPage (index : Z) (st : Controller) :
  view (scrollToPage index st) = view st.
Proof.
  unfold scrollToPage. destruct (_ <? _)%Z; [reflexivity |].
  now destruct (nth_error _ _).
Qed.

Lemma viewOk_loadCatch (w : bool) (token : nat) (msg : string)
    (st : Controller) :
  viewOk w (view st) -> viewOk w (view (loadCatch token msg st)).
Proof.
  intros H. unfold loadCatch. rewrite view_finallySetLoading.
  destruct (stale token st); [exact H | apply viewOk_nil].
Qed.

Lemma viewOk_afterRenderAllPages (w : bool) (caller : RenderCaller)
    (token : nat) (st : Controller) :
  viewOk w (view st) ->
  viewOk w (view (fst (afterRenderAllPages caller token st))).
Proof.
  intros H. unfold afterRenderAllPages.
  destruct caller; destruct (stale token st); cbn [fst];
    rewrite ?view_finallySetLoading, ?view_updateZoomUi, ?view_updateNavUi;
    exact H.
Qed.

Lemma viewOk_renderLoop (w : bool) (token : nat) (arr : ArrayRef)
    (caller : RenderCaller) (rest : list PDFPageProxy) :
  forall (idx : nat) (st : Controller),
    viewOk w (view st) ->
    viewOk w (view (fst (renderLoop token arr caller rest idx st))).
Proof.
  induction rest as [| page rest IH]; intros idx st H.
  - now apply viewOk_afterRenderAllPages.
  - cbn [renderLoop]. unfold stale at 1.
    destruct (negb (token =? renderToken st)) eqn:Est.
    + now apply viewOk_afterRenderAllPages.
    + unfold renderPageToCanvas. rewrite Est. cbn [fst].
      destruct H as [H1 H2]. unfold view in *. cbn [fst snd] in *.
      split; fields.
      * rewrite H1, map_app. reflexivity.
      * intros Hw. now rewrite (H2 Hw).
Qed.

Lemma viewOk_renderAllPages (w : bool) (token : nat) (caller : RenderCaller)
    (st : Controller) :
  viewOk w (view (fst (renderAllPages token caller st))).
Proof.
  unfold renderAllPages. apply viewOk_renderLoop. apply viewOk_nil.
Qed.

Lemma viewOk_loadPageLoop (w : bool) (token : nat) (d : PDFDocumentProxy)
    (i n : nat) (st : Controller) :
  viewOk w (view st) -> viewOk w (view (fst (loadPageLoop token d i n st))).
Proof.
  intros H. unfold loadPageLoop.
  destruct (i <=? n); [| apply viewOk_renderAllPages].
  destruct (stale token st); cbn [fst];
    rewrite ?view_finallySetLoading; exact H.
Qed.

Lemma viewOk_loadFromDataUri (w : bool) (dataUri : list ascii)
    (st : Controller) :
  viewOk w (view st) -> viewOk w (view (fst (loadFromDataUri dataUri st))).
Proof.
  intros H. unfold loadFromDataUri. cbv zeta.
  destruct (_ || _); [apply viewOk_nil |].
  destruct (dataUriToBytes (trim dataUri)) as [bytes | msg]; cbn [fst].
  - destruct (negb _); cbn [fst].
    + rewrite view_finallySetLoading. apply viewOk_nil.
    + destruct (stale _ _); cbn [fst];
        rewrite ?view_finallySetLoading; exact H.
  - apply viewOk_loadCatch. exact H.
Qed.

Lemma viewOk_applyScale (w : bool) (scale : number) (st : Controller) :
  viewOk w (view st) -> viewOk w (view (fst (applyScale scale st))).
Proof.
  intros H. unfold applyScale.
  destruct (doc st); [| exact H].
  destruct (thisPages st); [exact H |].
  apply viewOk_renderAllPages.
Qed.

Lemma viewOk_setScale (w : bool) (scale : number) (opts : option bool)
    (st : Controller) :
  viewOk w (view st) -> viewOk w (view (fst (setScale scale opts st))).
Proof.
  intros H. unfold setScale. cbv zeta.
  destruct (match opts with Some b => b | None => true end);
    [apply viewOk_applyScale |]; exact H.
Qed.

Lemma viewOk_onResize (w : bool) (st : Controller) :
  viewOk w (view st) -> viewOk w (view (fst (onResize st))).
Proof.
  intros H. unfold onResize.
  destruct (thisPages st); [exact H |]. cbv zeta.
  destruct (leb _ _); cbn [fst].
  - apply viewOk_setScale. now rewrite view_computeFitWidthScale.
  - now rewrite view_computeFitWidthScale.
Qed.

Lemma viewOk_onResetFit (w : bool) (st : Controller) :
  viewOk w (view st) -> viewOk w (view (fst (onResetFit st))).
Proof.
  intros H. rewrite onResetFit_fst.
  match goal with
  | |- viewOk w (view (set_scrollTop ?q ?s)) =>
      change (view (set_scrollTop q s)) with (view s)
  end.
  apply viewOk_setScale. now rewrite view_computeFitWidthScale.
Qed.

Lemma viewOk_updateView (w : bool) (context : Inputs) (st : Controller) :
  viewOk w (view st) -> viewOk w (view (fst (updateView context st))).
Proof.
  intros H. unfold updateView. cbv zeta.
  destruct (negb _).
  - apply viewOk_loadFromDataUri. exact H.
  - apply viewOk_onResize. exact H.
Qed.

Lemma viewOk_resume (w : bool) (f : Frame) (r : Settled) (st : Controller)
    (res : Controller * list Frame) :
  viewOk w (view st) -> resume f r st = Some res -> viewOk w (view (fst res)).
Proof.
  intros Hv.
  destruct f; destruct r as [[| d' | p'] | msg]; cbn [resume];
    intros H; try discriminate H; injection H as <-; cbn [fst].
  - rewrite view_updateNavUi. exact Hv.
  - exact Hv.
  - now apply viewOk_loadCatch.
  - destruct (stale token st); cbn [fst].
    + now rewrite view_finallySetLoading.
    + apply viewOk_loadPageLoop. apply viewOk_nil.
  - now apply viewOk_loadCatch.
  - apply viewOk_loadPageLoop. exact Hv.
  - now apply viewOk_loadCatch.
  - now apply viewOk_renderLoop.
  - unfold throwFromRenderAllPages. destruct caller; cbn [fst];
      try (now apply viewOk_loadCatch);
      now rewrite view_finallySetLoading.
  - apply viewOk_renderAllPages.
  - exact Hv.
Qed.

Lemma viewOk_step (ev : Event) (sys : System) :
  viewOk (wired sys) (view (ctrl sys)) ->
  viewOk (wired (step ev sys)) (view (ctrl (step ev sys))).
Proof.
  intros H. destruct ev; cbn [step].
  all: try (revert H; destruct (wired sys) eqn:Ew; intros H;
            cbn [ctrl spawn fst wired]; rewrite ?Ew; [| exact H]).
  - now apply viewOk_updateView.
  - now apply viewOk_onResize.
  - exact H.
  - unfold onViewportScroll. rewrite view_updateNavUi. exact H.
  - unfold onWheel. cbv zeta. now apply viewOk_setScale.
  - now apply viewOk_onResetFit.
  - unfold onPrevClick. now rewrite view_scrollToPage.
  - unfold onNextClick. now rewrite view_scrollToPage.
  - destruct (nth_error (pending sys) i) as [f |]; [| exact H].
    destruct (resume f r (ctrl sys)) as [[st' spawned] |] eqn:E; [| exact H].
    cbn [ctrl wired]. apply (viewOk_resume _ _ _ _ _ H E).
  - split; [reflexivity | discriminate].
Qed.

Lemma reachable_viewOk (sys : System) :
  reachable sys -> viewOk (wired sys) (view (ctrl sys)).
Proof.
  intros (g & events & ->).
  induction events as [| ev events IH] using rev_ind.
  - apply viewOk_nil.
  - rewrite run_snoc. now apply viewOk_step.
Qed.

End PageView.

(** X20 (renderAllPages, clearDocument, loadFromDataUri, destroy): in every
    state the controller can reach, [pageCanvases] lists the canvases of
    [pageWrappers], in the same order, and as long as the controller is not
    destroyed [pageWrappers] lists the children of the pages host. *)
Theorem page_lists_stay_aligned (sys : System) :
  reachable sys ->
  pageCanvases (ctrl sys) = map wr_canvas (pageWrappers (ctrl sys))
  /\ (wired sys = true -> pagesHost (ctrl sys) = pageWrappers (ctrl sys)).
Proof.
  intros H. exact (reachable_viewOk sys H).
Qed.

(** ** Panning *)

Section Panning.

Local Open Scope Q_scope.

Lemma drag_while_panning (moves : list (Q * Q)) :
  forall s : Pan * Controller,
    isPanning (fst s) = true ->
    fst (drag moves s) = fst s
    /\ (moves = [] -> snd (drag moves s) = snd s)
    /\ (forall x y rest, moves = rest ++ [(x, y)] ->
          scrollLeft (snd (drag moves s))
          = panStartScrollLeft (fst s) - (x - panStartX (fst s))
          /\ scrollTop (snd (drag moves s))
             = panStartScrollTop (fst s) - (y - panStartY (fst s))).
Proof.
  induction moves as [| m moves IH] using rev_ind; intros s Hp.
  - split; [reflexivity | split; [reflexivity |]].
    intros x y rest H. now destruct rest.
  - unfold drag. rewrite fold_left_app. cbn [fold_left]. fold (drag moves s).
    destruct (IH s Hp) as (Hfst & _ & _).
    unfold onMouseMove. rewrite Hfst, Hp. cbn [negb fst snd].
    split; [reflexivity | split].
    + intros H. now destruct moves.
    + intros x y rest H. apply app_inj_tail in H. destruct H as [_ H].
      subst m. cbn [fst snd]. split; reflexivity.
Qed.

End Panning.

(** X21 (onMouseDown, onMouseMove, onMouseUp): while the primary button is
    held, the scroll offsets the handlers assign follow the pointer: after
    any sequence of moves they are the offsets at the press less the
    pointer's displacement since the press, whatever the moves in between.  Releasing the button
    keeps the offsets; moves before a press or after the release, and a
    press of another button, change nothing. *)
Theorem pan_follows_pointer (p : Pan) (st : Controller) (x0 y0 : Q)
    (moves : list (Q * Q)) (x y : Q) :
  let pressed := onMouseDown 0 x0 y0 (p, st) in
  let dragged := drag (moves ++ [(x, y)]) pressed in
  let released := onMouseUp dragged in
  (scrollLeft (snd dragged) = scrollLeft st - (x - x0))%Q
  /\ (scrollTop (snd dragged) = scrollTop st - (y - y0))%Q
  /\ isPanning (fst dragged) = true
  /\ snd released = snd dragged
  /\ isPanning (fst released) = false
  /\ (forall x' y', onMouseMove x' y' released = released)
  /\ (isPanning p = false ->
      forall x' y', onMouseMove x' y' (p, st) = (p, st))
  /\ (forall button, button <> 0%Z ->
      onMouseDown button x0 y0 (p, st) = (p, st)).
Proof.
  cbv zeta.
  set (pressed := onMouseDown 0 x0 y0 (p, st)).
  assert (Hp : isPanning (fst pressed) = true) by reflexivity.
  destruct (drag_while_panning (moves ++ [(x, y)]) pressed Hp)
    as (Hfst & _ & Hlast).
  destruct (Hlast x y moves eq_refl) as (Hleft & Htop).
  assert (Hpan : isPanning (fst (drag (moves ++ [(x, y)]) pressed)) = true)
    by (now rewrite Hfst).
  repeat split.
  - exact Hleft.
  - exact Htop.
  - exact Hpan.
  - unfold onMouseUp. now rewrite Hpan.
  - unfold onMouseUp. now rewrite Hpan.
  - intros x' y'. unfold onMouseUp. rewrite Hpan. reflexivity.
  - intros Hidle x' y'. unfold onMouseMove. cbn [fst]. now rewrite Hidle.
  - intros button Hb. unfold onMouseDown.
    apply Z.eqb_neq in Hb. now rewrite Hb.
Qed.

(** ** The source identifier and the configuration *)

Section SameInput.

Lemma updateView_configure (context : Inputs) (st : Controller) :
  updateView context st
  = let dataUri := trim (orElse (pdfDataUri context) []) in
    if negb (string_eqb dataUri (orElse (lastDataUri st) []))
    then loadFromDataUri dataUri
           (set_lastDataUri (Some dataUri) (configure context st))
    else onResize (configure context st).
Proof. reflexivity. Qed.

Lemma string_eqb_eq (a b : list ascii) : string_eqb a b = true <-> a = b.
Proof.
  unfold string_eqb. destruct (list_eq_dec ascii_dec a b); split;
    intros H; try reflexivity; try assumption; try discriminate.
  contradiction.
Qed.

Lemma configure_fixed (context : Inputs) (st st0 : Controller) :
  zoomConfig st = zoomConfig (configure context st0) ->
  configure context st = st.
Proof.
  unfold zoomConfig, configure. cbv zeta. fields.
  destruct st. cbn. intros H. injection H as -> -> ->. reflexivity.
Qed.

Lemma lastDataUri_finallySetLoading (token : nat) (st : Controller) :
  lastDataUri (finallySetLoading token st) = lastDataUri st.
Proof. unfold finallySetLoading. now destruct (_ =? _). Qed.

Lemma lastDataUri_updateNavUi (st : Controller) :
  lastDataUri (updateNavUi st) = lastDataUri st.
Proof. unfold updateNavUi. now destruct (_ =? 0). Qed.

Lemma lastDataUri_loadCatch (token : nat) (msg : string) (st : Controller) :
  lastDataUri (loadCatch token msg st) = lastDataUri st.
Proof.
  unfold loadCatch. rewrite lastDataUri_finallySetLoading.
  now destruct (stale token st).
Qed.

Lemma lastDataUri_afterRenderAllPages (caller : RenderCaller) (token : nat)
    (st : Controller) :
  lastDataUri (fst (afterRenderAllPages caller token st)) = lastDataUri st.
Proof.
  unfold afterRenderAllPages.
  destruct caller; destruct (stale token st); cbn [fst];
    rewrite ?lastDataUri_finallySetLoading; try reflexivity;
    apply lastDataUri_updateNavUi.
Qed.

Lemma lastDataUri_renderLoop (token : nat) (arr : ArrayRef)
    (caller : RenderCaller) (rest : list PDFPageProxy) :
  forall (idx : nat) (st : Controller),
    lastDataUri (fst (renderLoop token arr caller rest idx st))
    = lastDataUri st.
Proof.
  induction rest as [| page rest IH]; intros idx st.
  - apply lastDataUri_afterRenderAllPages.
  - cbn [renderLoop]. unfold stale at 1.
    destruct (negb (token =? renderToken st)) eqn:Est.
    + apply lastDataUri_afterRenderAllPages.
    + unfold renderPageToCanvas. rewrite Est. reflexivity.
Qed.

Lemma lastDataUri_setScale (scale : number) (opts : option bool)
    (st : Controller) :
  lastDataUri (fst (setScale scale opts st)) = lastDataUri st.
Proof.
  unfold setScale. cbv zeta.
  destruct (match opts with Some b => b | None => true end);
    [| reflexivity].
  unfold applyScale.
  match goal with |- context [doc ?s] => destruct (doc s) end;
    [| reflexivity].
  match goal with |- context [thisPages ?s] => destruct (thisPages s) end;
    [reflexivity |].
  cbv zeta. unfold renderAllPages. now rewrite lastDataUri_renderLoop.
Qed.

Lemma lastDataUri_onResize (st : Controller) :
  lastDataUri (fst (onResize st)) = lastDataUri st.
Proof.
  unfold onResize. destruct (thisPages st) eqn:E; [reflexivity |]. cbv zeta.
  assert (H : lastDataUri (computeFitWidthScale st) = lastDataUri st)
    by (unfold computeFitWidthScale; now rewrite E).
  destruct (leb _ _); cbn [fst]; [| exact H].
  now rewrite lastDataUri_setScale.
Qed.

Lemma lastDataUri_loadFromDataUri (dataUri : list ascii) (st : Controller) :
  lastDataUri (fst (loadFromDataUri dataUri st)) = lastDataUri st.
Proof.
  unfold loadFromDataUri. cbv zeta.
  destruct (_ || _); [reflexivity |].
  destruct (dataUriToBytes (trim dataUri)) as [bytes | msg]; cbn [fst].
  - destruct (negb _); cbn [fst].
    + now rewrite lastDataUri_finallySetLoading.
    + destruct (stale _ _); cbn [fst];
        rewrite ?lastDataUri_finallySetLoading; reflexivity.
  - now rewrite lastDataUri_loadCatch.
Qed.

End SameInput.

(** X22 (updateView): a second [updateView] with the same parameters never
    starts a load: it runs [onResize] on the state as it is.  The first
    call leaves the trimmed identifier in [lastDataUri] (or finds it
    there), and the clamped configuration it stored is stored again
    unchanged. *)
Theorem updateView_same_input_does_not_reload (context : Inputs)
    (st : Controller) :
  updateView context (fst (updateView context st))
  = onResize (fst (updateView context st)).
Proof.
  assert (Hcfg : zoomConfig (fst (updateView context st))
                 = zoomConfig (configure context st)).
  { rewrite updateView_configure. cbv zeta.
    destruct (negb _).
    - now rewrite loadFromDataUri_keeps.
    - now rewrite onResize_keeps. }
  assert (Huri : orElse (lastDataUri (fst (updateView context st))) []
                 = trim (orElse (pdfDataUri context) [])).
  { rewrite updateView_configure. cbv zeta.
    destruct (string_eqb _ _) eqn:E; cbn [negb].
    - rewrite lastDataUri_onResize. apply string_eqb_eq in E.
      symmetry. exact E.
    - now rewrite lastDataUri_loadFromDataUri. }
  revert Hcfg Huri. generalize (fst (updateView context st)) as st1.
  intros st1 Hcfg Huri.
  rewrite updateView_configure. cbv zeta. rewrite Huri.
  assert (Hrefl : string_eqb (trim (orElse (pdfDataUri context) []))
                    (trim (orElse (pdfDataUri context) [])) = true)
    by (now apply string_eqb_eq).
  rewrite Hrefl. cbn [negb].
  now rewrite (configure_fixed context st1 st Hcfg).
Qed.

(** X23 (renderPageToCanvas): for a finite non-negative scale, a page of
    non-negative size, a device pixel ratio of at least 1 and a scaled page
    of at most 2^30 device pixels a side, the raster size of the canvas a
    render pass gives the page and its displayed size (the number before
    "px") are whole numbers of pixels, the raster is never smaller than the
    display, and both stay below 2^31, the limit of a canvas dimension.
    Only the order of the two sizes is stated, not their values. *)
Theorem canvas_raster_covers_display (st : Controller) (p : PDFPageProxy)
    (s : Q) :
  currentScale st = Fin s ->
  (0 <= s)%Q -> (0 <= pg_width p)%Q -> (0 <= pg_height p)%Q ->
  (1 <= devicePixelRatio (geometry st))%Q ->
  (pg_width p * s * devicePixelRatio (geometry st) <= inject_Z (2 ^ 30))%Q ->
  (pg_height p * s * devicePixelRatio (geometry st) <= inject_Z (2 ^ 30))%Q ->
  exists W H w h : Z,
    cv_width (canvasOf st p) = Fin (inject_Z W)
    /\ cv_height (canvasOf st p) = Fin (inject_Z H)
    /\ cv_styleWidth (canvasOf st p)
       = (toString (Fin (inject_Z w)) ++ "px")%string
    /\ cv_styleHeight (canvasOf st p)
       = (toString (Fin (inject_Z h)) ++ "px")%string
    /\ (0 <= w <= W)%Z /\ (W < 2 ^ 31)%Z
    /\ (0 <= h <= H)%Z /\ (H < 2 ^ 31)%Z.
Proof.
  intros Hs Hs0 Hw0 Hh0 Hr HW HH.
  assert (Htruthy : truthy (Fin (devicePixelRatio (geometry st))) = true).
  { cbn [truthy]. unfold Qeqb.
    destruct (devicePixelRatio (geometry st) ?= 0)%Q eqn:E;
      try reflexivity.
    apply Qeq_alt in E. exfalso. lra. }
  unfold canvasOf, renderPageToCanvas. rewrite Nat.eqb_refl. cbn [negb].
  cbv zeta. rewrite Htruthy, Hs. unfold getViewport. cbn [fst snd mul].
  cbn [Math_floor cv_width cv_height cv_styleWidth cv_styleHeight].
  assert (Hcover : forall a : Q,
             (0 <= a)%Q ->
             (a * s <= a * s * devicePixelRatio (geometry st))%Q).
  { intros a Ha.
    assert (H0 : (0 <= a * s)%Q) by (apply Qmult_le_0_compat; assumption).
    revert H0 Hr. generalize (a * s)%Q (devicePixelRatio (geometry st)).
    intros u r H0 Hr. nra. }
  assert (Hlimit : forall x : Q,
             (x <= inject_Z (2 ^ 30))%Q -> (Qfloor x < 2 ^ 31)%Z).
  { intros x Hx. apply Z.le_lt_trans with (m := (2 ^ 30)%Z); [| reflexivity].
    rewrite <- (Qfloor_Z (2 ^ 30)). now apply Qfloor_resp_le. }
  do 4 eexists.
  split; [reflexivity |]. split; [reflexivity |].
  split; [reflexivity |]. split; [reflexivity |].
  repeat split.
  - change 0%Z with (Qfloor 0). apply Qfloor_resp_le.
    now apply Qmult_le_0_compat.
  - apply Qfloor_resp_le. now apply Hcover.
  - now apply Hlimit.
  - change 0%Z with (Qfloor 0). apply Qfloor_resp_le.
    now apply Qmult_le_0_compat.
  - apply Qfloor_resp_le. now apply Hcover.
  - now apply Hlimit.
Qed.

(** X24 (computeFitWidthScale): the fit scale grows with the viewport.  For
    the same first page and finite bounds, a layout whose viewport is at
    least as wide gives a fit scale at least as large; and as long as the
    viewport is at most 224 wide, where the usable width is held at 200, the
    fit scale does not change at all. *)
Theorem fit_scale_grows_with_width (st : Controller) (g' : Geometry)
    (lo hi : Q) :
  thisPages st <> [] ->
  minZoom st = Fin lo -> maxZoom st = Fin hi ->
  (clientWidth (geometry st) <= clientWidth g')%Q ->
  exists f f' : Q,
    fitWidthScale (computeFitWidthScale st) = Fin f
    /\ fitWidthScale (computeFitWidthScale (set_geometry g' st)) = Fin f'
    /\ (f <= f')%Q
    /\ ((clientWidth g' <= 224)%Q -> (f == f')%Q).
Proof.
  intros Hp Hlo Hhi Hw. unfold computeFitWidthScale.
  change (thisPages (set_geometry g' st)) with (thisPages st).
  destruct (thisPages st) as [| first rest]; [contradiction |].
  fields. rewrite Hlo, Hhi.
  unfold getViewport. cbn [fst mul sub add neg Math_max].
  assert (Hpos : (0 < Qmax 1 (pg_width first * 1))%Q)
    by (apply Qlt_le_trans with (y := 1%Q); [reflexivity | apply Q.le_max_l]).
  rewrite !div_fin_pos by exact Hpos. rewrite !clampNumber_fin.
  eexists. eexists. split; [reflexivity |]. split; [reflexivity |]. split.
  - apply Q.max_le_compat_l, Q.min_le_compat_l.
    apply Qmult_le_compat_r.
    + apply Q.max_le_compat_l. apply Qplus_le_compat; [exact Hw | apply Qle_refl].
    + apply Qinv_le_0_compat. now apply Qlt_le_weak.
  - intros Hnarrow.
    apply Q.max_compat; [reflexivity |].
    apply Q.min_compat; [reflexivity |].
    apply Qdiv_comp; [| reflexivity].
    rewrite !Q.max_l; [reflexivity | lra | lra].
Qed.

(** * The current scale against the zoom bounds *)

(** The suspended calls of a load that has yet to adopt its fit scale:
    everything of [loadFromDataUri] before its second render pass. *)
Definition loadFrame (f : Frame) : bool :=
  match f with
  | AwaitPdfJs _ _ | AwaitDocument _ | AwaitPage _ _ _ _ | AwaitFrames _ => true
  | AwaitRender _ _ _ FirstPass => true
  | _ => false
  end.

(** A load under the current token is in that phase. *)
Definition loading (sys : System) : Prop :=
  exists f, In f (pending sys) /\ loadFrame f = true
            /\ frameToken f = Some (renderToken (ctrl sys)).






Section ScaleInvariant.










(** ** How the invariant is carried over *)





















End ScaleInvariant.


Section ScaleSessions.

Import Scenario.



End ScaleSessions.

(** * The further properties on concrete sessions *)

Section Sessions.

Import Scenario.

Lemma loadedC_reachable : reachable loadedC.
Proof.
  exists geometry0, (EvSettle 0 done :: loadC).
  unfold loadedC, started. symmetry. apply run_cons.
Qed.

Lemma beforePageA_reachable : reachable beforePageA.
Proof.
  exists geometry0, (EvSettle 0 done :: loadA_until_page ++ loadB_until_page).
  unfold beforePageA, started. symmetry. apply run_cons.
Qed.

(** After the load of document C every scale is finite and between 0.1 and
    10. *)
Lemma reachable_scales_bounded_witness :
  exists lo hi c f,
    minZoom (ctrl loadedC) = Fin lo /\ maxZoom (ctrl loadedC) = Fin hi
    /\ currentScale (ctrl loadedC) = Fin c
    /\ fitWidthScale (ctrl loadedC) = Fin f
    /\ (1 # 10 <= lo)%Q /\ (lo <= hi)%Q /\ (hi <= 10)%Q
    /\ (1 # 10 <= c <= 10)%Q /\ (1 # 10 <= f <= 10)%Q.
Proof.
  apply (reachable_scales_bounded loadedC). exact loadedC_reachable.
Defined.

(** With the loads of A and B both pending, their tokens 1 and 2 are
    distinct and not above the current one. *)
Lemma generations_are_sequential_witness :
  NoDup (pendingTokens (pending beforePageA))
  /\ Forall (fun token => token <= renderToken (ctrl beforePageA))
       (pendingTokens (pending beforePageA))
  /\ forall ev,
       renderToken (ctrl beforePageA)
       <= renderToken (ctrl (step ev beforePageA)).
Proof.
  apply (generations_are_sequential beforePageA).
  exact beforePageA_reachable.
Defined.

(** The document of the superseded load A arriving again under token 1
    changes nothing. *)
Lemma superseded_continuation_is_discarded_witness :
  resume (AwaitDocument 1) (Fulfilled (VDocument docA)) (ctrl beforePageA)
  = Some (ctrl beforePageA, []).
Proof.
  destruct (superseded_continuation_is_discarded 1 (ctrl beforePageA))
    as (_ & H & _).
  - vm_compute. discriminate.
  - apply H.
Defined.

(** A third identifier supplied while A and B are pending makes B's pending
    fetch stale. *)
Lemma new_generation_supersedes_pending_witness :
  stale 2 (ctrl (step (EvUpdateView (inputs uriC)) beforePageA)) = true.
Proof.
  destruct (new_generation_supersedes_pending beforePageA
              (EvUpdateView (inputs uriC))) as (H & _).
  - exact beforePageA_reachable.
  - assert (Hne : renderToken
                    (ctrl (step (EvUpdateView (inputs uriC)) beforePageA))
                  <> renderToken (ctrl beforePageA))
      by (vm_compute; discriminate).
    apply (H Hne (AwaitPage 2 docB 1 1) 2).
    + vm_compute. right. left. reflexivity.
    + reflexivity.
Defined.

(** The document promise of the current load is rejected. *)
Lemma rejected_load_shows_banner_witness :
  exists st',
    resume (AwaitDocument 0) (Rejected "Invalid PDF structure.")
      (ctrl started) = Some (st', [])
    /\ Spec.bannerShown ("Failed to load PDF: " ++ "Invalid PDF structure.")
         st'
    /\ overlayShown st' = false
    /\ renderToken st' = renderToken (ctrl started).
Proof.
  apply (rejected_load_shows_banner (AwaitDocument 0)
           "Invalid PDF structure." (ctrl started)).
  - reflexivity.
  - reflexivity.
  - intros arr idx ratioTop ratioLeft. discriminate.
Defined.

(** Document C, of one page, is fetched. *)
Lemma pages_fetched_in_order_witness :
  exists st' : Controller,
    run (EvSettle 0 (Fulfilled (VDocument docC)) :: pageSettlements [pageC1])
      {| ctrl := ctrl started;
         pending := [AwaitDocument (renderToken (ctrl started))];
         wired := true |}
    = after true (renderAllPages (renderToken (ctrl started)) FirstPass st')
    /\ doc st' = Some docC
    /\ thisPages st' = [pageC1]
    /\ currentScale st' = Fin 1
    /\ calls st'
       = rev (map (CallGetPage docC) (seq 1 (length [pageC1])))
         ++ calls (ctrl started)
    /\ renderToken st' = renderToken (ctrl started)
    /\ zoomConfig st' = zoomConfig (ctrl started)
    /\ fitWidthScale st' = fitWidthScale (ctrl started)
    /\ geometry st' = geometry (ctrl started).
Proof.
  apply (pages_fetched_in_order true (ctrl started) docC [pageC1]).
  reflexivity.
Defined.

(** The payload "@@@@" is outside the base64 alphabet. *)
Lemma dataUriToBytes_rejects_foreign_character_witness :
  dataUriToBytes uriMalformed = Throw Base64.atob_message.
Proof.
  apply (dataUriToBytes_rejects_foreign_character uriMalformed "@"%char).
  - vm_compute. left. reflexivity.
  - reflexivity.
Defined.

(** A header without its comma and payload. *)
Lemma dataUriToBytes_rejects_half_prefixed_witness :
  payloadOf (list_ascii_of_string "data:application/pdf;base64")
  = trim (list_ascii_of_string "data:application/pdf;base64")
  /\ dataUriToBytes (list_ascii_of_string "data:application/pdf;base64")
     = Throw Base64.atob_message.
Proof.
  apply (dataUriToBytes_rejects_half_prefixed
           (list_ascii_of_string "data:application/pdf;base64")).
  vm_compute. reflexivity.
Defined.

(** The payload of document A under two headers. *)
Lemma dataUriToBytes_ignores_header_witness :
  dataUriToBytes
    (list_ascii_of_string "data:" ++ list_ascii_of_string "application/pdf;base64"
       ++ ","%char :: list_ascii_of_string "JVBERi0xLjQ=")
  = dataUriToBytes
      (list_ascii_of_string "data:" ++ list_ascii_of_string "text/plain"
         ++ ","%char :: list_ascii_of_string "JVBERi0xLjQ=").
Proof.
  destruct (dataUriToBytes_ignores_header
              (list_ascii_of_string "application/pdf;base64")
              (list_ascii_of_string "text/plain")
              (list_ascii_of_string "JVBERi0xLjQ=")) as (H & _).
  - vm_compute. intros H.
    repeat (destruct H as [H | H]; [discriminate H |]). exact H.
  - vm_compute. intros H.
    repeat (destruct H as [H | H]; [discriminate H |]). exact H.
  - exact H.
Defined.

(** Document C, of one page, loaded without interruption. *)
Lemma uninterrupted_load_completes_witness :
  exists st' : Controller,
    run (loadSettlements docC [pageC1])
      {| ctrl := ctrl started;
         pending :=
           [AwaitPdfJs (renderToken (ctrl started))
              [Byte.x25; Byte.x50; Byte.x44; Byte.x46]];
         wired := true |}
    = {| ctrl := st'; pending := []; wired := true |}
    /\ doc st' = Some docC
    /\ thisPages st' = [pageC1]
    /\ fitWidthScale st' = fitWidthScale (computeFitWidthScale st')
    /\ currentScale st' = fitWidthScale st'
    /\ scrollTop st' = 0%Q
    /\ scrollLeft st' = 0%Q
    /\ overlayShown st' = false
    /\ pagesHost st' = pageWrappers st'
    /\ pageCanvases st' = map wr_canvas (pageWrappers st')
    /\ map cv_render (pageCanvases st')
       = map (fun p => Some (p, currentScale st')) [pageC1]
    /\ calls st'
       = rev (map (fun p => CallRender p (currentScale st')) [pageC1])
         ++ rev (map (fun p => CallRender p (Fin 1)) [pageC1])
         ++ rev (map (CallGetPage docC) (seq 1 (length [pageC1])))
         ++ CallGetDocument [Byte.x25; Byte.x50; Byte.x44; Byte.x46]
            :: calls (ctrl started)
    /\ renderToken st' = renderToken (ctrl started)
    /\ zoomConfig st' = zoomConfig (ctrl started)
    /\ geometry st' = geometry (ctrl started)
    /\ errorShown st' = errorShown (ctrl started).
Proof.
  apply (uninterrupted_load_completes true (ctrl started)
           [Byte.x25; Byte.x50; Byte.x44; Byte.x46] docC [pageC1]).
  reflexivity.
Defined.

(** With document C shown, both buttons have a target. *)
Lemma navigation_scrolls_to_neighbour_witness :
  let n := length (pageWrappers (ctrl loadedC)) in
  let i := getCurrentPageIndex (ctrl loadedC) in
  exists prev next : Wrapper,
    nth_error (pageWrappers (ctrl loadedC)) (i - 1) = Some prev
    /\ nth_error (pageWrappers (ctrl loadedC)) (Nat.min (n - 1) (i + 1))
       = Some next
    /\ onPrevClick (ctrl loadedC)
       = set_scrollTop
           (Qmax 0 (offsetTop (geometry (ctrl loadedC)) (wr_id prev)
                    - (8 # 1)))
           (ctrl loadedC)
    /\ onNextClick (ctrl loadedC)
       = set_scrollTop
           (Qmax 0 (offsetTop (geometry (ctrl loadedC)) (wr_id next)
                    - (8 # 1)))
           (ctrl loadedC).
Proof.
  apply (navigation_scrolls_to_neighbour (ctrl loadedC)).
  assert (H : length (pageWrappers (ctrl loadedC)) = 1)
    by (vm_compute; reflexivity).
  intros E. rewrite E in H. discriminate H.
Defined.

(** Before any document the buttons do nothing. *)
Lemma navigation_without_pages_is_idle_witness :
  onPrevClick (ctrl started) = ctrl started
  /\ onNextClick (ctrl started) = ctrl started.
Proof.
  apply (navigation_without_pages_is_idle (ctrl started)).
  reflexivity.
Defined.

(** With document C at the scale 1 and a zoom step of 1, a wheel event
    with a positive [deltaY] zooms out to the lower bound. *)
Lemma wheel_zooms_one_clamped_step_witness :
  exists c' : Q,
    currentScale (fst (onWheel (Fin 1) (ctrl loadedC))) = Fin c'
    /\ (5 # 10 <= c' <= 3)%Q
    /\ (if gtb (Fin 1) (Fin 0)
        then c' == Qmax (5 # 10) ((976 # 976) - 1) /\ c' <= 976 # 976
        else c' == Qmin 3 ((976 # 976) + 1) /\ 976 # 976 <= c')%Q
    /\ zoomConfig (fst (onWheel (Fin 1) (ctrl loadedC)))
       = zoomConfig (ctrl loadedC)
    /\ fitWidthScale (fst (onWheel (Fin 1) (ctrl loadedC)))
       = fitWidthScale (ctrl loadedC).
Proof.
  apply (wheel_zooms_one_clamped_step (Fin 1) (ctrl loadedC)
           (5 # 10) 3 (976 # 976) 1).
  - vm_compute. reflexivity.
  - vm_compute. reflexivity.
  - vm_compute. reflexivity.
  - vm_compute. reflexivity.
  - split; vm_compute; discriminate.
  - vm_compute. discriminate.
Defined.

(** With document C shown, the reset-to-fit button. *)
Lemma reset_fit_snaps_and_rerenders_witness :
  let res := onResetFit (ctrl loadedC) in
  let g := geometry (ctrl loadedC) in
  scrollTop (fst res) = 0%Q
  /\ fitWidthScale (fst res)
     = fitWidthScale (computeFitWidthScale (ctrl loadedC))
  /\ num_eq (currentScale (fst res)) (fitWidthScale (fst res))
  /\ snd res
     = [AwaitRender (S (renderToken (ctrl loadedC))) (pages (ctrl loadedC)) 0
          (ScalePass
             (Fin (Spec.scrollRatio (scrollTop (ctrl loadedC))
                     (scrollHeight g) (clientHeight g)))
             (Fin (Spec.scrollRatio (scrollLeft (ctrl loadedC))
                     (scrollWidth g) (clientWidth g))))].
Proof.
  apply (reset_fit_snaps_and_rerenders (ctrl loadedC) (5 # 10) 3).
  - assert (H : doc (ctrl loadedC) = Some docC) by (vm_compute; reflexivity).
    rewrite H. discriminate.
  - assert (H : thisPages (ctrl loadedC) = [pageC1])
      by (vm_compute; reflexivity).
    rewrite H. discriminate.
  - vm_compute. reflexivity.
  - vm_compute. reflexivity.
  - vm_compute. discriminate.
Defined.

(** Document A passes the gate. *)
Lemma accepted_load_keeps_previous_view_witness :
  let res := loadFromDataUri uriA (ctrl started) in
  snd res
  = [AwaitPdfJs (S (renderToken (ctrl started)))
       [Byte.x25; Byte.x50; Byte.x44; Byte.x46; Byte.x2d; Byte.x31;
        Byte.x2e; Byte.x34]]
  /\ renderToken (fst res) = S (renderToken (ctrl started))
  /\ overlayShown (fst res) = true
  /\ errorShown (fst res) = false
  /\ errorText (fst res) = ""%string
  /\ doc (fst res) = doc (ctrl started)
  /\ thisPages (fst res) = thisPages (ctrl started)
  /\ view (fst res) = view (ctrl started)
  /\ scales (fst res) = scales (ctrl started)
  /\ calls (fst res) = calls (ctrl started)
  /\ resume
       (AwaitPdfJs (S (renderToken (ctrl started)))
          [Byte.x25; Byte.x50; Byte.x44; Byte.x46; Byte.x2d; Byte.x31;
           Byte.x2e; Byte.x34])
       (Fulfilled VUnit) (fst res)
     = Some
         (set_calls
            (CallGetDocument
               [Byte.x25; Byte.x50; Byte.x44; Byte.x46; Byte.x2d; Byte.x31;
                Byte.x2e; Byte.x34]
             :: calls (ctrl started))
            (fst res),
          [AwaitDocument (S (renderToken (ctrl started)))]).
Proof.
  apply (accepted_load_keeps_previous_view uriA (ctrl started)
           [Byte.x25; Byte.x50; Byte.x44; Byte.x46; Byte.x2d; Byte.x31;
            Byte.x2e; Byte.x34]).
  - vm_compute. lia.
  - vm_compute. reflexivity.
  - vm_compute. reflexivity.
Defined.

(** After the load of document C the three lists agree. *)
Lemma page_lists_stay_aligned_witness :
  pageCanvases (ctrl loadedC) = map wr_canvas (pageWrappers (ctrl loadedC))
  /\ (wired loadedC = true ->
      pagesHost (ctrl loadedC) = pageWrappers (ctrl loadedC)).
Proof.
  apply (page_lists_stay_aligned loadedC). exact loadedC_reachable.
Defined.

(** The canvas of the page of document C at the fit scale and a device
    pixel ratio of 1. *)
Lemma canvas_raster_covers_display_witness :
  exists W H w h : Z,
    cv_width (canvasOf (ctrl loadedC) pageC1) = Fin (inject_Z W)
    /\ cv_height (canvasOf (ctrl loadedC) pageC1) = Fin (inject_Z H)
    /\ cv_styleWidth (canvasOf (ctrl loadedC) pageC1)
       = (toString (Fin (inject_Z w)) ++ "px")%string
    /\ cv_styleHeight (canvasOf (ctrl loadedC) pageC1)
       = (toString (Fin (inject_Z h)) ++ "px")%string
    /\ (0 <= w <= W)%Z /\ (W < 2 ^ 31)%Z
    /\ (0 <= h <= H)%Z /\ (H < 2 ^ 31)%Z.
Proof.
  apply (canvas_raster_covers_display (ctrl loadedC) pageC1 (976 # 976)).
  - vm_compute. reflexivity.
  - vm_compute. discriminate.
  - vm_compute. discriminate.
  - vm_compute. discriminate.
  - vm_compute. discriminate.
  - vm_compute. discriminate.
  - vm_compute. discriminate.
Defined.

(** Document C shown, and a viewport widened from 1000 to 1200. *)
Lemma fit_scale_grows_with_width_witness :
  exists f f' : Q,
    fitWidthScale (computeFitWidthScale (ctrl loadedC)) = Fin f
    /\ fitWidthScale
         (computeFitWidthScale
            (set_geometry (withSize 1200 600) (ctrl loadedC))) = Fin f'
    /\ (f <= f')%Q
    /\ ((clientWidth (withSize 1200 600) <= 224)%Q -> (f == f')%Q).
Proof.
  apply (fit_scale_grows_with_width (ctrl loadedC) (withSize 1200 600)
           (5 # 10) 3).
  - assert (H : thisPages (ctrl loadedC) = [pageC1])
      by (vm_compute; reflexivity).
    rewrite H. discriminate.
  - vm_compute. reflexivity.
  - vm_compute. reflexivity.
  - vm_compute. discriminate.
Defined.

End Sessions.
